(** * Credential vault of keychain-lockscreen-credentials

    A shallow embedding of [src/services/StorageService.js],
    [src/utils/LockscreenUtils.js] and the clear-all handler of
    [src/screens/SettingsScreen.js], and the properties of the vault that are
    checked against it.

    The two native collaborators are modelled, not embedded:
    - MMKV (['app-storage']) is a finite map from string keys to string
      values, whose calls never fail;
    - react-native-keychain is a finite map from service names to sealed
      items.  A write or a reset either takes effect or rejects with a native
      error and changes nothing.  A read of a missing service resolves to
      [false], a read of an item sealed without access control resolves to
      its payload, and a read of an item sealed under an access control
      puts one interactive challenge to the user, which may succeed, be
      dismissed or reject.
    What the device, the user and the clock answer is read from an
    environment of oracles, so that a statement quantified over the
    environment covers every behaviour of the platform.  JavaScript strings
    are modelled by [string], [JSON] by an interface with two laws, and
    [async] code by a state and exception monad over the two stores and a
    trace of what the application did. *)

From Stdlib Require Import ZArith Lia Ascii.
From stdpp Require Import base tactics option list strings gmap pretty.

(** ** JavaScript values *)

Module JS.

#[local] Set Warnings "-register-all".

(** The values the vault hands to [JSON.stringify] and gets back from
    [JSON.parse]: no numbers occur in its schema.  Objects keep their
    properties in insertion order. *)
Inductive json : Type :=
| JNull
| JBool (b : bool)
| JString (s : string)
| JArray (items : list json)
| JObject (props : list (string * json)).

Inductive Error : Type :=
| SyntaxError (msg : string)
| TypeError (msg : string)
| NativeError (msg : string).

Definition message (e : Error) : string :=
  match e with
  | SyntaxError m | TypeError m | NativeError m => m
  end.

(** Truthiness of a string: only the empty string is falsy. *)
Definition truthy_string (s : string) : bool :=
  match s with
  | EmptyString => false
  | String _ _ => true
  end.

Definition truthy (v : json) : bool :=
  match v with
  | JNull => false
  | JBool b => b
  | JString s => truthy_string s
  | JArray _ | JObject _ => true
  end.

(** Truthiness of a possibly [undefined] value. *)
Definition truthy_opt (v : option json) : bool :=
  match v with
  | Some j => truthy j
  | None => false
  end.

(** [String.prototype.includes]. *)
Fixpoint includes (hay needle : string) : bool :=
  String.prefix needle hay ||
  match hay with
  | EmptyString => false
  | String _ rest => includes rest needle
  end.

Fixpoint join (sep : string) (parts : list string) : string :=
  match parts with
  | [] => EmptyString
  | [p] => p
  | p :: rest => p +:+ sep +:+ join sep rest
  end.

(** String coercion, as a template literal performs it. *)
Fixpoint toString (v : json) : string :=
  match v with
  | JNull => "null"
  | JBool true => "true"
  | JBool false => "false"
  | JString s => s
  | JArray items =>
      join ","
        (map (fun e => match e with JNull => EmptyString | _ => toString e end)
             items)
  | JObject _ => "[object Object]"
  end.

(** [a === b]: primitives compare by value; an array or an object is only
    identical to itself, and the two sides the vault compares always come
    from different [JSON.parse] calls. *)
Definition strict_eq (a b : json) : bool :=
  match a, b with
  | JNull, JNull => true
  | JBool x, JBool y => Bool.eqb x y
  | JString x, JString y => String.eqb x y
  | _, _ => false
  end.

Fixpoint assoc (p : string) (props : list (string * json)) : option json :=
  match props with
  | [] => None
  | (q, v) :: rest => if String.eqb q p then Some v else assoc p rest
  end.

Fixpoint assign (p : string) (v : json) (props : list (string * json))
  : list (string * json) :=
  match props with
  | [] => [(p, v)]
  | (q, w) :: rest =>
      if String.eqb q p then (q, v) :: rest else (q, w) :: assign p v rest
  end.

(** [o.p]: [None] is [undefined]; reading a property of [null] throws. *)
Definition get_prop (o : json) (p : string) : Error + option json :=
  match o with
  | JNull => inl (TypeError "Cannot read properties of null")
  | JObject props => inr (assoc p props)
  | _ => inr None
  end.

(** [o.p = v] in strict mode, seen through [JSON.stringify]: a named
    property set on an array is not serialised. *)
Definition set_prop (o : json) (p : string) (v : json) : Error + json :=
  match o with
  | JObject props => inr (JObject (assign p v props))
  | JArray items => inr (JArray items)
  | JNull => inl (TypeError "Cannot set properties of null")
  | _ => inl (TypeError "Cannot create property")
  end.

(** The interface of the global [JSON] object; [parse] answers [None] where
    [JSON.parse] throws a [SyntaxError]. *)
Class JSON : Type := {
  stringify : json -> string;
  parse : string -> option json
}.

(** The two facts about [JSON] the vault relies on: a stringified value
    parses back to itself, and it is never the empty string. *)
Class JSONLaws (J : JSON) : Prop := {
  parse_stringify : forall j, parse (stringify j) = Some j;
  stringify_truthy : forall j, truthy_string (stringify j) = true
}.

Fixpoint zeros (n : nat) : string :=
  match n with
  | O => EmptyString
  | S n => String "0" (zeros n)
  end.

(** [String(z).padStart(width, '0')]. *)
Definition padStart (width : nat) (z : Z) : string :=
  zeros (width - String.length (pretty z)) +:+ pretty z.

(** [new Date(ms).toISOString()], for the years 0000 to 9999. *)
Definition Date_toISOString (ms : Z) : string :=
  let days := (ms / 86400000)%Z in
  let rem := (ms mod 86400000)%Z in
  let z := (days + 719468)%Z in
  let era := (z / 146097)%Z in
  let doe := (z - era * 146097)%Z in
  let yoe :=
    ((doe - doe / 1460 + doe / 36524 - doe / 146096) / 365)%Z in
  let doy := (doe - (365 * yoe + yoe / 4 - yoe / 100))%Z in
  let mp := ((5 * doy + 2) / 153)%Z in
  let d := (doy - (153 * mp + 2) / 5 + 1)%Z in
  let m := if bool_decide (mp < 10)%Z then (mp + 3)%Z else (mp - 9)%Z in
  let y :=
    (yoe + era * 400 + (if bool_decide (m <= 2)%Z then 1 else 0))%Z in
  padStart 4 y +:+ "-" +:+ padStart 2 m +:+ "-" +:+ padStart 2 d +:+ "T"
  +:+ padStart 2 (rem / 3600000) +:+ ":"
  +:+ padStart 2 ((rem mod 3600000) / 60000) +:+ ":"
  +:+ padStart 2 ((rem mod 60000) / 1000) +:+ "."
  +:+ padStart 3 (rem mod 1000) +:+ "Z".

End JS.

Import JS.

(** ** The platform: react-native-keychain, MMKV, the clock *)

Inductive OS : Type := ios | android.

Module Keychain.

Inductive ACCESS_CONTROL : Type :=
| BIOMETRY_ANY
| BIOMETRY_ANY_OR_DEVICE_PASSCODE
| DEVICE_PASSCODE.

Inductive SECURITY_LEVEL : Type := SECURE_HARDWARE | SECURE_SOFTWARE.

Inductive ACCESSIBLE : Type := WHEN_UNLOCKED.

Inductive AUTHENTICATION_TYPE : Type := DEVICE_PASSCODE_OR_BIOMETRICS.

Inductive BIOMETRY_TYPE : Type := FACE_ID | TOUCH_ID | OPTIC_ID | FINGERPRINT.

Record AuthenticationPrompt : Type := {
  title : option string;
  description : option string;
  cancel : option string
}.

(** The options object of the three keychain calls; [None] is a property
    that is missing or [null]. *)
Record Options : Type := {
  service : string;
  accessControl : option ACCESS_CONTROL;
  securityLevel : option SECURITY_LEVEL;
  accessible : option ACCESSIBLE;
  authenticationPrompt : option AuthenticationPrompt;
  authenticationType : option AUTHENTICATION_TYPE
}.

Definition plain (svc : string) : Options :=
  {| service := svc; accessControl := None; securityLevel := None;
     accessible := None; authenticationPrompt := None;
     authenticationType := None |}.

(** A sealed item: the payload and the access control it was sealed under. *)
Record Item : Type := {
  item_username : string;
  item_password : string;
  item_accessControl : option ACCESS_CONTROL
}.

(** What [getGenericPassword] resolves to when it resolves to an object. *)
Record UserCredentials : Type := {
  cred_service : string;
  cred_username : string;
  cred_password : string
}.

End Keychain.

Import Keychain.

(** How one interactive challenge ends. *)
Inductive ChallengeOutcome : Type :=
| Authenticated
| Dismissed                      (* the read resolves to [false] *)
| Rejected (msg : string).       (* the read rejects, e.g. on cancel *)

(** The device and its user.  The oracles are indexed by the number of
    platform interactions made so far, so the answers may change from one
    call to the next in any way. *)
Record Env : Type := {
  Platform_OS : OS;
  Date_getTime : nat -> Z;
  native_fault : nat -> option string;
  challenge : nat -> ChallengeOutcome;
  supportedBiometry : nat -> Error + option BIOMETRY_TYPE
}.

(** What the application does that can be observed from outside. *)
Inductive Event : Type :=
| KeychainSet (username password : string) (o : Options)
| KeychainGet (o : Options)
| KeychainReset (svc : string)
| Challenge (svc : string) (prompt : option AuthenticationPrompt)
| ConsoleError (label : string) (e : Error)
| SetLoading (b : bool)
| Alert (title text : string).

Record World : Type := {
  mmkv : gmap string string;
  keychain : gmap string Item;
  ticks : nat;
  trace : list Event
}.

Definition set_mmkv (f : gmap string string -> gmap string string) (w : World)
  : World :=
  {| mmkv := f (mmkv w); keychain := keychain w; ticks := ticks w;
     trace := trace w |}.

Definition set_keychain (f : gmap string Item -> gmap string Item) (w : World)
  : World :=
  {| mmkv := mmkv w; keychain := f (keychain w); ticks := ticks w;
     trace := trace w |}.

Definition tick (w : World) : World :=
  {| mmkv := mmkv w; keychain := keychain w; ticks := S (ticks w);
     trace := trace w |}.

Definition emit (e : Event) (w : World) : World :=
  {| mmkv := mmkv w; keychain := keychain w; ticks := ticks w;
     trace := trace w ++ [e] |}.

(** ** Asynchronous code: state and exceptions *)

Inductive Completion (A : Type) : Type :=
| Normal (a : A)
| Throw (e : Error).
Arguments Normal {A} a.
Arguments Throw {A} e.

Definition M (A : Type) : Type := World -> Completion A * World.

Definition ret {A} (a : A) : M A := fun w => (Normal a, w).

Definition throw {A} (e : Error) : M A := fun w => (Throw e, w).

Definition bind {A B} (m : M A) (k : A -> M B) : M B :=
  fun w =>
    match m w with
    | (Normal a, w') => k a w'
    | (Throw e, w') => (Throw e, w')
    end.

Definition try_catch {A} (body : M A) (handler : Error -> M A) : M A :=
  fun w =>
    match body w with
    | (Normal a, w') => (Normal a, w')
    | (Throw e, w') => handler e w'
    end.

(** A JavaScript operation that throws, lifted into the monad. *)
Definition lift {A} (r : Error + A) : M A :=
  match r with
  | inl e => throw e
  | inr a => ret a
  end.

Declare Scope js_scope.
Delimit Scope js_scope with js.
Bind Scope js_scope with M.
Notation "'let*' x ':=' m 'in' k" := (bind m (fun x => k))
  (at level 10, x name, m at level 100, k at level 200) : js_scope.
Notation "m ';;' k" := (bind m (fun _ => k))
  (at level 100, k at level 200, right associativity) : js_scope.
Local Open Scope js_scope.

Fixpoint for_each {A} (xs : list A) (body : A -> M unit) : M unit :=
  match xs with
  | [] => ret tt
  | x :: rest => body x;; for_each rest body
  end.

Definition console_error (label : string) (e : Error) : M unit :=
  fun w => (Normal tt, emit (ConsoleError label e) w).

(** ** The objects passed across the two services *)

(** The options object the callers of StorageService pass; [None] is a
    property left out. *)
Record CredentialOptions : Type := {
  useBiometrics : option bool;
  useDevicePasscode : option bool;
  promptMessage : option string
}.

(** What [getCredential] resolves to: [{...credential, metadata}]. *)
Record Credential : Type := {
  service_of : string;
  username_of : string;
  password_of : string;
  metadata_of : json
}.

Module Lockscreen.

(** The options object of [authenticateWithLockscreen]. *)
Record AuthOptions : Type := {
  promptMessage : option string;
  cancelButtonText : option string;
  fallbackToPasscode : option bool
}.

Record BiometricInfo : Type := {
  available : bool;
  type : option BIOMETRY_TYPE;
  displayName : string
}.

End Lockscreen.

(** ** The native calls *)

Section Vault.

Context {J : JSON} (E : Env).

Definition is_android : bool :=
  match Platform_OS E with
  | android => true
  | ios => false
  end.

(** [new Date()], as epoch milliseconds. *)
Definition Date_now : M Z :=
  fun w => (Normal (Date_getTime E (ticks w)), tick w).

Definition JSON_parse (s : string) : M json :=
  match parse s with
  | Some j => ret j
  | None => throw (SyntaxError "Unexpected token in JSON")
  end.

Definition storage_getString (k : string) : M (option string) :=
  fun w => (Normal (mmkv w !! k), w).

Definition storage_set (k v : string) : M unit :=
  fun w => (Normal tt, set_mmkv (insert k v) w).

Definition storage_delete (k : string) : M unit :=
  fun w => (Normal tt, set_mmkv (delete k) w).

(** Seals the payload under [accessControl o], or rejects on a native
    fault and stores nothing. *)
Definition Keychain_setGenericPassword (username password : string)
    (o : Options) : M unit :=
  fun w =>
    let w1 := tick (emit (KeychainSet username password o) w) in
    match native_fault E (ticks w) with
    | Some msg => (Throw (NativeError msg), w1)
    | None =>
        (Normal tt,
         set_keychain
           (insert (service o)
              {| item_username := username; item_password := password;
                 item_accessControl := accessControl o |}) w1)
    end.

(** Resolves to [false] when nothing is stored under the service, reads an
    unprotected item directly, and puts the interactive challenge in front
    of a protected one. *)
Definition Keychain_getGenericPassword (o : Options)
  : M (option UserCredentials) :=
  fun w =>
    let w1 := emit (KeychainGet o) w in
    match keychain w !! service o with
    | None => (Normal None, w1)
    | Some it =>
        let creds :=
          {| cred_service := service o; cred_username := item_username it;
             cred_password := item_password it |} in
        match item_accessControl it with
        | None => (Normal (Some creds), w1)
        | Some _ =>
            let w2 :=
              tick (emit (Challenge (service o) (authenticationPrompt o)) w1) in
            match challenge E (ticks w) with
            | Authenticated => (Normal (Some creds), w2)
            | Dismissed => (Normal None, w2)
            | Rejected msg => (Throw (NativeError msg), w2)
            end
        end
    end.

Definition Keychain_resetGenericPassword (svc : string) : M unit :=
  fun w =>
    let w1 := tick (emit (KeychainReset svc) w) in
    match native_fault E (ticks w) with
    | Some msg => (Throw (NativeError msg), w1)
    | None => (Normal tt, set_keychain (delete svc) w1)
    end.

Definition Keychain_getSupportedBiometryType : M (option BIOMETRY_TYPE) :=
  fun w =>
    match supportedBiometry E (ticks w) with
    | inl e => (Throw e, tick w)
    | inr b => (Normal b, tick w)
    end.

(** ** StorageService *)

Definition SERVICE : string := "com.lockscreencreds.example".

(** [str ? JSON.parse(str) : fallback]: a missing or empty string is
    falsy. *)
Definition parse_or (str : option string) (fallback : M json) : M json :=
  match str with
  | Some s => if truthy_string s then JSON_parse s else fallback
  | None => fallback
  end.

Definition getItemsList : M json :=
  let* itemsList := storage_getString "itemsList" in
  parse_or itemsList (ret (JArray [])).

Definition saveItemsList (items : json) : M unit :=
  storage_set "itemsList" (stringify items).

(** Lines 46-94 of [saveCredential]: the keychain options a policy maps
    to. *)
Definition saveCredential_keychainOptions (key : string)
    (options : CredentialOptions) : Options :=
  let useBiometrics := default false (useBiometrics options) in
  let useDevicePasscode := default false (useDevicePasscode options) in
  let '(accessControl, androidAuthenticationRequired) :=
    if useBiometrics && useDevicePasscode then
      (Some BIOMETRY_ANY_OR_DEVICE_PASSCODE, true)
    else if useBiometrics then (Some BIOMETRY_ANY, true)
    else if useDevicePasscode then (Some DEVICE_PASSCODE, true)
    else (None, false) in
  let '(accessControl, securityLevel) :=
    if is_android && (useBiometrics || useDevicePasscode) then
      (match accessControl with
       | Some ac => Some ac
       | None => Some BIOMETRY_ANY_OR_DEVICE_PASSCODE
       end, Some SECURE_HARDWARE)
    else
      match accessControl with
      | Some ac => (Some ac, Some SECURE_SOFTWARE)
      | None => (None, None)
      end in
  if is_android && androidAuthenticationRequired then
    {| service := SERVICE +:+ "." +:+ key;
       accessControl := accessControl;
       securityLevel := securityLevel;
       accessible := Some WHEN_UNLOCKED;
       authenticationPrompt :=
         Some {| title := Some "Authentication Required";
                 description :=
                   Some "Please authenticate to access this credential";
                 cancel := None |};
       authenticationType := Some DEVICE_PASSCODE_OR_BIOMETRICS |}
  else
    {| service := SERVICE +:+ "." +:+ key;
       accessControl := accessControl;
       securityLevel := securityLevel;
       accessible := Some WHEN_UNLOCKED;
       authenticationPrompt := None;
       authenticationType := None |}.

(** Lines 97-103: the metadata object of a save made at the two clock
    readings. *)
Definition saveCredential_metadata (key : string) (options : CredentialOptions)
    (createdAt updatedAt : Z) : json :=
  JObject
    [("createdAt", JString (Date_toISOString createdAt));
     ("updatedAt", JString (Date_toISOString updatedAt));
     ("key", JString key);
     ("useBiometrics", JBool (default false (useBiometrics options)));
     ("useDevicePasscode", JBool (default false (useDevicePasscode options)))].

Definition saveCredential (key username password : string)
    (options : CredentialOptions) : M bool :=
  try_catch
    (let keychainOptions := saveCredential_keychainOptions key options in
     let* createdAt := Date_now in
     let* updatedAt := Date_now in
     let metadata := saveCredential_metadata key options createdAt updatedAt in
     storage_set ("metadata_" +:+ key) (stringify metadata);;
     Keychain_setGenericPassword username password keychainOptions;;
     let* currentItems := getItemsList in
     match currentItems with
     | JArray items =>
         if existsb (strict_eq (JString key)) items then ret tt
         else saveItemsList (JArray (items ++ [JString key]))
     | JString s =>
         if includes s key then ret tt
         else throw (TypeError "currentItems.push is not a function")
     | _ => throw (TypeError "currentItems.includes is not a function")
     end;;
     ret true)
    (fun error => console_error "Error saving credential:" error;; ret false).

(** Lines 140-160 of [getCredential]: the prompt is attached when the
    metadata mirror requires authentication or the caller asks for it. *)
Definition getCredential_keychainOptions (key : string)
    (options : CredentialOptions)
    (metadata_useBiometrics metadata_useDevicePasscode : option json)
  : Options :=
  let useBiometrics := default false (useBiometrics options) in
  let promptMessage :=
    default "Authenticate to access credential" (promptMessage options) in
  let requiresAuth :=
    truthy_opt metadata_useBiometrics
    || truthy_opt metadata_useDevicePasscode in
  if requiresAuth || useBiometrics then
    let prompt :=
      {| title := Some promptMessage;
         description :=
           Some "Authentication is required to access this credential";
         cancel := Some "Cancel" |} in
    if is_android then
      {| service := SERVICE +:+ "." +:+ key;
         accessControl :=
           Some (if truthy_opt metadata_useBiometrics then BIOMETRY_ANY
                 else DEVICE_PASSCODE);
         securityLevel := Some SECURE_HARDWARE;
         accessible := None;
         authenticationPrompt := Some prompt;
         authenticationType := Some DEVICE_PASSCODE_OR_BIOMETRICS |}
    else
      {| service := SERVICE +:+ "." +:+ key;
         accessControl := None;
         securityLevel := None;
         accessible := None;
         authenticationPrompt := Some prompt;
         authenticationType := None |}
  else plain (SERVICE +:+ "." +:+ key).

Definition getCredential (key : string) (options : CredentialOptions)
  : M (option Credential) :=
  try_catch
    (let* metadataStr := storage_getString ("metadata_" +:+ key) in
     let* metadata := parse_or metadataStr (ret (JObject [])) in
     let* metadata_useBiometrics := lift (get_prop metadata "useBiometrics") in
     let* metadata_useDevicePasscode :=
       lift (get_prop metadata "useDevicePasscode") in
     let keychainOptions :=
       getCredential_keychainOptions key options
         metadata_useBiometrics metadata_useDevicePasscode in
     let* credential := Keychain_getGenericPassword keychainOptions in
     match credential with
     | Some c =>
         ret (Some {| service_of := cred_service c;
                      username_of := cred_username c;
                      password_of := cred_password c;
                      metadata_of := metadata |})
     | None => ret None
     end)
    (fun error =>
       console_error "Error retrieving credential:" error;;
       if truthy_string (message error)
          && (includes (message error) "authentication required"
              || includes (message error) "user not authenticated"
              || includes (message error) "cancelled"
              || includes (message error) "canceled")
       then ret None
       else ret None).

(** The key is whatever the index holds: the template literals coerce it to
    a string and the filter compares it with [!==]. *)
Definition deleteCredential (key : json) : M bool :=
  try_catch
    (Keychain_resetGenericPassword (SERVICE +:+ "." +:+ toString key);;
     storage_delete ("metadata_" +:+ toString key);;
     let* currentItems := getItemsList in
     let* updatedItems :=
       match currentItems with
       | JArray items =>
           ret (JArray (filter (fun item => strict_eq item key = false) items))
       | _ => throw (TypeError "currentItems.filter is not a function")
       end in
     saveItemsList updatedItems;;
     ret true)
    (fun error => console_error "Error deleting credential:" error;; ret false).

Definition updateCredential (key username password : string)
    (options : CredentialOptions) : M bool :=
  try_catch
    (let* metadataStr := storage_getString ("metadata_" +:+ key) in
     let* metadata :=
       parse_or metadataStr
         (let* now := Date_now in
          ret (JObject [("createdAt", JString (Date_toISOString now))])) in
     let* now := Date_now in
     let* metadata :=
       lift (set_prop metadata "updatedAt" (JString (Date_toISOString now))) in
     let* metadata :=
       lift (set_prop metadata "useBiometrics"
               (JBool (default false (useBiometrics options)))) in
     let* metadata :=
       lift (set_prop metadata "useDevicePasscode"
               (JBool (default false (useDevicePasscode options)))) in
     storage_set ("metadata_" +:+ key) (stringify metadata);;
     saveCredential key username password options)
    (fun error => console_error "Error updating credential:" error;; ret false).

(** ** The try blocks of the four operations

    What each operation runs before its [catch]: the operation is this
    block under the handler of its definition. *)

(** The [try] block of [saveCredential], lines 45-118. *)
Definition saveCredential_try (key username password : string)
    (options : CredentialOptions) : M bool :=
  let keychainOptions := saveCredential_keychainOptions key options in
  let* createdAt := Date_now in
  let* updatedAt := Date_now in
  let metadata := saveCredential_metadata key options createdAt updatedAt in
  storage_set ("metadata_" +:+ key) (stringify metadata);;
  Keychain_setGenericPassword username password keychainOptions;;
  let* currentItems := getItemsList in
  match currentItems with
  | JArray items =>
      if existsb (strict_eq (JString key)) items then ret tt
      else saveItemsList (JArray (items ++ [JString key]))
  | JString s =>
      if includes s key then ret tt
      else throw (TypeError "currentItems.push is not a function")
  | _ => throw (TypeError "currentItems.includes is not a function")
  end;;
  ret true.

(** The [try] block of [getCredential], lines 132-172. *)
Definition getCredential_try (key : string) (options : CredentialOptions)
  : M (option Credential) :=
  let* metadataStr := storage_getString ("metadata_" +:+ key) in
  let* metadata := parse_or metadataStr (ret (JObject [])) in
  let* metadata_useBiometrics := lift (get_prop metadata "useBiometrics") in
  let* metadata_useDevicePasscode :=
    lift (get_prop metadata "useDevicePasscode") in
  let keychainOptions :=
    getCredential_keychainOptions key options
      metadata_useBiometrics metadata_useDevicePasscode in
  let* credential := Keychain_getGenericPassword keychainOptions in
  match credential with
  | Some c =>
      ret (Some {| service_of := cred_service c;
                   username_of := cred_username c;
                   password_of := cred_password c;
                   metadata_of := metadata |})
  | None => ret None
  end.

(** The [try] block of [deleteCredential], lines 197-211. *)
Definition deleteCredential_try (key : json) : M bool :=
  Keychain_resetGenericPassword (SERVICE +:+ "." +:+ toString key);;
  storage_delete ("metadata_" +:+ toString key);;
  let* currentItems := getItemsList in
  let* updatedItems :=
    match currentItems with
    | JArray items =>
        ret (JArray (filter (fun item => strict_eq item key = false) items))
    | _ => throw (TypeError "currentItems.filter is not a function")
    end in
  saveItemsList updatedItems;;
  ret true.

(** The [try] block of [updateCredential], lines 227-240. *)
Definition updateCredential_try (key username password : string)
    (options : CredentialOptions) : M bool :=
  let* metadataStr := storage_getString ("metadata_" +:+ key) in
  let* metadata :=
    parse_or metadataStr
      (let* now := Date_now in
       ret (JObject [("createdAt", JString (Date_toISOString now))])) in
  let* now := Date_now in
  let* metadata :=
    lift (set_prop metadata "updatedAt" (JString (Date_toISOString now))) in
  let* metadata :=
    lift (set_prop metadata "useBiometrics"
            (JBool (default false (useBiometrics options)))) in
  let* metadata :=
    lift (set_prop metadata "useDevicePasscode"
            (JBool (default false (useDevicePasscode options)))) in
  storage_set ("metadata_" +:+ key) (stringify metadata);;
  saveCredential key username password options.

(** ** LockscreenUtils *)

Definition _getBiometryDisplayName (biometryType : option BIOMETRY_TYPE)
  : string :=
  match biometryType with
  | None => "Not Available"
  | Some t =>
      match Platform_OS E with
      | ios =>
          match t with
          | FACE_ID => "Face ID"
          | TOUCH_ID => "Touch ID"
          | OPTIC_ID => "Optic ID"
          | _ => "Biometrics"
          end
      | android => "Fingerprint / Biometrics"
      end
  end.

Definition getBiometricInfo : M Lockscreen.BiometricInfo :=
  try_catch
    (let* biometryType := Keychain_getSupportedBiometryType in
     ret {| Lockscreen.available := bool_decide (is_Some biometryType);
            Lockscreen.type := biometryType;
            Lockscreen.displayName := _getBiometryDisplayName biometryType |})
    (fun error =>
       console_error "Error getting biometric info:" error;;
       ret {| Lockscreen.available := false;
              Lockscreen.type := None;
              Lockscreen.displayName := "Not Available" |}).

Definition authenticateWithLockscreen (options : Lockscreen.AuthOptions)
  : M bool :=
  try_catch
    (let promptMessage :=
       default "Authenticate to continue" (Lockscreen.promptMessage options) in
     let cancelButtonText :=
       default "Cancel" (Lockscreen.cancelButtonText options) in
     let fallbackToPasscode :=
       default true (Lockscreen.fallbackToPasscode options) in
     let accessControl :=
       if fallbackToPasscode then BIOMETRY_ANY_OR_DEVICE_PASSCODE
       else BIOMETRY_ANY in
     let prompt :=
       {| title := Some promptMessage;
          description := Some "Authentication is required";
          cancel := Some cancelButtonText |} in
     let* accessControl :=
       if is_android then
         if fallbackToPasscode then ret BIOMETRY_ANY_OR_DEVICE_PASSCODE
         else
           let* bioInfo := getBiometricInfo in
           if Lockscreen.available bioInfo then ret BIOMETRY_ANY
           else ret DEVICE_PASSCODE
       else ret accessControl in
     let securityOptions tempKey :=
       {| service := tempKey;
          accessControl := Some accessControl;
          securityLevel := if is_android then Some SECURE_HARDWARE else None;
          accessible := Some WHEN_UNLOCKED;
          authenticationPrompt := Some prompt;
          authenticationType := Some DEVICE_PASSCODE_OR_BIOMETRICS |} in
     let* now := Date_now in
     let tempKey := "auth_check_" +:+ pretty now in
     Keychain_setGenericPassword "auth_user" "auth_check"
       (securityOptions tempKey);;
     let* result := Keychain_getGenericPassword (securityOptions tempKey) in
     Keychain_resetGenericPassword tempKey;;
     ret (bool_decide (is_Some result)))
    (fun error =>
       console_error "Authentication error:" error;;
       if truthy_string (message error)
          && (includes (message error) "canceled"
              || includes (message error) "cancelled"
              || includes (message error) "user canceled")
       then ret false
       else ret false).

(** ** SettingsScreen: clear all data *)

Definition setLoading (b : bool) : M unit :=
  fun w => (Normal tt, emit (SetLoading b) w).

Definition Alert_alert (title text : string) : M unit :=
  fun w => (Normal tt, emit (Alert title text) w).

(** [for (const item of items)]: an array yields its elements, a string its
    characters, and nothing else the vault can parse is iterable. *)
Definition for_of (items : json) (body : json -> M unit) : M unit :=
  match items with
  | JArray l => for_each l body
  | JString s =>
      for_each
        (map (fun c => JString (String c EmptyString)) (String.list_ascii_of_string s))
        body
  | _ => throw (TypeError "items is not iterable")
  end.

(** The options clear-all authenticates with. *)
Definition clearAllData_auth : Lockscreen.AuthOptions :=
  {| Lockscreen.promptMessage := Some "Authenticate to delete all data";
     Lockscreen.cancelButtonText := None;
     Lockscreen.fallbackToPasscode := Some true |}.

(** The handler of the [Delete Everything] button. *)
Definition clearAllData_onPress : M unit :=
  try_catch
    (setLoading true;;
     let* success := authenticateWithLockscreen clearAllData_auth in
     if negb success then setLoading false
     else
       let* items := getItemsList in
       for_of items (fun item => deleteCredential item;; ret tt);;
       saveItemsList (JArray []);;
       setLoading false;;
       Alert_alert "Data Cleared"
         "All credentials have been deleted from the app.")
    (fun error =>
       setLoading false;;
       console_error "Error clearing data:" error;;
       Alert_alert "Error" "Failed to clear app data").

Inductive ClearAllChoice : Type := Cancel | DeleteEverything.

(** The confirmation dialog, then the button the user presses. *)
Definition clearAllData (choice : ClearAllChoice) : M unit :=
  Alert_alert "Clear All Data"
    "This will permanently delete all your saved credentials. This action cannot be undone.";;
  match choice with
  | Cancel => ret tt
  | DeleteEverything => clearAllData_onPress
  end.

End Vault.

(** ** A concrete codec

    A printer and a recursive-descent parser for the JSON values above,
    without insignificant white space.  It instantiates [JSON] wherever the
    vault is run on a concrete store. *)

Module MiniJSON.

Definition dq : Ascii.ascii := "034"%char.
Definition bs : Ascii.ascii := "\"%char.

Fixpoint escape (s : string) : string :=
  match s with
  | EmptyString => EmptyString
  | String c r =>
      if Ascii.eqb c dq || Ascii.eqb c bs then String bs (String c (escape r))
      else String c (escape r)
  end.

Definition quote (s : string) (k : string) : string :=
  String dq (escape s +:+ String dq k).

Section Separated.
Context {A : Type} (item : A -> string -> string) (close : Ascii.ascii).

(** What follows the first element: [,item]* and the closing bracket. *)
Fixpoint more (l : list A) (k : string) : string :=
  match l with
  | [] => String close k
  | x :: r => String "," (item x (more r k))
  end.

Definition separated (l : list A) (k : string) : string :=
  match l with
  | [] => String close k
  | x :: r => item x (more r k)
  end.

End Separated.

(** The text of [j] followed by [k]. *)
Fixpoint write (j : json) (k : string) : string :=
  match j with
  | JNull => "null" +:+ k
  | JBool true => "true" +:+ k
  | JBool false => "false" +:+ k
  | JString s => quote s k
  | JArray l => String "[" (separated write "]" l k)
  | JObject ps =>
      String "{"
        (separated (fun p k => quote p.1 (String ":" (write p.2 k))) "}" ps k)
  end.

Definition stringify (j : json) : string := write j EmptyString.

(** Reads a string literal after its opening quote. *)
Fixpoint read_string (s : string) : option (string * string) :=
  match s with
  | EmptyString => None
  | String c r =>
      if Ascii.eqb c dq then Some (EmptyString, r)
      else if Ascii.eqb c bs then
        match r with
        | EmptyString => None
        | String c2 r2 =>
            match read_string r2 with
            | Some (x, rest) => Some (String c2 x, rest)
            | None => None
            end
        end
      else
        match read_string r with
        | Some (x, rest) => Some (String c x, rest)
        | None => None
        end
  end.

Fixpoint strip (p s : string) : option string :=
  match p with
  | EmptyString => Some s
  | String a p' =>
      match s with
      | EmptyString => None
      | String b s' => if Ascii.eqb a b then strip p' s' else None
      end
  end.

Fixpoint parse_value (fuel : nat) (s : string) : option (json * string) :=
  match fuel with
  | 0 => None
  | S fuel =>
      match s with
      | EmptyString => None
      | String c r =>
          if Ascii.eqb c dq then
            match read_string r with
            | Some (x, rest) => Some (JString x, rest)
            | None => None
            end
          else if Ascii.eqb c "[" then
            match r with
            | EmptyString => None
            | String c2 r2 =>
                if Ascii.eqb c2 "]" then Some (JArray [], r2)
                else
                  match parse_elems fuel r with
                  | Some (l, rest) => Some (JArray l, rest)
                  | None => None
                  end
            end
          else if Ascii.eqb c "{" then
            match r with
            | EmptyString => None
            | String c2 r2 =>
                if Ascii.eqb c2 "}" then Some (JObject [], r2)
                else
                  match parse_props fuel r with
                  | Some (ps, rest) => Some (JObject ps, rest)
                  | None => None
                  end
            end
          else
            match strip "null" s with
            | Some rest => Some (JNull, rest)
            | None =>
                match strip "true" s with
                | Some rest => Some (JBool true, rest)
                | None =>
                    match strip "false" s with
                    | Some rest => Some (JBool false, rest)
                    | None => None
                    end
                end
            end
      end
  end
with parse_elems (fuel : nat) (s : string) : option (list json * string) :=
  match fuel with
  | 0 => None
  | S fuel =>
      match parse_value fuel s with
      | Some (v, String c r) =>
          if Ascii.eqb c "," then
            match parse_elems fuel r with
            | Some (l, rest) => Some (v :: l, rest)
            | None => None
            end
          else if Ascii.eqb c "]" then Some ([v], r)
          else None
      | _ => None
      end
  end
with parse_props (fuel : nat) (s : string)
  : option (list (string * json) * string) :=
  match fuel with
  | 0 => None
  | S fuel =>
      match s with
      | EmptyString => None
      | String q r =>
          if Ascii.eqb q dq then
            match read_string r with
            | Some (k, String colon r1) =>
                if Ascii.eqb colon ":" then
                  match parse_value fuel r1 with
                  | Some (v, String c r2) =>
                      if Ascii.eqb c "," then
                        match parse_props fuel r2 with
                        | Some (ps, rest) => Some ((k, v) :: ps, rest)
                        | None => None
                        end
                      else if Ascii.eqb c "}" then Some ([(k, v)], r2)
                      else None
                  | _ => None
                  end
                else None
            | _ => None
            end
          else None
      end
  end.

Definition parse (s : string) : option json :=
  match parse_value (S (String.length s)) s with
  | Some (j, EmptyString) => Some j
  | _ => None
  end.

Definition write_prop (p : string * json) (k : string) : string :=
  quote p.1 (String ":" (write p.2 k)).

(** The fuel a value needs: one unit per node and per element. *)
Fixpoint weight (j : json) : nat :=
  match j with
  | JArray l => S (list_sum (map (fun e => S (weight e)) l))
  | JObject ps => S (list_sum (map (fun p => S (weight p.2)) ps))
  | _ => 1
  end.

(** What the round trip needs of one value: it parses back, with any
    text after it, and the fuel it asks for is within the length of its
    text. *)
Definition parses (j : json) : Prop :=
  forall fuel k, weight j <= fuel -> parse_value fuel (write j k) = Some (j, k).

Definition fits (j : json) : Prop :=
  forall k, weight j + String.length k <= String.length (write j k).

(** Induction on values whose hypotheses reach inside arrays and objects. *)
Section json_induction.
Variable P : json -> Prop.
Hypothesis Hnull : P JNull.
Hypothesis Hbool : forall b, P (JBool b).
Hypothesis Hstring : forall s, P (JString s).
Hypothesis Harray : forall l, Forall P l -> P (JArray l).
Hypothesis Hobject : forall ps, Forall (fun p => P p.2) ps -> P (JObject ps).

Fixpoint json_nested_ind (j : json) : P j :=
  match j with
  | JNull => Hnull
  | JBool b => Hbool b
  | JString s => Hstring s
  | JArray l =>
      Harray l
        ((fix all (l : list json) : Forall P l :=
            match l with
            | [] => @List.Forall_nil _ P
            | x :: r => @List.Forall_cons _ P x r (json_nested_ind x) (all r)
            end) l)
  | JObject ps =>
      Hobject ps
        ((fix all (ps : list (string * json)) : Forall (fun p => P p.2) ps :=
            match ps with
            | [] => @List.Forall_nil _ _
            | p :: r =>
                @List.Forall_cons _ (fun p => P p.2) p r
                  (json_nested_ind p.2) (all r)
            end) ps)
  end.
End json_induction.

Definition codec : JSON := {| JS.stringify := stringify; JS.parse := parse |}.

End MiniJSON.

(** ** What the properties observe *)

(** The policy None: neither flag is set. *)
Definition policy_None (options : CredentialOptions) : Prop :=
  default false (useBiometrics options) = false
  /\ default false (useDevicePasscode options) = false.

(** The default options, [{}]. *)
Definition no_options : CredentialOptions :=
  {| useBiometrics := None; useDevicePasscode := None; promptMessage := None |}.

Definition is_challenge (e : Event) : bool :=
  match e with
  | Challenge _ _ => true
  | _ => false
  end.

(** The number of interactive challenges put in front of the user. *)
Definition challenge_count (tr : list Event) : nat :=
  length (List.filter is_challenge tr).

(** The promise of [m] always resolves: no exception reaches the caller. *)
Definition resolves {A} (m : M A) : Prop :=
  forall w, exists a w', m w = (Normal a, w').

(** [m] ends in an exception when it is run in [w]. *)
Definition throws {A} (m : M A) (w : World) : Prop :=
  exists e w', m w = (Throw e, w').

(** [m] writes nothing to MMKV and touches no keychain service outside
    [P]. *)
Definition keeps {A} (P : string -> Prop) (m : M A) : Prop :=
  forall w r w', m w = (r, w') ->
    mmkv w' = mmkv w
    /\ (forall svc, ~ P svc -> keychain w' !! svc = keychain w !! svc).

(** [m] puts no challenge to the user. *)
Definition quiet {A} (m : M A) : Prop :=
  forall w r w', m w = (r, w') ->
    challenge_count (trace w') = challenge_count (trace w).

(** The services [authenticateWithLockscreen] seals its throwaway entry
    under. *)
Definition is_tempKey (svc : string) : Prop :=
  exists t, svc = "auth_check_" +:+ t.

Section Observations.

Context {J : JSON} (E : Env).

(** The index as [getItemsList] reads it from the store. *)
Definition read_index (stored : option string) : Completion json :=
  match stored with
  | Some s =>
      if truthy_string s then
        match parse s with
        | Some j => Normal j
        | None => Throw (SyntaxError "Unexpected token in JSON")
        end
      else Normal (JArray [])
  | None => Normal (JArray [])
  end.

(** What a save of [k] made in [w] leaves in [w']: the metadata object of
    the two clock readings, the sealed secret, one keychain call, and
    nothing else in MMKV but the index. *)
Record saved (k u p : string) (opts : CredentialOptions) (w w' : World)
  : Prop := {
  saved_metadata :
    mmkv w' !! ("metadata_" +:+ k)
    = Some (stringify
              (saveCredential_metadata k opts (Date_getTime E (ticks w))
                 (Date_getTime E (S (ticks w)))));
  saved_secret :
    keychain w'
    = <[SERVICE +:+ "." +:+ k :=
          {| item_username := u; item_password := p;
             item_accessControl :=
               accessControl (saveCredential_keychainOptions E k opts) |}]>
        (keychain w);
  saved_frame :
    forall key, key <> "metadata_" +:+ k -> key <> "itemsList" ->
      mmkv w' !! key = mmkv w !! key;
  saved_trace :
    trace w'
    = trace w ++ [KeychainSet u p (saveCredential_keychainOptions E k opts)];
  saved_ticks : ticks w' = S (S (S (ticks w)))
}.

(** The [createdAt] of the metadata stored for [k]. *)
Definition stored_createdAt (w : World) (k : string) : option json :=
  match mmkv w !! ("metadata_" +:+ k) with
  | Some s =>
      match parse s with
      | Some (JObject props) => assoc "createdAt" props
      | _ => None
      end
  | None => None
  end.

End Observations.

(** ** Concrete devices and stores *)

Module Scenario.

#[local] Existing Instance MiniJSON.codec.

(** A device on which no native call fails, the clock advances by one second
    per reading from 2023-11-14T22:13:20Z, and every challenge ends as
    [user] says. *)
Definition device (os : OS) (user : ChallengeOutcome) : Env :=
  {| Platform_OS := os;
     Date_getTime := fun n => (1700000000000 + 1000 * Z.of_nat n)%Z;
     native_fault := fun _ => None;
     challenge := fun _ => user;
     supportedBiometry := fun _ => inr (Some FACE_ID) |}.

Definition cooperative : Env := device ios Authenticated.

Definition canceling : Env :=
  device ios (Rejected "User canceled the operation.").

Definition fresh : World :=
  {| mmkv := ∅; keychain := ∅; ticks := 0; trace := [] |}.

Definition policy (biometrics passcode : bool) : CredentialOptions :=
  {| useBiometrics := Some biometrics; useDevicePasscode := Some passcode;
     promptMessage := None |}.

Definition after {A} (m : M A) (w : World) : World := snd (m w).

(** One record, [a], saved under the policy None. *)
Definition with_a : World :=
  after (saveCredential cooperative "a" "alice" "pw1" (policy false false))
    fresh.

(** Then [b] behind biometrics, then [c] behind the device passcode. *)
Definition with_ab : World :=
  after (saveCredential cooperative "b" "bob" "pw2" (policy true false))
    with_a.

Definition with_abc : World :=
  after (saveCredential cooperative "c" "carol" "pw3" (policy false true))
    with_ab.

(** A caller of get that asks for the prompt. *)
Definition ask_biometrics : CredentialOptions :=
  {| useBiometrics := Some true; useDevicePasscode := None;
     promptMessage := None |}.

Definition default_auth : Lockscreen.AuthOptions :=
  {| Lockscreen.promptMessage := None;
     Lockscreen.cancelButtonText := None;
     Lockscreen.fallbackToPasscode := None |}.

End Scenario.

(** ** The capability probes of the two services *)

(** A device that also answers [Keychain.canImplyAuthentication], the
    query the probes make on iOS. *)
Record Device : Type := {
  env :> Env;
  canImplyAuthentication : nat -> Error + bool
}.

Module Storage.

(** What [checkBiometricAvailability] resolves to. *)
Record BiometricAvailability : Type := {
  available : bool;
  biometryType : option BIOMETRY_TYPE;
  displayName : string
}.

End Storage.

Section Probes.

Context (D : Device).

Definition Keychain_canImplyAuthentication : M bool :=
  fun w =>
    match canImplyAuthentication D (ticks w) with
    | inl e => (Throw e, tick w)
    | inr b => (Normal b, tick w)
    end.

(** [console.log] leaves no trace in the model. *)
Definition console_log (label : string) (e : Error) : M unit := ret tt.

(** [StorageService._getBiometryDisplayName]. *)
Definition StorageService_getBiometryDisplayName
    (biometryType : option BIOMETRY_TYPE) : string :=
  match biometryType with
  | None => "Not Available"
  | Some t =>
      match Platform_OS D with
      | ios =>
          match t with
          | FACE_ID => "Face ID"
          | TOUCH_ID => "Touch ID"
          | OPTIC_ID => "Optic ID"
          | _ => "Biometrics"
          end
      | android => "Fingerprint / Biometrics"
      end
  end.

Definition checkBiometricAvailability : M Storage.BiometricAvailability :=
  try_catch
    (let* biometryType := Keychain_getSupportedBiometryType D in
     ret {| Storage.available := bool_decide (is_Some biometryType);
            Storage.biometryType := biometryType;
            Storage.displayName :=
              StorageService_getBiometryDisplayName biometryType |})
    (fun error =>
       console_error "Error checking biometric availability:" error;;
       ret {| Storage.available := false;
              Storage.biometryType := None;
              Storage.displayName := "Not Available" |}).

Definition checkDevicePasscodeAvailability : M bool :=
  try_catch
    (match Platform_OS D with
     | ios => Keychain_canImplyAuthentication
     | android =>
         let* biometryType := Keychain_getSupportedBiometryType D in
         if bool_decide (is_Some biometryType) then ret true
         else
           try_catch
             (let* now := Date_now D in
              let testKey := "test_passcode_" +:+ pretty now in
              Keychain_setGenericPassword D "test" "test"
                {| service := testKey;
                   accessControl := Some DEVICE_PASSCODE;
                   securityLevel := Some SECURE_HARDWARE;
                   accessible := None;
                   authenticationPrompt := None;
                   authenticationType := None |};;
              Keychain_resetGenericPassword D testKey;;
              ret true)
             (fun e =>
                console_log "Device passcode not available:" e;;
                ret false)
     end)
    (fun error =>
       console_error "Error checking device passcode:" error;; ret false).

(** [LockscreenUtils._hasDeviceCredentialStore]. *)
Definition _hasDeviceCredentialStore : M bool :=
  match Platform_OS D with
  | android =>
      try_catch
        (let* now := Date_now D in
         let tempKey := "credential_check_" +:+ pretty now in
         Keychain_setGenericPassword D "user" "check"
           {| service := tempKey;
              accessControl := Some DEVICE_PASSCODE;
              securityLevel := Some SECURE_HARDWARE;
              accessible := None;
              authenticationPrompt := None;
              authenticationType := Some DEVICE_PASSCODE_OR_BIOMETRICS |};;
         Keychain_resetGenericPassword D tempKey;;
         ret true)
        (fun error =>
           if truthy_string (message error)
              && includes (message error) "No fingerprint enrolled"
           then ret true
           else ret false)
  | ios => ret false
  end.

Definition isLockscreenEnabled : M bool :=
  try_catch
    (match Platform_OS D with
     | ios => Keychain_canImplyAuthentication
     | android =>
         let* biometryType := Keychain_getSupportedBiometryType D in
         if bool_decide (is_Some biometryType) then ret true
         else _hasDeviceCredentialStore
     end)
    (fun error =>
       console_error "Error checking lockscreen status:" error;; ret false).

End Probes.

(** ** Screens: component state over the vault *)

(** A handler of a screen runs over the state [S] of its component and the
    world of the vault. *)
Definition UI (S A : Type) : Type := S -> World -> Completion A * S * World.

Definition ui_ret {S A} (a : A) : UI S A := fun s w => (Normal a, s, w).

Definition ui_bind {S A B} (m : UI S A) (k : A -> UI S B) : UI S B :=
  fun s w =>
    match m s w with
    | (Normal a, s', w') => k a s' w'
    | (Throw e, s', w') => (Throw e, s', w')
    end.

Definition ui_try_catch {S A} (body : UI S A) (handler : Error -> UI S A)
  : UI S A :=
  fun s w =>
    match body s w with
    | (Normal a, s', w') => (Normal a, s', w')
    | (Throw e, s', w') => handler e s' w'
    end.

(** [try { body } finally { finalizer }], for a finalizer that does not
    throw. *)
Definition ui_finally {S A} (body : UI S A) (finalizer : UI S unit) : UI S A :=
  fun s w =>
    match body s w with
    | (r, s', w') =>
        match finalizer s' w' with
        | (_, s'', w'') => (r, s'', w'')
        end
    end.

(** A call into the services. *)
Definition call {S A} (m : M A) : UI S A :=
  fun s w =>
    match m w with
    | (r, w') => (r, s, w')
    end.

(** A state setter of the component. *)
Definition set_state {S} (f : S -> S) : UI S unit :=
  fun s w => (Normal tt, f s, w).

Declare Scope ui_scope.
Delimit Scope ui_scope with ui.
Bind Scope ui_scope with UI.
Notation "'let*' x ':=' m 'in' k" := (ui_bind m (fun x => k))
  (at level 10, x name, m at level 100, k at level 200) : ui_scope.
Notation "m ';;' k" := (ui_bind m (fun _ => k))
  (at level 100, k at level 200, right associativity) : ui_scope.

Module Settings.

(** The state of SettingsScreen, with the MMKV instance
    ['app-security-storage'] it shares with the application root. *)
Record State : Type := {
  securityStorage : gmap string bool;
  appSecurityEnabled : bool;
  authenticating : bool;
  lockscreenEnabled : bool
}.

(** The buttons of the warning shown when the device has no lock screen. *)
Inductive WarningChoice : Type := Dismiss | EnableAnyway.

End Settings.

Module Home.

(** The state of HomeScreen. *)
Record State : Type := {
  items : json;
  loading : bool;
  refreshing : bool;
  itemKey : string;
  username : string;
  password : string;
  useBiometrics : bool;
  useDevicePasscode : bool;
  expandSecurityOptions : bool
}.

(** The buttons of the dialog shown when the name is already in the
    index. *)
Inductive ExistsChoice : Type := Cancel | Update.

End Home.

Module Detail.

(** The state of CredentialDetailScreen; [credential] is what
    [getCredential] resolved to, or null. *)
Record State : Type := {
  loading : bool;
  credential : option Credential;
  showPassword : bool;
  biometricsAvailable : bool;
  passcodeAvailable : bool;
  useBiometrics : bool;
  useDevicePasscode : bool;
  biometryType : string
}.

(** The two switches of the screen: the first argument their handlers pass
    to [toggleSecurityOption]. *)
Inductive SecurityOption : Type := biometrics | passcode.

End Detail.

Module Auth.

(** The state of LockscreenAuthScreen, with the MMKV instance
    ['app-security-storage'] it reads and the route the navigator shows:
    the screen is mounted at [Auth], and [navigation.replace] changes the
    route. *)
Record State : Type := {
  loading : bool;
  biometricInfo : Lockscreen.BiometricInfo;
  lockscreenEnabled : bool;
  appLocked : bool;
  authenticating : bool;
  authAttempts : nat;
  securityStorage : gmap string bool;
  route : string
}.

End Auth.

(** [String.prototype.trim] belongs to the engine: the screens take it as
    an interface, and what is proved of them holds for every [trim]. *)
Class StringTrim : Type := {
  trim : string -> string
}.

(** A [trim] for the concrete forms below, whose strings hold one code
    point from 0 to 255 per character: of the white space and line
    terminators of ECMAScript these are 9 to 13, 32 and 160. *)
Definition is_space (c : Ascii.ascii) : bool :=
  let n := Ascii.nat_of_ascii c in
  Nat.eqb n 32 || Nat.eqb n 160 || (Nat.leb 9 n && Nat.leb n 13).

Fixpoint trimStart (s : string) : string :=
  match s with
  | EmptyString => EmptyString
  | String c rest => if is_space c then trimStart rest else s
  end.

Fixpoint trimEnd (s : string) : string :=
  match s with
  | EmptyString => EmptyString
  | String c rest =>
      match trimEnd rest with
      | EmptyString => if is_space c then EmptyString else String c EmptyString
      | rest' => String c rest'
      end
  end.

Definition latin1_trim : StringTrim :=
  {| trim := fun s => trimEnd (trimStart s) |}.

Section Screens.

Context {J : JSON} {T : StringTrim} (E : Env).

Local Open Scope ui_scope.

Definition get_state {S} : UI S S := fun s w => (Normal s, s, w).

(** *** App: the initial route *)

(** [securityStorage.getBoolean('appSecurityEnabled')], made a boolean by
    [!!]: a flag never stored reads as [false]. *)
Definition initialRouteName (securityStorage : gmap string bool) : string :=
  if default false (securityStorage !! "appSecurityEnabled") then "Auth"
  else "Home".

(** *** SettingsScreen: the app security switch *)

Definition saveSecuritySetting (value : bool) : UI Settings.State unit :=
  set_state
    (fun s =>
       {| Settings.securityStorage :=
            <["appSecurityEnabled" := value]> (Settings.securityStorage s);
          Settings.appSecurityEnabled := value;
          Settings.authenticating := Settings.authenticating s;
          Settings.lockscreenEnabled := Settings.lockscreenEnabled s |});;
  if value then
    call
      (Alert_alert "Security Enabled"
         "App security has been enabled. You will need to authenticate each time you open the app.")
  else
    call
      (Alert_alert "Security Disabled"
         "App security has been disabled. Anyone with access to your device can open the app without authentication.").

Definition setAuthenticating (b : bool) : UI Settings.State unit :=
  set_state
    (fun s =>
       {| Settings.securityStorage := Settings.securityStorage s;
          Settings.appSecurityEnabled := Settings.appSecurityEnabled s;
          Settings.authenticating := b;
          Settings.lockscreenEnabled := Settings.lockscreenEnabled s |}).

Definition authenticateAndToggle (newValue : bool) : UI Settings.State unit :=
  setAuthenticating true;;
  ui_finally
    (ui_try_catch
       (let* success :=
          call
            (authenticateWithLockscreen E
               {| Lockscreen.promptMessage :=
                    Some (if newValue
                          then "Authenticate to enable app security"
                          else "Authenticate to disable app security");
                  Lockscreen.cancelButtonText := None;
                  Lockscreen.fallbackToPasscode := Some true |}) in
        if success then saveSecuritySetting newValue else ui_ret tt)
       (fun error =>
          call (console_error "Authentication error:" error);;
          call
            (Alert_alert "Error"
               "Authentication failed. Settings not changed.")))
    (setAuthenticating false).

(** The switch is flipped to [value]; [choice] is the button pressed if the
    warning about a missing lock screen comes up. *)
Definition toggleAppSecurity (value : bool) (choice : Settings.WarningChoice)
  : UI Settings.State unit :=
  let* s := get_state in
  if value && negb (Settings.lockscreenEnabled s) then
    call
      (Alert_alert "Security Warning"
         "Your device does not have a lockscreen security method (PIN, pattern, or biometrics) set up. This significantly reduces the security of your stored credentials. Would you like to enable app security anyway?");;
    match choice with
    | Settings.Dismiss => ui_ret tt
    | Settings.EnableAnyway => saveSecuritySetting value
    end
  else if value then authenticateAndToggle value
  else authenticateAndToggle value.

(** *** HomeScreen: the form *)

(** The two switches of the form. *)
Definition onUseBiometricsChange (value : bool) (s : Home.State) : Home.State :=
  {| Home.items := Home.items s;
     Home.loading := Home.loading s;
     Home.refreshing := Home.refreshing s;
     Home.itemKey := Home.itemKey s;
     Home.username := Home.username s;
     Home.password := Home.password s;
     Home.useBiometrics := value;
     Home.useDevicePasscode :=
       if value then false else Home.useDevicePasscode s;
     Home.expandSecurityOptions := Home.expandSecurityOptions s |}.

Definition onUseDevicePasscodeChange (value : bool) (s : Home.State)
  : Home.State :=
  {| Home.items := Home.items s;
     Home.loading := Home.loading s;
     Home.refreshing := Home.refreshing s;
     Home.itemKey := Home.itemKey s;
     Home.username := Home.username s;
     Home.password := Home.password s;
     Home.useBiometrics := if value then false else Home.useBiometrics s;
     Home.useDevicePasscode := value;
     Home.expandSecurityOptions := Home.expandSecurityOptions s |}.

Definition Home_setLoading (b : bool) : UI Home.State unit :=
  set_state
    (fun s =>
       {| Home.items := Home.items s;
          Home.loading := b;
          Home.refreshing := Home.refreshing s;
          Home.itemKey := Home.itemKey s;
          Home.username := Home.username s;
          Home.password := Home.password s;
          Home.useBiometrics := Home.useBiometrics s;
          Home.useDevicePasscode := Home.useDevicePasscode s;
          Home.expandSecurityOptions := Home.expandSecurityOptions s |}).

Definition setRefreshing (b : bool) : UI Home.State unit :=
  set_state
    (fun s =>
       {| Home.items := Home.items s;
          Home.loading := Home.loading s;
          Home.refreshing := b;
          Home.itemKey := Home.itemKey s;
          Home.username := Home.username s;
          Home.password := Home.password s;
          Home.useBiometrics := Home.useBiometrics s;
          Home.useDevicePasscode := Home.useDevicePasscode s;
          Home.expandSecurityOptions := Home.expandSecurityOptions s |}).

Definition setItems (itemsList : json) : UI Home.State unit :=
  set_state
    (fun s =>
       {| Home.items := itemsList;
          Home.loading := Home.loading s;
          Home.refreshing := Home.refreshing s;
          Home.itemKey := Home.itemKey s;
          Home.username := Home.username s;
          Home.password := Home.password s;
          Home.useBiometrics := Home.useBiometrics s;
          Home.useDevicePasscode := Home.useDevicePasscode s;
          Home.expandSecurityOptions := Home.expandSecurityOptions s |}).

Definition clearForm : UI Home.State unit :=
  set_state
    (fun s =>
       {| Home.items := Home.items s;
          Home.loading := Home.loading s;
          Home.refreshing := Home.refreshing s;
          Home.itemKey := EmptyString;
          Home.username := EmptyString;
          Home.password := EmptyString;
          Home.useBiometrics := false;
          Home.useDevicePasscode := false;
          Home.expandSecurityOptions := false |}).

Definition loadItems : UI Home.State unit :=
  ui_finally
    (ui_try_catch
       (Home_setLoading true;;
        let* itemsList := call getItemsList in
        setItems itemsList)
       (fun error =>
          call (console_error "Error loading items:" error);;
          call (Alert_alert "Error" "Failed to load saved credentials")))
    (Home_setLoading false;; setRefreshing false).

Definition validateInput : UI Home.State bool :=
  let* s := get_state in
  if negb (truthy_string (trim (Home.itemKey s))) then
    call (Alert_alert "Error" "Please enter a name for this credential");;
    ui_ret false
  else if negb (truthy_string (trim (Home.username s))) then
    call (Alert_alert "Error" "Please enter a username");;
    ui_ret false
  else if negb (truthy_string (trim (Home.password s))) then
    call (Alert_alert "Error" "Please enter a password or value");;
    ui_ret false
  else ui_ret true.

(** The Save button; [choice] is the button pressed if the dialog about an
    existing name comes up.  The buttons of the dialog run after the [try]
    block has returned. *)
Definition handleSave (choice : Home.ExistsChoice) : UI Home.State unit :=
  let* form := get_state in
  let options :=
    {| useBiometrics := Some (Home.useBiometrics form);
       useDevicePasscode := Some (Home.useDevicePasscode form);
       promptMessage := None |} in
  let* valid := validateInput in
  if negb valid then ui_ret tt
  else
    let* dialog :=
      ui_try_catch
        (Home_setLoading true;;
         let* itemsList := call getItemsList in
         let* exists_ :=
           match itemsList with
           | JArray l =>
               ui_ret (existsb (strict_eq (JString (Home.itemKey form))) l)
           | JString s => ui_ret (includes s (Home.itemKey form))
           | _ =>
               call (throw (TypeError "itemsList.includes is not a function"))
           end in
         if exists_ then
           call
             (Alert_alert "Credential Exists"
                "A credential with this name already exists. Do you want to update it?");;
           ui_ret true
         else
           let* success :=
             call
               (saveCredential E (Home.itemKey form) (Home.username form)
                  (Home.password form) options) in
           Home_setLoading false;;
           (if success then
              call (Alert_alert "Success" "Credential saved successfully");;
              clearForm;;
              loadItems
            else call (Alert_alert "Error" "Failed to save credential"));;
           ui_ret false)
        (fun error =>
           Home_setLoading false;;
           call (console_error "Error saving credential:" error);;
           call (Alert_alert "Error" "Failed to save credential");;
           ui_ret false) in
    if dialog then
      match choice with
      | Home.Cancel => Home_setLoading false
      | Home.Update =>
          let* success :=
            call
              (updateCredential E (Home.itemKey form) (Home.username form)
                 (Home.password form) options) in
          Home_setLoading false;;
          if success then
            call (Alert_alert "Success" "Credential updated successfully");;
            clearForm;;
            loadItems
          else call (Alert_alert "Error" "Failed to update credential")
      end
    else ui_ret tt.

(** *** CredentialDetailScreen: the setters of its state *)

Definition setUseBiometrics (b : bool) : UI Detail.State unit :=
  set_state
    (fun s =>
       {| Detail.loading := Detail.loading s;
          Detail.credential := Detail.credential s;
          Detail.showPassword := Detail.showPassword s;
          Detail.biometricsAvailable := Detail.biometricsAvailable s;
          Detail.passcodeAvailable := Detail.passcodeAvailable s;
          Detail.useBiometrics := b;
          Detail.useDevicePasscode := Detail.useDevicePasscode s;
          Detail.biometryType := Detail.biometryType s |}).

Definition setUseDevicePasscode (b : bool) : UI Detail.State unit :=
  set_state
    (fun s =>
       {| Detail.loading := Detail.loading s;
          Detail.credential := Detail.credential s;
          Detail.showPassword := Detail.showPassword s;
          Detail.biometricsAvailable := Detail.biometricsAvailable s;
          Detail.passcodeAvailable := Detail.passcodeAvailable s;
          Detail.useBiometrics := Detail.useBiometrics s;
          Detail.useDevicePasscode := b;
          Detail.biometryType := Detail.biometryType s |}).

Definition Detail_setLoading (b : bool) : UI Detail.State unit :=
  set_state
    (fun s =>
       {| Detail.loading := b;
          Detail.credential := Detail.credential s;
          Detail.showPassword := Detail.showPassword s;
          Detail.biometricsAvailable := Detail.biometricsAvailable s;
          Detail.passcodeAvailable := Detail.passcodeAvailable s;
          Detail.useBiometrics := Detail.useBiometrics s;
          Detail.useDevicePasscode := Detail.useDevicePasscode s;
          Detail.biometryType := Detail.biometryType s |}).

Definition setCredential (c : option Credential) : UI Detail.State unit :=
  set_state
    (fun s =>
       {| Detail.loading := Detail.loading s;
          Detail.credential := c;
          Detail.showPassword := Detail.showPassword s;
          Detail.biometricsAvailable := Detail.biometricsAvailable s;
          Detail.passcodeAvailable := Detail.passcodeAvailable s;
          Detail.useBiometrics := Detail.useBiometrics s;
          Detail.useDevicePasscode := Detail.useDevicePasscode s;
          Detail.biometryType := Detail.biometryType s |}).

Definition setShowPassword (b : bool) : UI Detail.State unit :=
  set_state
    (fun s =>
       {| Detail.loading := Detail.loading s;
          Detail.credential := Detail.credential s;
          Detail.showPassword := b;
          Detail.biometricsAvailable := Detail.biometricsAvailable s;
          Detail.passcodeAvailable := Detail.passcodeAvailable s;
          Detail.useBiometrics := Detail.useBiometrics s;
          Detail.useDevicePasscode := Detail.useDevicePasscode s;
          Detail.biometryType := Detail.biometryType s |}).

(** *** CredentialDetailScreen: loading the record *)

(** The item key in double quotes, as the prompts show it. *)
Definition quoted (itemKey : string) : string :=
  String "034"%char itemKey +:+ String "034"%char EmptyString.

(** One run of [loadWithAuthentication].  [getCredential] reads
    [useBiometrics] and [promptMessage] of the options it is given and
    nothing else, so the two fields added on Android are not passed on.
    The buttons of the dialog shown on Android start a later run or leave
    the screen. *)
Definition loadWithAuthentication (itemKey : string) : UI Detail.State unit :=
  let* rendered := get_state in
  Detail_setLoading true;;
  ui_finally
    (ui_try_catch
       (let* metadataStr :=
          call (storage_getString ("metadata_" +:+ itemKey)) in
        let* requires :=
          match metadataStr with
          | Some str =>
              if truthy_string str then
                let* metadata := call (JSON_parse str) in
                let* metadata_useBiometrics :=
                  call (lift (get_prop metadata "useBiometrics")) in
                let* metadata_useDevicePasscode :=
                  call (lift (get_prop metadata "useDevicePasscode")) in
                ui_ret (truthy_opt metadata_useBiometrics,
                        truthy_opt metadata_useDevicePasscode)
              else ui_ret (false, false)
          | None => ui_ret (false, false)
          end in
        let '(requiresBiometrics, requiresPasscode) := requires in
        let promptMessage :=
          if is_android E then
            "Verify your identity to access " +:+ quoted itemKey
          else if requiresBiometrics
                  && truthy_string (Detail.biometryType rendered) then
            "Use " +:+ Detail.biometryType rendered +:+ " to access "
            +:+ quoted itemKey
          else if requiresPasscode then
            "Enter your device passcode to access " +:+ quoted itemKey
          else "Authenticate to access " +:+ quoted itemKey +:+ " details" in
        let authOptions :=
          {| useBiometrics := Some true;
             useDevicePasscode := None;
             promptMessage := Some promptMessage |} in
        let* cred := call (getCredential E itemKey authOptions) in
        match cred with
        | Some c => setCredential (Some c);; setShowPassword true
        | None =>
            if is_android E then
              call
                (Alert_alert "Authentication Required"
                   "You need to verify your identity to access this credential.")
            else
              call
                (Alert_alert "Error"
                   "Authentication failed or credential not found")
        end)
       (fun error =>
          call (console_error "Error with authenticated access:" error);;
          call (Alert_alert "Error" "Authentication failed")))
    (Detail_setLoading false).

Definition loadCredential (itemKey : string) : UI Detail.State unit :=
  Detail_setLoading true;;
  ui_finally
    (ui_try_catch
       (let* metadataStr :=
          call (storage_getString ("metadata_" +:+ itemKey)) in
        let* metadata :=
          match metadataStr with
          | Some str =>
              if truthy_string str then
                let* metadata := call (JSON_parse str) in
                let* metadata_useBiometrics :=
                  call (lift (get_prop metadata "useBiometrics")) in
                setUseBiometrics (truthy_opt metadata_useBiometrics);;
                let* metadata_useDevicePasscode :=
                  call (lift (get_prop metadata "useDevicePasscode")) in
                setUseDevicePasscode (truthy_opt metadata_useDevicePasscode);;
                ui_ret metadata
              else ui_ret (JObject [])
          | None => ui_ret (JObject [])
          end in
        let* metadata_useBiometrics :=
          call (lift (get_prop metadata "useBiometrics")) in
        let* metadata_useDevicePasscode :=
          call (lift (get_prop metadata "useDevicePasscode")) in
        let requiresAuth :=
          truthy_opt metadata_useBiometrics
          || truthy_opt metadata_useDevicePasscode in
        if is_android E && requiresAuth then loadWithAuthentication itemKey
        else
          let* cred := call (getCredential E itemKey no_options) in
          setCredential cred;;
          if negb (bool_decide (is_Some cred)) && requiresAuth
          then loadWithAuthentication itemKey
          else ui_ret tt)
       (fun error =>
          call (console_error "Error loading credential:" error);;
          if truthy_string (message error)
             && (includes (message error) "authentication required"
                 || includes (message error) "user not authenticated")
          then loadWithAuthentication itemKey
          else call (Alert_alert "Error" "Failed to load credential details")))
    (Detail_setLoading false).

(** *** CredentialDetailScreen: the two switches *)

(** A switch of the record [itemKey] is flipped to [value].  The handler
    reads [useBiometrics], [useDevicePasscode] and [credential] as they
    were when the screen was rendered: the setters it calls do not change
    what it reads. *)
Definition toggleSecurityOption (itemKey : string)
    (option : Detail.SecurityOption) (value : bool) : UI Detail.State unit :=
  let* rendered := get_state in
  let options :=
    {| useBiometrics :=
         Some match option with
              | Detail.biometrics => value
              | Detail.passcode => Detail.useBiometrics rendered
              end;
       useDevicePasscode :=
         Some match option with
              | Detail.passcode => value
              | Detail.biometrics => Detail.useDevicePasscode rendered
              end;
       promptMessage := None |} in
  match option with
  | Detail.biometrics =>
      setUseBiometrics value;;
      if value && Detail.useDevicePasscode rendered
      then setUseDevicePasscode false else ui_ret tt
  | Detail.passcode =>
      setUseDevicePasscode value;;
      if value && Detail.useBiometrics rendered
      then setUseBiometrics false else ui_ret tt
  end;;
  match Detail.credential rendered with
  | Some credential =>
      let* success :=
        call
          (updateCredential E itemKey (username_of credential)
             (password_of credential) options) in
      (if negb success then
         match option with
         | Detail.biometrics => setUseBiometrics (negb value)
         | Detail.passcode => setUseDevicePasscode (negb value)
         end;;
         call (Alert_alert "Error" "Failed to update security options")
       else ui_ret tt);;
      let* metadataStr := call (storage_getString ("metadata_" +:+ itemKey)) in
      match metadataStr with
      | Some str =>
          if truthy_string str then
            let* metadata := call (JSON_parse str) in
            let* metadata :=
              call
                (lift
                   (set_prop metadata "useBiometrics"
                      (JBool match option with
                             | Detail.biometrics => value
                             | Detail.passcode => Detail.useBiometrics rendered
                             end))) in
            let* metadata :=
              call
                (lift
                   (set_prop metadata "useDevicePasscode"
                      (JBool match option with
                             | Detail.passcode => value
                             | Detail.biometrics =>
                                 Detail.useDevicePasscode rendered
                             end))) in
            call (storage_set ("metadata_" +:+ itemKey) (stringify metadata))
          else ui_ret tt
      | None => ui_ret tt
      end
  | None => ui_ret tt
  end.

End Screens.

(** ** LockscreenAuthScreen: the lock of the application *)

Definition Auth_setLoading (b : bool) : UI Auth.State unit :=
  set_state
    (fun s =>
       {| Auth.loading := b;
          Auth.biometricInfo := Auth.biometricInfo s;
          Auth.lockscreenEnabled := Auth.lockscreenEnabled s;
          Auth.appLocked := Auth.appLocked s;
          Auth.authenticating := Auth.authenticating s;
          Auth.authAttempts := Auth.authAttempts s;
          Auth.securityStorage := Auth.securityStorage s;
          Auth.route := Auth.route s |}).

Definition setBiometricInfo (info : Lockscreen.BiometricInfo) : UI Auth.State unit :=
  set_state
    (fun s =>
       {| Auth.loading := Auth.loading s;
          Auth.biometricInfo := info;
          Auth.lockscreenEnabled := Auth.lockscreenEnabled s;
          Auth.appLocked := Auth.appLocked s;
          Auth.authenticating := Auth.authenticating s;
          Auth.authAttempts := Auth.authAttempts s;
          Auth.securityStorage := Auth.securityStorage s;
          Auth.route := Auth.route s |}).

Definition Auth_setLockscreenEnabled (b : bool) : UI Auth.State unit :=
  set_state
    (fun s =>
       {| Auth.loading := Auth.loading s;
          Auth.biometricInfo := Auth.biometricInfo s;
          Auth.lockscreenEnabled := b;
          Auth.appLocked := Auth.appLocked s;
          Auth.authenticating := Auth.authenticating s;
          Auth.authAttempts := Auth.authAttempts s;
          Auth.securityStorage := Auth.securityStorage s;
          Auth.route := Auth.route s |}).

Definition setAppLocked (b : bool) : UI Auth.State unit :=
  set_state
    (fun s =>
       {| Auth.loading := Auth.loading s;
          Auth.biometricInfo := Auth.biometricInfo s;
          Auth.lockscreenEnabled := Auth.lockscreenEnabled s;
          Auth.appLocked := b;
          Auth.authenticating := Auth.authenticating s;
          Auth.authAttempts := Auth.authAttempts s;
          Auth.securityStorage := Auth.securityStorage s;
          Auth.route := Auth.route s |}).

Definition Auth_setAuthenticating (b : bool) : UI Auth.State unit :=
  set_state
    (fun s =>
       {| Auth.loading := Auth.loading s;
          Auth.biometricInfo := Auth.biometricInfo s;
          Auth.lockscreenEnabled := Auth.lockscreenEnabled s;
          Auth.appLocked := Auth.appLocked s;
          Auth.authenticating := b;
          Auth.authAttempts := Auth.authAttempts s;
          Auth.securityStorage := Auth.securityStorage s;
          Auth.route := Auth.route s |}).

Definition setAuthAttempts (f : nat -> nat) : UI Auth.State unit :=
  set_state
    (fun s =>
       {| Auth.loading := Auth.loading s;
          Auth.biometricInfo := Auth.biometricInfo s;
          Auth.lockscreenEnabled := Auth.lockscreenEnabled s;
          Auth.appLocked := Auth.appLocked s;
          Auth.authenticating := Auth.authenticating s;
          Auth.authAttempts := f (Auth.authAttempts s);
          Auth.securityStorage := Auth.securityStorage s;
          Auth.route := Auth.route s |}).

Definition navigation_replace (name : string) : UI Auth.State unit :=
  set_state
    (fun s =>
       {| Auth.loading := Auth.loading s;
          Auth.biometricInfo := Auth.biometricInfo s;
          Auth.lockscreenEnabled := Auth.lockscreenEnabled s;
          Auth.appLocked := Auth.appLocked s;
          Auth.authenticating := Auth.authenticating s;
          Auth.authAttempts := Auth.authAttempts s;
          Auth.securityStorage := Auth.securityStorage s;
          Auth.route := name |}).

Section AuthScreen.

Context (D : Device).

Local Open Scope ui_scope.

Definition proceedToApp : UI Auth.State unit := navigation_replace "Home".

(** One run of [authenticateUser].  It reads [authenticating] and
    [authAttempts] as they were when the screen was rendered.  The buttons
    of the dialog shown on Android start a later run or leave the
    application. *)
Definition authenticateUser : UI Auth.State unit :=
  let* rendered := get_state (S := Auth.State) in
  if Auth.authenticating rendered then ui_ret tt
  else
    Auth_setAuthenticating true;;
    setAuthAttempts (fun prevAttempts => prevAttempts + 1);;
    ui_try_catch
      (let androidMessage :=
         if is_android D
         then "Please verify your identity using your screen lock"
         else "Authenticate to access your credentials" in
       let* success :=
         call
           (authenticateWithLockscreen D
              {| Lockscreen.promptMessage := Some androidMessage;
                 Lockscreen.cancelButtonText := None;
                 Lockscreen.fallbackToPasscode := Some true |}) in
       if success then setAppLocked false;; proceedToApp
       else
         Auth_setAuthenticating false;;
         if is_android D then
           call
             (Alert_alert "Authentication Required"
                "You need to verify your identity to access your credentials.")
         else
           call
             (Alert_alert "Authentication Failed"
                "Please try again to access your credentials."))
      (fun error =>
         call (console_error "Authentication error:" error);;
         Auth_setAuthenticating false;;
         if Nat.leb 3 (Auth.authAttempts rendered) then
           call
             (Alert_alert "Authentication Problems"
                "There seem to be issues with device authentication. Please make sure your device has screen lock properly set up in system settings.")
         else
           call
             (Alert_alert "Authentication Error"
                "There was a problem with authentication. Please try again.")).

(** The effect run when the screen is mounted; [proceed] tells whether the
    user presses [Proceed Anyway] if the warning about a missing lock
    screen comes up.  [authenticateUser] is started and not awaited: it
    does not touch [loading], and [setLoading(false)] touches nothing
    else, so the two are run one after the other. *)
Definition checkAppSecurity (proceed : bool) : UI Auth.State unit :=
  Auth_setLoading true;;
  let* s := get_state (S := Auth.State) in
  let appSecurityEnabled :=
    default false (Auth.securityStorage s !! "appSecurityEnabled") in
  if negb appSecurityEnabled then
    setAppLocked false;;
    Auth_setLoading false;;
    navigation_replace "Home"
  else
    let* bioInfo := call (getBiometricInfo D) in
    setBiometricInfo bioInfo;;
    let* lockEnabled := call (isLockscreenEnabled D) in
    Auth_setLockscreenEnabled lockEnabled;;
    (if negb lockEnabled then
       call
         (Alert_alert "Security Warning"
            "Your device does not have a lockscreen security method set up. This significantly reduces the security of your stored credentials.");;
       if proceed then proceedToApp else ui_ret tt
     else authenticateUser);;
    Auth_setLoading false.

End AuthScreen.

(** ** What the properties of the probes and the screens observe *)

(** The services the two lock-screen probes seal their throwaway entries
    under. *)
Definition is_probeKey (svc : string) : Prop :=
  exists t, svc = "credential_check_" +:+ t \/ svc = "test_passcode_" +:+ t.

(** The options the form of HomeScreen hands to the services. *)
Definition form_options (s : Home.State) : CredentialOptions :=
  {| useBiometrics := Some (Home.useBiometrics s);
     useDevicePasscode := Some (Home.useDevicePasscode s);
     promptMessage := None |}.

(** The options a switch of CredentialDetailScreen hands to
    [updateCredential]: the flag of the switch is the new value, the other
    flag is the one the screen was rendered with. *)
Definition switch_options (option : Detail.SecurityOption) (value : bool)
    (s : Detail.State) : CredentialOptions :=
  {| useBiometrics :=
       Some match option with
            | Detail.biometrics => value
            | Detail.passcode => Detail.useBiometrics s
            end;
     useDevicePasscode :=
       Some match option with
            | Detail.passcode => value
            | Detail.biometrics => Detail.useDevicePasscode s
            end;
     promptMessage := None |}.

(** CredentialDetailScreen holds the credential of [u] and [p]. *)
Definition shows (s : Detail.State) (u p : string) : Prop :=
  exists c,
    Detail.credential s = Some c /\ username_of c = u /\ password_of c = p.

(** The options [authenticateUser] of LockscreenAuthScreen authenticates
    with. *)
Definition unlock_options (E : Env) : Lockscreen.AuthOptions :=
  {| Lockscreen.promptMessage :=
       Some (if is_android E
             then "Please verify your identity using your screen lock"
             else "Authenticate to access your credentials");
     Lockscreen.cancelButtonText := None;
     Lockscreen.fallbackToPasscode := Some true |}.

(** The flag of the app lock as LockscreenAuthScreen reads it. *)
Definition app_lock_on (s : Auth.State) : bool :=
  default false (Auth.securityStorage s !! "appSecurityEnabled").

(** The form passes [validateInput]: [trim] leaves something of every
    field. *)
Definition form_valid {T : StringTrim} (s : Home.State) : Prop :=
  truthy_string (trim (Home.itemKey s)) = true
  /\ truthy_string (trim (Home.username s)) = true
  /\ truthy_string (trim (Home.password s)) = true.

(** The dialog of [handleSave] about a name that is already in the index. *)
Definition exists_dialog : Event :=
  Alert "Credential Exists"
    "A credential with this name already exists. Do you want to update it?".

(** ** More concrete devices, and screens *)

Module Fixture.
Import Scenario.

#[local] Existing Instance MiniJSON.codec.

(** A device without biometrics whose keychain rejects every write and
    every reset with [msg]. *)
Definition rejecting (os : OS) (msg : string) : Env :=
  {| Platform_OS := os;
     Date_getTime := fun n => (1700000000000 + 1000 * Z.of_nat n)%Z;
     native_fault := fun _ => Some msg;
     challenge := fun _ => Authenticated;
     supportedBiometry := fun _ => inr None |}.

Definition locked : Env := rejecting ios "The keychain is locked".

(** An Android phone without biometrics that accepts every keychain call
    but the one made at the clock reading [n]. *)
Definition failing_at (n : nat) : Env :=
  {| Platform_OS := android;
     Date_getTime := fun n => (1700000000000 + 1000 * Z.of_nat n)%Z;
     native_fault :=
       fun m => if Nat.eqb m n then Some "The keychain is locked" else None;
     challenge := fun _ => Authenticated;
     supportedBiometry := fun _ => inr None |}.

(** [a] updated, next to [b], to sit behind the device passcode. *)
Definition with_a_resealed : World :=
  after (updateCredential cooperative "a" "alice" "pw1b" (policy false true))
    with_ab.

(** A passed authentication next to [a]. *)
Definition authenticated : World :=
  after (authenticateWithLockscreen cooperative default_auth) with_a.

(** The passed authentication of clear-all, next to [a] and [b]. *)
Definition cleared_for_deletion : World :=
  after (authenticateWithLockscreen cooperative clearAllData_auth)
    (emit (SetLoading true) with_ab).

(** A device that answers [canImplyAuthentication] with [lock]. *)
Definition phone (E : Env) (lock : bool) : Device :=
  {| env := E; canImplyAuthentication := fun _ => inr lock |}.

(** SettingsScreen as it is after loading, with nothing persisted yet. *)
Definition settings (lock : bool) : Settings.State :=
  {| Settings.securityStorage := ∅;
     Settings.appSecurityEnabled := false;
     Settings.authenticating := false;
     Settings.lockscreenEnabled := lock |}.

(** HomeScreen with its form filled in. *)
Definition form (k u p : string) (biometrics passcode : bool) : Home.State :=
  {| Home.items := JArray [];
     Home.loading := false;
     Home.refreshing := false;
     Home.itemKey := k;
     Home.username := u;
     Home.password := p;
     Home.useBiometrics := biometrics;
     Home.useDevicePasscode := passcode;
     Home.expandSecurityOptions := false |}.

(** CredentialDetailScreen showing a loaded record, with its two
    switches as given. *)
Definition detail (u p : string) (biometrics passcode : bool) : Detail.State :=
  {| Detail.loading := false;
     Detail.credential :=
       Some {| service_of := EmptyString; username_of := u; password_of := p;
               metadata_of := JObject [] |};
     Detail.showPassword := false;
     Detail.biometricsAvailable := true;
     Detail.passcodeAvailable := true;
     Detail.useBiometrics := biometrics;
     Detail.useDevicePasscode := passcode;
     Detail.biometryType := "Face ID" |}.

(** The detail screen of [a] with the passcode switch on, and [a] after
    its biometrics switch was turned on there. *)
Definition detail_a : Detail.State := detail "alice" "pw1" false true.

Definition with_a_both : World :=
  after
    (updateCredential cooperative "a" "alice" "pw1"
       (switch_options Detail.biometrics true detail_a))
    with_a.

(** CredentialDetailScreen as it is mounted. *)
Definition mounted : Detail.State :=
  {| Detail.loading := true;
     Detail.credential := None;
     Detail.showPassword := false;
     Detail.biometricsAvailable := false;
     Detail.passcodeAvailable := false;
     Detail.useBiometrics := false;
     Detail.useDevicePasscode := false;
     Detail.biometryType := "None" |}.

(** LockscreenAuthScreen as it is mounted, over the persisted flags
    [flags]. *)
Definition lock_screen (flags : gmap string bool) : Auth.State :=
  {| Auth.loading := true;
     Auth.biometricInfo :=
       {| Lockscreen.available := false; Lockscreen.type := None;
          Lockscreen.displayName := "None" |};
     Auth.lockscreenEnabled := false;
     Auth.appLocked := true;
     Auth.authenticating := false;
     Auth.authAttempts := 0;
     Auth.securityStorage := flags;
     Auth.route := "Auth" |}.

End Fixture.

(** * Properties *)

(** ** The concrete codec satisfies the laws of [JSON] *)

Module MiniJSONFacts.
Import MiniJSON.

Lemma read_string_escape (s k : string) :
  read_string (escape s +:+ String dq k) = Some (s, k).
Proof.
  induction s as [|c s IH]; [reflexivity|].
  cbn [escape].
  destruct (Ascii.eqb c dq) eqn:Hdq; cbn [orb].
  - apply Ascii.eqb_eq in Hdq; subst c.
    change (read_string (escape s +:+ String dq k) = Some (s, k)) in IH.
    change (match read_string (escape s +:+ String dq k) with
            | Some (x, rest) => Some (String dq x, rest)
            | None => None
            end = Some (String dq s, k)).
    by rewrite IH.
  - destruct (Ascii.eqb c bs) eqn:Hbs.
    + apply Ascii.eqb_eq in Hbs; subst c.
      change (match read_string (escape s +:+ String dq k) with
              | Some (x, rest) => Some (String bs x, rest)
              | None => None
              end = Some (String bs s, k)).
      by rewrite IH.
    + change (String c (escape s) +:+ String dq k)
        with (String c (escape s +:+ String dq k)).
      cbn [read_string]. by rewrite Hdq, Hbs, IH.
Qed.

Lemma parse_value_quote (fuel : nat) (s k : string) :
  parse_value (S fuel) (quote s k) = Some (JString s, k).
Proof.
  unfold quote. cbn [parse_value].
  change (Ascii.eqb dq dq) with true. cbn iota.
  by rewrite read_string_escape.
Qed.

Lemma write_head (j : json) (k : string) :
  exists c r, write j k = String c r /\ Ascii.eqb c "]" = false.
Proof.
  destruct j as [|[]| | |]; cbn [write]; unfold quote; eauto.
Qed.

Lemma parse_elems_S (fuel : nat) (s : string) :
  parse_elems (S fuel) s =
  match parse_value fuel s with
  | Some (v, String c r) =>
      if Ascii.eqb c "," then
        match parse_elems fuel r with
        | Some (l, rest) => Some (v :: l, rest)
        | None => None
        end
      else if Ascii.eqb c "]" then Some ([v], r)
      else None
  | _ => None
  end.
Proof. reflexivity. Qed.

Lemma parse_elems_write (r : list json) :
  forall (x : json) (fuel : nat) (k : string),
    parses x -> Forall parses r ->
    list_sum (map (fun e => S (weight e)) (x :: r)) <= fuel ->
    parse_elems fuel (write x (more write "]" r k)) = Some (x :: r, k).
Proof.
  induction r as [|y r IH]; intros x fuel k Hx Hr Hfuel;
    simpl in Hfuel;
    (destruct fuel as [|fuel]; [lia|]);
    rewrite parse_elems_S, Hx by lia; cbn [more].
  - reflexivity.
  - change (Ascii.eqb "," ",") with true. cbn iota.
    inversion Hr; subst.
    rewrite IH; [done..|]. simpl. lia.
Qed.

Lemma parse_props_S (fuel : nat) (s : string) :
  parse_props (S fuel) s =
  match s with
  | EmptyString => None
  | String q r =>
      if Ascii.eqb q dq then
        match read_string r with
        | Some (k, String colon r1) =>
            if Ascii.eqb colon ":" then
              match parse_value fuel r1 with
              | Some (v, String c r2) =>
                  if Ascii.eqb c "," then
                    match parse_props fuel r2 with
                    | Some (ps, rest) => Some ((k, v) :: ps, rest)
                    | None => None
                    end
                  else if Ascii.eqb c "}" then Some ([(k, v)], r2)
                  else None
              | _ => None
              end
            else None
        | _ => None
        end
      else None
  end.
Proof. reflexivity. Qed.

Lemma parse_props_write (r : list (string * json)) :
  forall (p : string * json) (fuel : nat) (k : string),
    parses p.2 -> Forall (fun q => parses q.2) r ->
    list_sum (map (fun q => S (weight q.2)) (p :: r)) <= fuel ->
    parse_props fuel (write_prop p (more write_prop "}" r k)) = Some (p :: r, k).
Proof.
  induction r as [|q r IH]; intros [key v] fuel k Hp Hr Hfuel;
    simpl in Hfuel, Hp;
    (destruct fuel as [|fuel]; [lia|]);
    rewrite parse_props_S; unfold write_prop at 1, quote; cbn [fst snd];
    change (Ascii.eqb dq dq) with true; cbn iota;
    rewrite read_string_escape;
    change (Ascii.eqb ":" ":") with true; cbn iota;
    rewrite Hp by lia; cbn [more].
  - reflexivity.
  - change (Ascii.eqb "," ",") with true. cbn iota.
    inversion Hr; subst.
    rewrite IH; [done..|]. simpl. lia.
Qed.

Lemma parse_value_write (j : json) : parses j.
Proof.
  induction j as [|b|s|l IH|ps IH] using json_nested_ind;
    intros fuel k Hfuel; simpl in Hfuel;
    (destruct fuel as [|fuel]; [lia|]).
  - reflexivity.
  - by destruct b.
  - apply parse_value_quote.
  - destruct l as [|x r]; [reflexivity|].
    cbn [write separated].
    destruct (write_head x (more write "]" r k)) as (c & s & Hw & Hc).
    cbn [parse_value]. change (Ascii.eqb "[" dq) with false.
    change (Ascii.eqb "[" "[") with true. cbn iota.
    rewrite Hw, Hc, <- Hw.
    inversion IH; subst.
    rewrite parse_elems_write by (done || lia). done.
  - destruct ps as [|p r]; [reflexivity|].
    cbn [write separated].
    change (parse_value (S fuel)
              (String "{" (write_prop p (more write_prop "}" r k)))
            = Some (JObject (p :: r), k)).
    cbn [parse_value]. change (Ascii.eqb "{" dq) with false.
    change (Ascii.eqb "{" "[") with false.
    change (Ascii.eqb "{" "{") with true. cbn iota.
    unfold write_prop at 1, quote.
    change (Ascii.eqb dq "}") with false. cbn iota.
    change (String dq (escape p.1 +:+ String dq (String ":" (write p.2 (more write_prop "}" r k)))))
      with (write_prop p (more write_prop "}" r k)).
    inversion IH; subst.
    rewrite parse_props_write by (done || lia). done.
Qed.

Lemma string_length_app (a b : string) :
  String.length (a +:+ b) = String.length a + String.length b.
Proof. induction a as [|c a IH]; [done|]. simpl. by rewrite IH. Qed.

Lemma more_fits {A : Type} (item : A -> string -> string) (close : Ascii.ascii)
    (w : A -> nat) (r : list A) (k : string) :
  Forall (fun x => forall k, w x + String.length k <= String.length (item x k)) r ->
  list_sum (map (fun x => S (w x)) r) + 1 + String.length k
  <= String.length (more item close r k).
Proof.
  induction 1 as [|x r Hx _ IH]; simpl; [lia|].
  specialize (Hx (more item close r k)). lia.
Qed.

Lemma separated_fits {A : Type} (item : A -> string -> string)
    (close : Ascii.ascii) (w : A -> nat) (l : list A) (k : string) :
  Forall (fun x => forall k, w x + String.length k <= String.length (item x k)) l ->
  list_sum (map (fun x => S (w x)) l) + String.length k
  <= String.length (separated item close l k).
Proof.
  destruct 1 as [|x r Hx Hr]; simpl; [lia|].
  specialize (Hx (more item close r k)).
  pose proof (more_fits item close w r k Hr). lia.
Qed.

Lemma weight_le_length (j : json) : fits j.
Proof.
  induction j as [|b|s|l IH|ps IH] using json_nested_ind; intros k.
  - cbn [write]. rewrite string_length_app. simpl. lia.
  - destruct b; cbn [write]; rewrite string_length_app; simpl; lia.
  - unfold write, quote. simpl. rewrite string_length_app. simpl. lia.
  - pose proof (separated_fits write "]" weight l k IH). simpl in *. lia.
  - assert (Forall (fun p : string * json =>
              forall k, weight p.2 + String.length k
                        <= String.length (write_prop p k)) ps) as IH'.
    { eapply Forall_impl; [exact IH|]. intros p Hp k'.
      unfold write_prop, quote. simpl. rewrite string_length_app. simpl.
      specialize (Hp k'). lia. }
    pose proof (separated_fits write_prop "}" (fun p => weight p.2) ps k IH').
    change (write (JObject ps) k)
      with (String "{" (separated write_prop "}" ps k)).
    simpl in *. lia.
Qed.

Lemma codec_parse_stringify (j : json) : parse (stringify j) = Some j.
Proof.
  unfold parse, stringify.
  rewrite parse_value_write; [done|].
  pose proof (weight_le_length j EmptyString). simpl in *. lia.
Qed.

Lemma codec_stringify_truthy (j : json) :
  truthy_string (stringify j) = true.
Proof.
  unfold stringify.
  by destruct (write_head j EmptyString) as (c & r & -> & _).
Qed.

Lemma codec_laws : JSONLaws codec.
Proof.
  split; [exact codec_parse_stringify | exact codec_stringify_truthy].
Qed.

End MiniJSONFacts.

(** ** Keys of the two stores *)

Lemma append_inj_r (p a b : string) : p +:+ a = p +:+ b -> a = b.
Proof.
  induction p as [|c p IH]; [done|].
  intros H. apply IH. by injection H.
Qed.

Lemma metadata_key_inj (k k' : string) :
  "metadata_" +:+ k = "metadata_" +:+ k' -> k = k'.
Proof. apply append_inj_r. Qed.

Lemma service_inj (k k' : string) :
  SERVICE +:+ "." +:+ k = SERVICE +:+ "." +:+ k' -> k = k'.
Proof. intros H. by do 2 apply append_inj_r in H. Qed.

Lemma metadata_key_not_index (k : string) : "metadata_" +:+ k <> "itemsList".
Proof. discriminate. Qed.

Lemma tempKey_not_service (t k : string) :
  "auth_check_" +:+ t <> SERVICE +:+ "." +:+ k.
Proof. discriminate. Qed.

(** ** Running the vault symbolically *)

Ltac run :=
  cbv [saveCredential updateCredential getCredential deleteCredential
       setLoading Alert_alert
       try_catch bind ret throw lift Date_now storage_set storage_getString
       storage_delete Keychain_setGenericPassword Keychain_getGenericPassword
       Keychain_resetGenericPassword Keychain_getSupportedBiometryType
       parse_or JSON_parse saveItemsList console_error
       set_mmkv set_keychain tick emit];
  cbn [mmkv keychain ticks trace service].

Ltac lookups :=
  repeat first
    [ rewrite lookup_insert_eq
    | rewrite lookup_insert_ne
        by first [done | discriminate | by apply not_eq_sym]
    | rewrite lookup_delete_ne
        by first [done | discriminate | by apply not_eq_sym] ].

(** The same, leaving the call of [saveCredential] inside [updateCredential]
    folded. *)
Ltac run_update :=
  cbv [updateCredential try_catch bind ret throw lift Date_now storage_set
       storage_getString parse_or JSON_parse console_error
       set_mmkv set_keychain tick emit];
  cbn [mmkv keychain ticks trace].

(** The same for [authenticateWithLockscreen]. *)
Ltac run_auth :=
  cbv [authenticateWithLockscreen
       try_catch bind ret throw lift Date_now
       Keychain_setGenericPassword Keychain_getGenericPassword
       Keychain_resetGenericPassword console_error
       set_mmkv set_keychain tick emit];
  cbn [mmkv keychain ticks trace service accessControl].

Section Properties.

Context {J : JSON} {L : JSONLaws J} (E : Env).

(** *** The items list *)

Lemma parse_or_stringify (j : json) (fallback : M json) (w : World) :
  parse_or (Some (stringify j)) fallback w = (Normal j, w).
Proof.
  unfold parse_or, JSON_parse. by rewrite stringify_truthy, parse_stringify.
Qed.

Lemma getItemsList_stored (j : json) (w : World) :
  mmkv w !! "itemsList" = Some (stringify j) ->
  getItemsList w = (Normal j, w).
Proof.
  intros H. unfold getItemsList, bind, storage_getString.
  rewrite H. apply parse_or_stringify.
Qed.

(** C10. Saving a list of keys and reading the list back gives the same
    list, and a store in which no list was ever saved reads as the empty
    list. *)
Theorem itemsList_round_trip :
  (forall (items : list string) (w : World),
      exists w',
        saveItemsList (JArray (JString <$> items)) w = (Normal tt, w')
        /\ getItemsList w' = (Normal (JArray (JString <$> items)), w'))
  /\ (forall w : World,
        mmkv w !! "itemsList" = None ->
        getItemsList w = (Normal (JArray []), w)).
Proof.
  split.
  - intros items w. eexists. split; [reflexivity|].
    apply getItemsList_stored. cbn. apply lookup_insert_eq.
  - intros w H. unfold getItemsList, bind, storage_getString.
    by rewrite H.
Qed.

(** *** Exceptions stop at the service boundary *)

Lemma try_catch_resolves {A} (body : M A) (handler : Error -> M A) :
  (forall e, resolves (handler e)) -> resolves (try_catch body handler).
Proof.
  intros Hh w. unfold try_catch.
  destruct (body w) as [[a|e] w']; [eauto | apply Hh].
Qed.

Lemma log_and_return_resolves {A} (label : string) (a : A) (e : Error) :
  resolves (console_error label e;; ret a).
Proof. intros w. by do 2 eexists. Qed.

Lemma saveCredential_resolves (key username password : string)
    (options : CredentialOptions) :
  resolves (saveCredential E key username password options).
Proof.
  apply try_catch_resolves. intros e. apply log_and_return_resolves.
Qed.








(** *** What a save leaves behind *)

Lemma service_saveCredential_keychainOptions (k : string)
    (opts : CredentialOptions) :
  service (saveCredential_keychainOptions E k opts) = SERVICE +:+ "." +:+ k.
Proof. unfold saveCredential_keychainOptions. by repeat case_match. Qed.

Lemma keychainOptions_policy_None (k : string) (opts : CredentialOptions) :
  policy_None opts ->
  accessControl (saveCredential_keychainOptions E k opts) = None.
Proof.
  intros [Hb Hp]. unfold saveCredential_keychainOptions.
  rewrite Hb, Hp. cbn. by rewrite andb_false_r.
Qed.

Lemma getItemsList_read (w : World) :
  getItemsList w = (read_index (mmkv w !! "itemsList"), w).
Proof.
  unfold getItemsList, read_index. run.
  by repeat case_match.
Qed.

Lemma existsb_strict_eq_keys (k : string) (keys : list string) :
  existsb (strict_eq (JString k)) (JString <$> keys) = bool_decide (k ∈ keys).
Proof.
  induction keys as [|a keys IH]; [done|].
  cbn. rewrite IH. destruct (String.eqb_spec k a) as [->|Hne].
  - symmetry. apply bool_decide_eq_true. left.
  - cbn. apply bool_decide_ext. rewrite elem_of_cons.
    split; [by right | by intros [?|?]].
Qed.

(** A save that resolves to [true] wrote the metadata and sealed the
    secret. *)
Lemma saveCredential_true (k u p : string) (opts : CredentialOptions)
    (w w' : World) :
  saveCredential E k u p opts w = (Normal true, w') ->
  native_fault E (S (S (ticks w))) = None /\ saved E k u p opts w w'.
Proof.
  run. rewrite service_saveCredential_keychainOptions.
  destruct (native_fault E (S (S (ticks w)))) as [msg|]; [done|].
  cbv beta iota. rewrite getItemsList_read. cbn [mmkv]. intros H.
  repeat case_match; simplify_eq; (split; [done|]); split;
    cbn [mmkv keychain ticks trace]; try done; intros; by lookups.
Qed.

(** A save over an index that is an array resolves to [true] as soon as the
    keychain accepts the secret, and appends the key if it is new. *)
Lemma saveCredential_indexed (k u p : string) (opts : CredentialOptions)
    (w : World) (keys : list string) :
  native_fault E (S (S (ticks w))) = None ->
  getItemsList w = (Normal (JArray (JString <$> keys)), w) ->
  exists w',
    saveCredential E k u p opts w = (Normal true, w')
    /\ saved E k u p opts w w'
    /\ getItemsList w'
       = (Normal (JArray (JString <$>
                            if bool_decide (k ∈ keys) then keys
                            else keys ++ [k])), w').
Proof.
  intros Hfault Hidx. rewrite getItemsList_read in Hidx.
  injection Hidx as Hidx.
  destruct (saveCredential E k u p opts w) as [r w'] eqn:Hsave.
  assert (r = Normal true) as ->.
  { revert Hsave. run. rewrite Hfault. cbv beta iota.
    rewrite getItemsList_read. cbn [mmkv].
    rewrite lookup_insert_ne, Hidx by discriminate.
    cbv beta iota. rewrite existsb_strict_eq_keys.
    case_bool_decide; congruence. }
  exists w'. split; [done|].
  pose proof Hsave as [_ Hsaved]%saveCredential_true.
  split; [done|].
  revert Hsave. run. rewrite Hfault. cbv beta iota.
  rewrite getItemsList_read. cbn [mmkv].
  rewrite lookup_insert_ne, Hidx by discriminate.
  cbv beta iota. rewrite existsb_strict_eq_keys.
  rewrite getItemsList_read.
  case_bool_decide; intros; simplify_eq; cbn [mmkv].
  - by rewrite lookup_insert_ne, Hidx by discriminate.
  - rewrite lookup_insert_eq. cbn [read_index].
    by rewrite stringify_truthy, parse_stringify, fmap_app.
Qed.

Lemma challenge_count_app (a b : list Event) :
  challenge_count (a ++ b) = challenge_count a + challenge_count b.
Proof. unfold challenge_count. by rewrite List.filter_app, length_app. Qed.

(** C7. After a successful save under the policy None, a get with default
    options resolves to the saved username and secret, and from the start of
    the save to the end of the get no challenge is put to the user. *)
Theorem round_trip_None (k u s : string) (opts : CredentialOptions)
    (w w1 : World) :
  policy_None opts ->
  saveCredential E k u s opts w = (Normal true, w1) ->
  exists c w2,
    getCredential E k no_options w1 = (Normal (Some c), w2)
    /\ username_of c = u /\ password_of c = s
    /\ challenge_count (trace w2) = challenge_count (trace w).
Proof.
  intros Hnone [_ [Hmeta Hkc _ Htr _]]%saveCredential_true.
  pose proof Hnone as [Hb Hp].
  run. rewrite Hmeta, stringify_truthy, parse_stringify.
  unfold saveCredential_metadata. rewrite Hb, Hp. cbn.
  rewrite Hkc, lookup_insert_eq. cbn.
  rewrite keychainOptions_policy_None by done.
  do 2 eexists. split; [reflexivity|]. cbn -[challenge_count].
  rewrite Htr, !challenge_count_app. cbn. split_and!; [done..|lia].
Qed.

(** C9. A successful save of [k] leaves the metadata entry and the
    protected secret of every other key as they were, and on an index of
    keys it keeps the keys in their order and appends [k] exactly when [k]
    was not among them. *)
Theorem saveCredential_frame (k u p : string) (opts : CredentialOptions)
    (w w' : World) :
  saveCredential E k u p opts w = (Normal true, w') ->
  (forall k', k' <> k ->
     mmkv w' !! ("metadata_" +:+ k') = mmkv w !! ("metadata_" +:+ k'))
  /\ (forall k', k' <> k ->
        keychain w' !! (SERVICE +:+ "." +:+ k')
        = keychain w !! (SERVICE +:+ "." +:+ k'))
  /\ (forall keys : list string,
        getItemsList w = (Normal (JArray (JString <$> keys)), w) ->
        getItemsList w'
        = (Normal (JArray (JString <$>
                             if bool_decide (k ∈ keys) then keys
                             else keys ++ [k])), w')).
Proof.
  intros Hsave.
  pose proof Hsave as [Hfault [_ Hkc Hframe _ _]]%saveCredential_true.
  split_and!.
  - intros k' Hne. apply Hframe; [|discriminate].
    by intros ?%metadata_key_inj.
  - intros k' Hne. rewrite Hkc, lookup_insert_ne; [done|].
    by intros ?%service_inj.
  - intros keys Hidx.
    destruct (saveCredential_indexed k u p opts w keys Hfault Hidx)
      as (w'' & Hsave' & _ & Hidx').
    by replace w' with w'' by congruence.
Qed.

(** C1, as the code has it. Saving a key that is already in the index does
    not fail: as soon as the keychain accepts the secret the save resolves
    to [true], it has replaced the metadata entry and the protected secret
    of the key, and the index is unchanged. *)
Theorem saveCredential_existing_key (k u p : string)
    (opts : CredentialOptions) (w : World) (keys : list string) :
  getItemsList w = (Normal (JArray (JString <$> keys)), w) ->
  k ∈ keys ->
  native_fault E (S (S (ticks w))) = None ->
  exists w',
    saveCredential E k u p opts w = (Normal true, w')
    /\ mmkv w' !! ("metadata_" +:+ k)
       = Some (stringify
                 (saveCredential_metadata k opts (Date_getTime E (ticks w))
                    (Date_getTime E (S (ticks w)))))
    /\ keychain w' !! (SERVICE +:+ "." +:+ k)
       = Some {| item_username := u; item_password := p;
                 item_accessControl :=
                   accessControl (saveCredential_keychainOptions E k opts) |}
    /\ getItemsList w' = (Normal (JArray (JString <$> keys)), w').
Proof.
  intros Hidx Hin Hfault.
  destruct (saveCredential_indexed k u p opts w keys Hfault Hidx)
    as (w' & Hsave & [Hmeta Hkc _ _ _] & Hidx').
  exists w'. split_and!; [done..| |].
  - by rewrite Hkc, lookup_insert_eq.
  - by rewrite bool_decide_eq_true_2 in Hidx'.
Qed.

(** *** Update is a save *)

Lemma try_catch_saveCredential (k u p : string) (opts : CredentialOptions)
    (handler : Error -> M bool) (w : World) :
  try_catch (saveCredential E k u p opts) handler w
  = saveCredential E k u p opts w.
Proof.
  unfold try_catch.
  by destruct (saveCredential_resolves k u p opts w) as (b & w' & ->).
Qed.

(** With no metadata stored for the key, update writes a first metadata
    object and hands over to save, two clock readings later. *)
Lemma updateCredential_absent (k u p : string) (opts : CredentialOptions)
    (w : World) :
  mmkv w !! ("metadata_" +:+ k) = None ->
  exists m0,
    updateCredential E k u p opts w
    = saveCredential E k u p opts
        (set_mmkv (insert ("metadata_" +:+ k) m0) (tick (tick w))).
Proof.
  intros Habsent. eexists.
  rewrite <- (try_catch_saveCredential k u p opts
                (fun error =>
                   console_error "Error updating credential:" error;;
                   ret false)).
  run_update. rewrite Habsent. reflexivity.
Qed.

(** With a metadata object stored for the key, update rewrites it and hands
    over to save, one clock reading later. *)
Lemma updateCredential_present (k u p : string) (opts : CredentialOptions)
    (w : World) (props : list (string * json)) :
  mmkv w !! ("metadata_" +:+ k) = Some (stringify (JObject props)) ->
  exists m1,
    updateCredential E k u p opts w
    = saveCredential E k u p opts
        (set_mmkv (insert ("metadata_" +:+ k) m1) (tick w)).
Proof.
  intros Hstored. eexists.
  rewrite <- (try_catch_saveCredential k u p opts
                (fun error =>
                   console_error "Error updating credential:" error;;
                   ret false)).
  run_update. rewrite Hstored, stringify_truthy, parse_stringify.
  reflexivity.
Qed.

Lemma getItemsList_set_metadata (k v : string) (w : World) (j : json) :
  getItemsList w = (Normal j, w) ->
  forall w1,
    mmkv w1 = <["metadata_" +:+ k := v]> (mmkv w) ->
    getItemsList w1 = (Normal j, w1).
Proof.
  rewrite !getItemsList_read. intros [= Hj] w1 Hw1.
  rewrite getItemsList_read, Hw1, lookup_insert_ne by discriminate.
  by rewrite Hj.
Qed.

(** C4, as the code has it. Updating a key that has no record does not
    fail: as soon as the keychain accepts the secret the update resolves to
    [true], and it has created the metadata entry, the protected secret and
    the index entry of the key, as a save does. *)
Theorem updateCredential_missing_key (k u p : string)
    (opts : CredentialOptions) (w : World) (keys : list string) :
  mmkv w !! ("metadata_" +:+ k) = None ->
  getItemsList w = (Normal (JArray (JString <$> keys)), w) ->
  k ∉ keys ->
  native_fault E (4 + ticks w) = None ->
  exists w',
    updateCredential E k u p opts w = (Normal true, w')
    /\ mmkv w' !! ("metadata_" +:+ k)
       = Some (stringify
                 (saveCredential_metadata k opts
                    (Date_getTime E (2 + ticks w))
                    (Date_getTime E (3 + ticks w))))
    /\ keychain w' !! (SERVICE +:+ "." +:+ k)
       = Some {| item_username := u; item_password := p;
                 item_accessControl :=
                   accessControl (saveCredential_keychainOptions E k opts) |}
    /\ getItemsList w' = (Normal (JArray (JString <$> keys ++ [k])), w').
Proof.
  intros Habsent Hidx Hnew Hfault.
  destruct (updateCredential_absent k u p opts w Habsent) as [m0 ->].
  set (w1 := set_mmkv _ _).
  destruct (saveCredential_indexed k u p opts w1 keys) as
    (w' & Hsave & [Hmeta Hkc _ _ _] & Hidx'); [done| |].
  { by eapply getItemsList_set_metadata. }
  exists w'. split_and!; [done|by rewrite Hmeta| |].
  - by rewrite Hkc, lookup_insert_eq.
  - by rewrite bool_decide_eq_false_2 in Hidx'.
Qed.

(** What update does to the creation time of an existing record: after a
    successful update the stored metadata is the object save has just built,
    whose [createdAt] is the time of the update. *)
Lemma updateCredential_createdAt (k u p : string) (opts : CredentialOptions)
    (w w' : World) (props : list (string * json)) :
  mmkv w !! ("metadata_" +:+ k) = Some (stringify (JObject props)) ->
  updateCredential E k u p opts w = (Normal true, w') ->
  mmkv w' !! ("metadata_" +:+ k)
  = Some (stringify
            (saveCredential_metadata k opts (Date_getTime E (S (ticks w)))
               (Date_getTime E (S (S (ticks w)))))).
Proof.
  intros Hstored Hupdate.
  destruct (updateCredential_present k u p opts w props Hstored) as [m1 Heq].
  rewrite Heq in Hupdate.
  by apply saveCredential_true in Hupdate as [_ [Hmeta _ _ _ _]].
Qed.

(** *** When get attaches a prompt *)

(** C5, as the code has it. Get attaches the authentication prompt exactly
    when the metadata mirror says a policy other than None or the caller's
    options set [useBiometrics]; for a record stored under the policy None
    and options that leave [useBiometrics] unset or false it passes the
    keychain a bare read of the service; and whenever the secret is sealed
    without access control no challenge is put to the user. *)
Theorem getCredential_prompt (k : string) (opts : CredentialOptions)
    (w : World) (props : list (string * json)) :
  mmkv w !! ("metadata_" +:+ k) = Some (stringify (JObject props)) ->
  let requiresAuth :=
    truthy_opt (assoc "useBiometrics" props)
    || truthy_opt (assoc "useDevicePasscode" props) in
  exists r w' o tl,
    getCredential E k opts w = (Normal r, w')
    /\ trace w' = trace w ++ KeychainGet o :: tl
    /\ service o = SERVICE +:+ "." +:+ k
    /\ (is_Some (authenticationPrompt o)
        <-> requiresAuth || default false (useBiometrics opts) = true)
    /\ (requiresAuth = false ->
        default false (useBiometrics opts) = false ->
        o = plain (SERVICE +:+ "." +:+ k))
    /\ ((forall it, keychain w !! (SERVICE +:+ "." +:+ k) = Some it ->
                    item_accessControl it = None) ->
        tl = []).
Proof.
  intros Hstored requiresAuth.
  set (o := getCredential_keychainOptions E k opts
              (assoc "useBiometrics" props) (assoc "useDevicePasscode" props)).
  assert (service o = SERVICE +:+ "." +:+ k) as Hsvc.
  { unfold o, getCredential_keychainOptions. by repeat case_match. }
  assert (exists r w' tl,
             getCredential E k opts w = (Normal r, w')
             /\ trace w' = trace w ++ KeychainGet o :: tl
             /\ ((forall it, keychain w !! (SERVICE +:+ "." +:+ k) = Some it ->
                             item_accessControl it = None) ->
                 tl = [])) as (r & w' & tl & Hget & Htr & Htl).
  { run. rewrite Hstored, stringify_truthy, parse_stringify.
    cbn [get_prop]. fold o. rewrite Hsvc.
    destruct (keychain w !! (SERVICE +:+ "." +:+ k)) as [it|] eqn:Hit;
      [destruct (item_accessControl it) eqn:Hac;
       [destruct (challenge E (ticks w))|]|];
      cbn [trace]; repeat case_match;
      do 3 eexists; (split; [reflexivity|]); cbn [trace];
      rewrite <- ?app_assoc; (split; [reflexivity|]); intros Hplain;
      try done; by specialize (Hplain _ eq_refl); simplify_eq. }
  exists r, w', o, tl. split_and!; try done.
  - unfold o, getCredential_keychainOptions. fold requiresAuth.
    destruct (requiresAuth || default false (useBiometrics opts));
      [destruct (is_android E)|]; cbn [authenticationPrompt plain];
      split; try done; by intros [? [=]].
  - intros Hr Hu. unfold o, getCredential_keychainOptions.
    fold requiresAuth. by rewrite Hr, Hu.
Qed.

(** *** Authentication leaves the vault alone *)

Section keeps.
Context (P : string -> Prop).

Lemma keeps_ret {A} (a : A) : keeps P (ret a).
Proof. by intros w r w' [= <- <-]. Qed.

Lemma keeps_bind {A B} (m : M A) (k : A -> M B) :
  keeps P m -> (forall a, keeps P (k a)) -> keeps P (bind m k).
Proof.
  intros Hm Hk w r w'. unfold bind.
  destruct (m w) as [[a|e] w1] eqn:Hmw; destruct (Hm _ _ _ Hmw) as [Hm1 Hk1].
  - intros [Hm2 Hk2]%Hk. split; [congruence|].
    intros svc Hsvc. by rewrite Hk2, Hk1.
  - by intros [= <- <-].
Qed.

Lemma keeps_try_catch {A} (body : M A) (handler : Error -> M A) :
  keeps P body -> (forall e, keeps P (handler e)) ->
  keeps P (try_catch body handler).
Proof.
  intros Hm Hk w r w'. unfold try_catch.
  destruct (body w) as [[a|e] w1] eqn:Hmw; destruct (Hm _ _ _ Hmw) as [Hm1 Hk1].
  - by intros [= <- <-].
  - intros [Hm2 Hk2]%Hk. split; [congruence|].
    intros svc Hsvc. by rewrite Hk2, Hk1.
Qed.

Lemma keeps_console_error (label : string) (e : Error) :
  keeps P (console_error label e).
Proof. by intros w r w' [= <- <-]. Qed.

Lemma keeps_Date_now : keeps P (Date_now E).
Proof. by intros w r w' [= <- <-]. Qed.

Lemma keeps_getSupportedBiometryType :
  keeps P (Keychain_getSupportedBiometryType E).
Proof.
  intros w r w'. unfold Keychain_getSupportedBiometryType.
  by case_match; intros [= <- <-].
Qed.

Lemma keeps_setGenericPassword (u p : string) (o : Options) :
  P (service o) -> keeps P (Keychain_setGenericPassword E u p o).
Proof.
  intros Ho w r w'. unfold Keychain_setGenericPassword.
  case_match; intros [= <- <-]; (split; [done|]); intros svc Hsvc;
    cbn [keychain set_keychain tick emit]; [done|].
  apply lookup_insert_ne. by intros <-.
Qed.

Lemma keeps_getGenericPassword (o : Options) :
  keeps P (Keychain_getGenericPassword E o).
Proof.
  intros w r w'. unfold Keychain_getGenericPassword.
  by repeat case_match; intros [= <- <-].
Qed.

Lemma keeps_resetGenericPassword (svc : string) :
  P svc -> keeps P (Keychain_resetGenericPassword E svc).
Proof.
  intros Ho w r w'. unfold Keychain_resetGenericPassword.
  case_match; intros [= <- <-]; (split; [done|]); intros svc' Hsvc;
    cbn [keychain set_keychain tick emit]; [done|].
  apply lookup_delete_ne. by intros <-.
Qed.

End keeps.

Lemma keeps_authenticateWithLockscreen (opts : Lockscreen.AuthOptions) :
  keeps is_tempKey (authenticateWithLockscreen E opts).
Proof.
  unfold authenticateWithLockscreen, getBiometricInfo.
  repeat first
    [ apply keeps_try_catch; [|intros ?]
    | apply keeps_bind; [|intros ?]
    | apply keeps_ret
    | apply keeps_console_error
    | apply keeps_Date_now
    | apply keeps_getSupportedBiometryType
    | apply keeps_getGenericPassword
    | apply keeps_setGenericPassword; cbn [service]; by eexists
    | apply keeps_resetGenericPassword; by eexists
    | case_match ].
Qed.

(** C6. Clear-all authenticates before it deletes: when the authentication
    it starts with resolves to [false], the handler stops there, and the
    stores are as they were: MMKV, hence every metadata entry and the
    index, is unchanged, and so is the protected secret of every key. *)
Theorem clearAllData_aborts (w w1 : World) :
  authenticateWithLockscreen E clearAllData_auth (emit (SetLoading true) w)
  = (Normal false, w1) ->
  clearAllData_onPress E w = (Normal tt, emit (SetLoading false) w1)
  /\ mmkv (emit (SetLoading false) w1) = mmkv w
  /\ (forall k,
        keychain (emit (SetLoading false) w1) !! (SERVICE +:+ "." +:+ k)
        = keychain w !! (SERVICE +:+ "." +:+ k))
  /\ fst (getItemsList (emit (SetLoading false) w1)) = fst (getItemsList w).
Proof.
  intros Hauth.
  pose proof (keeps_authenticateWithLockscreen _ _ _ _ Hauth) as [Hm Hk].
  cbn [emit mmkv keychain] in *.
  split_and!.
  - unfold clearAllData_onPress, try_catch, bind, setLoading at 1.
    by rewrite Hauth.
  - done.
  - intros k. apply Hk. intros [t Ht]. by eapply tempKey_not_service.
  - rewrite !getItemsList_read. cbn [fst mmkv emit]. by rewrite Hm.
Qed.

(** The exit path without cleanup, on every device: when the throwaway
    entry is sealed and the challenge rejects, the call resolves to [false]
    and the entry stays in the keychain. *)
Lemma authenticateWithLockscreen_rejected (opts : Lockscreen.AuthOptions)
    (w : World) (msg : string) :
  default true (Lockscreen.fallbackToPasscode opts) = true ->
  native_fault E (S (ticks w)) = None ->
  challenge E (S (S (ticks w))) = Rejected msg ->
  exists w',
    authenticateWithLockscreen E opts w = (Normal false, w')
    /\ is_Some (keychain w'
                !! ("auth_check_" +:+ pretty (Date_getTime E (ticks w)))).
Proof.
  intros Hfb Hset Hchallenge. run_auth. rewrite Hfb.
  destruct (is_android E); rewrite Hset; cbv beta iota;
    cbn [mmkv keychain ticks trace service accessControl];
    rewrite lookup_insert_eq; cbn [item_accessControl accessControl];
    rewrite Hchallenge; case_match; eexists; (split; [reflexivity|]);
    cbn [keychain]; by rewrite lookup_insert_eq.
Qed.

(** The exit paths with cleanup: when the challenge resolves, either way,
    and the keychain accepts the reset, the throwaway entry is gone. *)
Lemma authenticateWithLockscreen_resolved (opts : Lockscreen.AuthOptions)
    (w : World) :
  default true (Lockscreen.fallbackToPasscode opts) = true ->
  native_fault E (S (ticks w)) = None ->
  (forall msg, challenge E (S (S (ticks w))) <> Rejected msg) ->
  native_fault E (S (S (S (ticks w)))) = None ->
  exists b w',
    authenticateWithLockscreen E opts w = (Normal b, w')
    /\ keychain w' !! ("auth_check_" +:+ pretty (Date_getTime E (ticks w)))
       = None.
Proof.
  intros Hfb Hset Hchallenge Hreset. run_auth. rewrite Hfb.
  destruct (is_android E); rewrite Hset; cbv beta iota;
    cbn [mmkv keychain ticks trace service accessControl];
    rewrite lookup_insert_eq; cbn [item_accessControl accessControl];
    (destruct (challenge E (S (S (ticks w)))) eqn:Hc;
       [| |by destruct (Hchallenge msg)]);
    cbn [ticks]; rewrite Hreset; do 2 eexists; (split; [reflexivity|]);
    cbn [keychain]; by rewrite lookup_delete_eq.
Qed.

End Properties.

(** ** The vault on concrete stores *)

Module Examples.
Import Scenario.
#[local] Existing Instance MiniJSON.codec.

(** The round trip of the list [bank], [wifi], and the empty index of the
    fresh store. *)
Lemma itemsList_round_trip_witness :
  (exists w',
      saveItemsList (JArray (JString <$> ["bank"; "wifi"])) with_a
      = (Normal tt, w')
      /\ getItemsList w'
         = (Normal (JArray (JString <$> ["bank"; "wifi"])), w'))
  /\ getItemsList fresh = (Normal (JArray []), fresh).
Proof.
  destruct (itemsList_round_trip (L := MiniJSONFacts.codec_laws)) as [Hsave Hnone].
  split; [apply Hsave | apply Hnone; reflexivity].
Defined.

(** Scenario A: [a] is saved under the policy None and read back. *)
Lemma round_trip_None_witness :
  exists c w2,
    getCredential cooperative "a" no_options with_a = (Normal (Some c), w2)
    /\ username_of c = "alice" /\ password_of c = "pw1"
    /\ challenge_count (trace w2) = challenge_count (trace fresh).
Proof.
  apply (round_trip_None (L := MiniJSONFacts.codec_laws) cooperative
           "a" "alice" "pw1" (policy false false) fresh with_a).
  - split; reflexivity.
  - vm_compute. reflexivity.
Defined.

(** Saving [b] after [a]: the record of [a] stays and the index becomes
    [a], [b]. *)
Lemma saveCredential_frame_witness :
  mmkv with_ab !! "metadata_a" = mmkv with_a !! "metadata_a"
  /\ keychain with_ab !! "com.lockscreencreds.example.a"
     = keychain with_a !! "com.lockscreencreds.example.a"
  /\ getItemsList with_ab
     = (Normal (JArray (JString <$> ["a"; "b"])), with_ab).
Proof.
  destruct (saveCredential_frame (L := MiniJSONFacts.codec_laws) cooperative
              "b" "bob" "pw2" (policy true false) with_a with_ab)
    as (Hmeta & Hsecret & Hindex); [vm_compute; reflexivity|].
  split_and!.
  - apply (Hmeta "a"). discriminate.
  - apply (Hsecret "a"). discriminate.
  - apply (Hindex ["a"]). vm_compute. reflexivity.
Defined.

(** A second save of [a] on a cooperative device. *)
Lemma saveCredential_existing_key_witness :
  exists w',
    saveCredential cooperative "a" "mallory" "pw9" (policy false false) with_a
    = (Normal true, w')
    /\ keychain w' !! "com.lockscreencreds.example.a"
       = Some {| item_username := "mallory"; item_password := "pw9";
                 item_accessControl := None |}
    /\ getItemsList w' = (Normal (JArray [JString "a"]), w').
Proof.
  destruct (saveCredential_existing_key (L := MiniJSONFacts.codec_laws)
              cooperative "a" "mallory" "pw9" (policy false false) with_a
              ["a"])
    as (w' & Hsave & _ & Hsecret & Hindex);
    [vm_compute; reflexivity | left | reflexivity |].
  exists w'. split_and!; [exact Hsave | exact Hsecret | exact Hindex].
Defined.

(** C1 fails on the code: [a] is in the index, and a second save of [a]
    resolves to [true] and replaces the metadata entry and the secret. *)
Lemma saveCredential_existing_key_counterexample :
  let w := with_a in
  let r :=
    saveCredential cooperative "a" "mallory" "pw9" (policy false false) w in
  fst (getItemsList w) = Normal (JArray [JString "a"])
  /\ fst r = Normal true
  /\ mmkv (snd r) !! "metadata_a" <> mmkv w !! "metadata_a"
  /\ keychain (snd r) !! "com.lockscreencreds.example.a"
     <> keychain w !! "com.lockscreencreds.example.a".
Proof. vm_compute. split_and!; [reflexivity..|discriminate|discriminate]. Qed.

(** An update of [ghost], which has no record, next to [a]. *)
Lemma updateCredential_missing_key_witness :
  exists w',
    updateCredential cooperative "ghost" "x" "y" (policy false false) with_a
    = (Normal true, w')
    /\ keychain w' !! "com.lockscreencreds.example.ghost"
       = Some {| item_username := "x"; item_password := "y";
                 item_accessControl := None |}
    /\ getItemsList w' = (Normal (JArray (JString <$> ["a"; "ghost"])), w').
Proof.
  destruct (updateCredential_missing_key (L := MiniJSONFacts.codec_laws)
              cooperative "ghost" "x" "y" (policy false false) with_a ["a"])
    as (w' & Hupdate & _ & Hsecret & Hindex);
    [reflexivity | vm_compute; reflexivity | | reflexivity |].
  { intros Hin. apply list_elem_of_In in Hin. simpl in Hin.
    destruct Hin as [Hin|[]]. discriminate Hin. }
  exists w'. split_and!; [exact Hupdate | exact Hsecret | exact Hindex].
Defined.

(** C4 fails on the code: nothing is stored for [ghost], and an update of
    [ghost] resolves to [true] and creates its metadata entry, its secret
    and its index entry. *)
Lemma updateCredential_missing_key_counterexample :
  let w := fresh in
  let r :=
    updateCredential cooperative "ghost" "x" "y" (policy false false) w in
  mmkv w !! "metadata_ghost" = None
  /\ fst (getItemsList w) = Normal (JArray [])
  /\ fst r = Normal true
  /\ is_Some (mmkv (snd r) !! "metadata_ghost")
  /\ is_Some (keychain (snd r) !! "com.lockscreencreds.example.ghost")
  /\ fst (getItemsList (snd r)) = Normal (JArray [JString "ghost"]).
Proof. vm_compute. split_and!; eauto. Qed.

(** A get of [a] with default options: one bare read and nothing else. *)
Lemma getCredential_prompt_witness :
  exists r w',
    getCredential cooperative "a" no_options with_a = (Normal r, w')
    /\ trace w'
       = trace with_a ++ [KeychainGet (plain "com.lockscreencreds.example.a")].
Proof.
  destruct (getCredential_prompt (L := MiniJSONFacts.codec_laws) cooperative
              "a" no_options with_a
              [("createdAt", JString "2023-11-14T22:13:20.000Z");
               ("updatedAt", JString "2023-11-14T22:13:21.000Z");
               ("key", JString "a");
               ("useBiometrics", JBool false);
               ("useDevicePasscode", JBool false)])
    as (r & w' & o & tl & Hget & Htrace & _ & _ & Hplain & Hquiet);
    [vm_compute; reflexivity|].
  exists r, w'. split; [exact Hget|].
  rewrite Htrace, (Hplain eq_refl eq_refl), Hquiet; [reflexivity|].
  intros it. vm_compute. intros [= <-]. reflexivity.
Defined.

(** C5 fails on the code: [a] is stored under the policy None, and a get
    whose options set [useBiometrics] hands the keychain a read with the
    authentication prompt attached. *)
Lemma getCredential_prompt_counterexample :
  let w := with_a in
  let r := getCredential cooperative "a" ask_biometrics w in
  keychain w !! "com.lockscreencreds.example.a"
  = Some {| item_username := "alice"; item_password := "pw1";
            item_accessControl := None |}
  /\ trace (snd r)
     = trace w
       ++ [KeychainGet
             {| service := "com.lockscreencreds.example.a";
                accessControl := None;
                securityLevel := None;
                accessible := None;
                authenticationPrompt :=
                  Some {| title := Some "Authenticate to access credential";
                          description :=
                            Some "Authentication is required to access this credential";
                          cancel := Some "Cancel" |};
                authenticationType := None |}].
Proof. vm_compute. split; reflexivity. Qed.

(** Scenario E: three records, and the user cancels the authentication of
    clear-all. *)
Lemma clearAllData_aborts_witness :
  let w' := after (clearAllData_onPress canceling) with_abc in
  mmkv w' = mmkv with_abc
  /\ fst (getItemsList w')
     = Normal (JArray [JString "a"; JString "b"; JString "c"])
  /\ (forall k,
        keychain w' !! (SERVICE +:+ "." +:+ k)
        = keychain with_abc !! (SERVICE +:+ "." +:+ k)).
Proof.
  destruct (clearAllData_aborts canceling with_abc
              (after (authenticateWithLockscreen canceling clearAllData_auth)
                 (emit (SetLoading true) with_abc)))
    as (Hrun & Hmmkv & Hsecrets & Hindex); [vm_compute; reflexivity|].
  unfold after. rewrite Hrun. cbn [snd].
  split_and!; [exact Hmmkv | | exact Hsecrets].
  rewrite Hindex. vm_compute. reflexivity.
Defined.

(** C2 fails on the code: the user cancels the challenge, the read rejects,
    and the call resolves to [false] with the throwaway entry still sealed
    in the keychain. *)
Theorem authenticateWithLockscreen_leaves_tempKey :
  let r := authenticateWithLockscreen canceling default_auth fresh in
  fst r = Normal false
  /\ keychain (snd r) !! "auth_check_1700000000000"
     = Some {| item_username := "auth_user"; item_password := "auth_check";
               item_accessControl := Some BIOMETRY_ANY_OR_DEVICE_PASSCODE |}.
Proof. vm_compute. split; reflexivity. Qed.

(** C3 fails on the code: [a] was created at 22:13:20, and a successful
    update of [a] leaves a metadata entry whose [createdAt] is the time of
    the update. *)
Theorem updateCredential_resets_createdAt :
  let w := with_a in
  let r :=
    updateCredential cooperative "a" "alice" "pw2" (policy false false) w in
  stored_createdAt w "a" = Some (JString "2023-11-14T22:13:20.000Z")
  /\ fst r = Normal true
  /\ stored_createdAt (snd r) "a" = Some (JString "2023-11-14T22:13:24.000Z").
Proof. vm_compute. split_and!; reflexivity. Qed.

(** An error in a [try] block, and what the caller sees of it: on a device
    whose keychain rejects the write the [try] block of a save of [a]
    throws, and the save resolves to [false]; the same for the reset of a
    delete, and an update and a get over metadata that is not JSON. *)
Lemma try_blocks_throw :
  let broken := set_mmkv (insert "metadata_a" "{") with_a in
  throws (saveCredential_try Fixture.locked "a" "mallory" "pw9"
            (policy true false)) with_a
  /\ fst (saveCredential Fixture.locked "a" "mallory" "pw9"
            (policy true false) with_a) = Normal false
  /\ throws (deleteCredential_try Fixture.locked (JString "a")) with_a
  /\ fst (deleteCredential Fixture.locked (JString "a") with_a) = Normal false
  /\ throws (updateCredential_try cooperative "a" "mallory" "pw9"
               (policy true false)) broken
  /\ fst (updateCredential cooperative "a" "mallory" "pw9"
            (policy true false) broken) = Normal false
  /\ throws (getCredential_try cooperative "a" no_options) broken
  /\ fst (getCredential cooperative "a" no_options broken) = Normal None.
Proof.
  unfold throws.
  split_and!; try (vm_compute; reflexivity); vm_compute; by do 2 eexists.
Qed.

End Examples.

(** * More of the code *)

(** ** The vault: delete, failure, policy, update *)

Section MoreProperties.

Context {J : JSON} {L : JSONLaws J} (E : Env).

(** *** Delete *)

Lemma filter_strict_eq_keys (k : string) (keys : list string) :
  filter (fun item => strict_eq item (JString k) = false) (JString <$> keys)
  = JString <$> filter (fun x => x <> k) keys.
Proof.
  induction keys as [|a keys IH]; [done|].
  rewrite fmap_cons, !filter_cons, IH. cbn [strict_eq].
  destruct (String.eqb_spec a k) as [->|Hne].
  - rewrite decide_False by done. by rewrite decide_False by (by intros []).
  - by rewrite !decide_True by done.
Qed.

(** What a delete of [k] made in [w] leaves in [w']. *)
Lemma deleteCredential_indexed (k : string) (w : World) (keys : list string) :
  native_fault E (ticks w) = None ->
  getItemsList w = (Normal (JArray (JString <$> keys)), w) ->
  exists w',
    deleteCredential E (JString k) w = (Normal true, w')
    /\ mmkv w'
       = <["itemsList" :=
             stringify (JArray (JString <$> filter (fun x => x <> k) keys))]>
           (delete ("metadata_" +:+ k) (mmkv w))
    /\ keychain w' = delete (SERVICE +:+ "." +:+ k) (keychain w)
    /\ ticks w' = S (ticks w)
    /\ trace w' = trace w ++ [KeychainReset (SERVICE +:+ "." +:+ k)].
Proof.
  intros Hfault Hidx. rewrite getItemsList_read in Hidx.
  injection Hidx as Hidx.
  run. cbn [toString]. rewrite Hfault. cbv beta iota.
  rewrite getItemsList_read. cbn [mmkv].
  rewrite lookup_delete_ne, Hidx by discriminate. cbv beta iota.
  rewrite filter_strict_eq_keys.
  eexists. split; [reflexivity|]. done.
Qed.

Lemma filter_ne_absent (k : string) (keys : list string) :
  k ∉ keys -> filter (fun x => x <> k) keys = keys.
Proof.
  induction keys as [|a keys IH]; [done|].
  rewrite not_elem_of_cons. intros [Hne Hnot].
  rewrite filter_cons, decide_True by done. by rewrite IH.
Qed.

(** X1. A delete that the keychain accepts resolves to [true] and removes
    the record: the metadata entry and the protected secret of the key are
    gone, the index is the old one without the key, in the same order, and
    the metadata and secret of every other key are as they were.  A key
    that was not in the index leaves the index as it was. *)
Theorem deleteCredential_removes (k : string) (w : World)
    (keys : list string) :
  native_fault E (ticks w) = None ->
  getItemsList w = (Normal (JArray (JString <$> keys)), w) ->
  exists w',
    deleteCredential E (JString k) w = (Normal true, w')
    /\ mmkv w' !! ("metadata_" +:+ k) = None
    /\ keychain w' !! (SERVICE +:+ "." +:+ k) = None
    /\ getItemsList w'
       = (Normal (JArray (JString <$> filter (fun x => x <> k) keys)), w')
    /\ (k ∉ keys ->
        getItemsList w' = (Normal (JArray (JString <$> keys)), w'))
    /\ (forall k', k' <> k ->
          mmkv w' !! ("metadata_" +:+ k') = mmkv w !! ("metadata_" +:+ k')
          /\ keychain w' !! (SERVICE +:+ "." +:+ k')
             = keychain w !! (SERVICE +:+ "." +:+ k')).
Proof.
  intros Hfault Hidx.
  destruct (deleteCredential_indexed k w keys Hfault Hidx)
    as (w' & Hdel & Hm & Hk & _ & _).
  assert (getItemsList w'
          = (Normal (JArray (JString <$> filter (fun x => x <> k) keys)), w'))
    as Hidx'.
  { apply getItemsList_stored. rewrite Hm. apply lookup_insert_eq. }
  exists w'. split_and!; try done.
  - rewrite Hm, lookup_insert_ne by discriminate. apply lookup_delete_eq.
  - rewrite Hk. apply lookup_delete_eq.
  - intros Hnot. by rewrite filter_ne_absent in Hidx'.
  - intros k' Hne. split.
    + rewrite Hm, lookup_insert_ne by discriminate.
      apply lookup_delete_ne. by intros ?%metadata_key_inj.
    + rewrite Hk. apply lookup_delete_ne. by intros ?%service_inj.
Qed.

(** X2. A delete whose keychain reset is rejected resolves to [false] and
    has changed neither store: the reset comes first, so the metadata entry
    and the index are still there. *)
Theorem deleteCredential_rejected (item : json) (w : World) (msg : string) :
  native_fault E (ticks w) = Some msg ->
  exists w',
    deleteCredential E item w = (Normal false, w')
    /\ mmkv w' = mmkv w /\ keychain w' = keychain w.
Proof.
  intros Hfault. run. rewrite Hfault. by eexists.
Qed.

(** X3. Save then delete: on a device that accepts both keychain calls,
    saving a key that is not in the index and deleting it again leaves no
    metadata entry and no secret for the key and gives back the index that
    was there before. *)
Theorem save_then_delete (k u p : string) (opts : CredentialOptions)
    (w : World) (keys : list string) :
  getItemsList w = (Normal (JArray (JString <$> keys)), w) ->
  k ∉ keys ->
  native_fault E (S (S (ticks w))) = None ->
  native_fault E (S (S (S (ticks w)))) = None ->
  exists w1 w2,
    saveCredential E k u p opts w = (Normal true, w1)
    /\ deleteCredential E (JString k) w1 = (Normal true, w2)
    /\ mmkv w2 !! ("metadata_" +:+ k) = None
    /\ keychain w2 !! (SERVICE +:+ "." +:+ k) = None
    /\ getItemsList w2 = (Normal (JArray (JString <$> keys)), w2).
Proof.
  intros Hidx Hnew Hsave Hreset.
  destruct (saveCredential_indexed E k u p opts w keys Hsave Hidx)
    as (w1 & Hs & [_ _ _ _ Hticks] & Hidx1).
  rewrite bool_decide_eq_false_2 in Hidx1 by done.
  destruct (deleteCredential_indexed k w1 (keys ++ [k]))
    as (w2 & Hd & Hm & Hk & _ & _); [by rewrite Hticks|done|].
  assert (filter (fun x => x <> k) (keys ++ [k]) = keys) as Hf.
  { rewrite filter_app, filter_ne_absent by done.
    rewrite filter_cons, decide_False by (by intros []).
    by rewrite filter_nil, app_nil_r. }
  rewrite Hf in Hm.
  exists w1, w2. split_and!; try done.
  - rewrite Hm, lookup_insert_ne by discriminate. apply lookup_delete_eq.
  - rewrite Hk. apply lookup_delete_eq.
  - apply getItemsList_stored. rewrite Hm. apply lookup_insert_eq.
Qed.

(** *** Save: failure and policy *)

(** X4. A save whose keychain write is rejected resolves to [false]; the
    keychain and the index are as they were, but the metadata entry of the
    key has already been overwritten with the new one. *)
Theorem saveCredential_rejected (k u p : string) (opts : CredentialOptions)
    (w : World) (msg : string) :
  native_fault E (S (S (ticks w))) = Some msg ->
  exists w',
    saveCredential E k u p opts w = (Normal false, w')
    /\ keychain w' = keychain w
    /\ mmkv w' !! "itemsList" = mmkv w !! "itemsList"
    /\ mmkv w' !! ("metadata_" +:+ k)
       = Some (stringify
                 (saveCredential_metadata k opts (Date_getTime E (ticks w))
                    (Date_getTime E (S (ticks w))))).
Proof.
  intros Hfault. run. rewrite Hfault. eexists. split; [reflexivity|].
  cbn [mmkv keychain]. split_and!; [done| |]; by lookups.
Qed.

Lemma service_getCredential_keychainOptions (k : string)
    (opts : CredentialOptions) (a b : option json) :
  service (getCredential_keychainOptions E k opts a b)
  = SERVICE +:+ "." +:+ k.
Proof. unfold getCredential_keychainOptions. by repeat case_match. Qed.

(** A save under a policy other than None seals the secret under an access
    control, on both platforms. *)
Lemma saveCredential_protected (k : string) (opts : CredentialOptions) :
  ~ policy_None opts ->
  is_Some (accessControl (saveCredential_keychainOptions E k opts)).
Proof.
  unfold policy_None, saveCredential_keychainOptions.
  destruct (default false (useBiometrics opts)),
    (default false (useDevicePasscode opts)), (is_android E); cbn;
    intros Hpol; try by eexists.
  all: by destruct Hpol.
Qed.

(** X5. After a successful save the metadata mirror and the keychain agree
    on the policy, on both platforms: the secret is sealed under the access
    control the two flags select, the mirror holds the same two flags, and
    so the mirror demands authentication exactly when the secret is sealed
    under an access control. *)
Theorem saveCredential_policy_mirror (k u p : string)
    (opts : CredentialOptions) (w w' : World) :
  saveCredential E k u p opts w = (Normal true, w') ->
  let ub := default false (useBiometrics opts) in
  let ud := default false (useDevicePasscode opts) in
  exists it props,
    keychain w' !! (SERVICE +:+ "." +:+ k) = Some it
    /\ item_username it = u /\ item_password it = p
    /\ item_accessControl it
       = (if ub && ud then Some BIOMETRY_ANY_OR_DEVICE_PASSCODE
          else if ub then Some BIOMETRY_ANY
          else if ud then Some DEVICE_PASSCODE
          else None)
    /\ mmkv w' !! ("metadata_" +:+ k) = Some (stringify (JObject props))
    /\ assoc "useBiometrics" props = Some (JBool ub)
    /\ assoc "useDevicePasscode" props = Some (JBool ud)
    /\ (is_Some (item_accessControl it) <-> ub || ud = true).
Proof.
  intros [_ [Hmeta Hkc _ _ _]]%saveCredential_true ub ud.
  do 2 eexists. rewrite Hkc, lookup_insert_eq.
  split_and!; [reflexivity..| | exact Hmeta | reflexivity | reflexivity |];
    cbn [item_accessControl]; unfold saveCredential_keychainOptions;
    fold ub ud; destruct ub, ud, (is_android E); cbn; try done;
    split; try done; by intros [? [=]].
Qed.

(** X6. Policy gating: after a successful save under a policy other than
    None, every get of the key puts exactly one challenge to the user and
    resolves to the saved username and secret only if the challenge is
    passed; a challenge that is dismissed or rejects gives null. *)
Theorem getCredential_gated (k u s : string) (opts gopts : CredentialOptions)
    (w w1 : World) :
  saveCredential E k u s opts w = (Normal true, w1) ->
  ~ policy_None opts ->
  exists r w2,
    getCredential E k gopts w1 = (Normal r, w2)
    /\ challenge_count (trace w2) = S (challenge_count (trace w1))
    /\ match challenge E (ticks w1) with
       | Authenticated =>
           exists c, r = Some c /\ username_of c = u /\ password_of c = s
       | _ => r = None
       end.
Proof.
  intros [_ [Hmeta Hkc _ _ _]]%saveCredential_true Hpol.
  destruct (saveCredential_protected k opts Hpol) as [ac Hac].
  assert (exists props,
             saveCredential_metadata k opts (Date_getTime E (ticks w))
               (Date_getTime E (S (ticks w))) = JObject props)
    as [props Hprops] by by eexists.
  rewrite Hprops in Hmeta.
  run. rewrite Hmeta, stringify_truthy, parse_stringify.
  cbn [get_prop]. rewrite service_getCredential_keychainOptions, Hkc.
  rewrite lookup_insert_eq. cbn [item_accessControl]. rewrite Hac.
  destruct (challenge E (ticks w1)); cbn [trace]; repeat case_match;
    do 2 eexists; (split; [reflexivity|]); cbn [trace];
    rewrite !challenge_count_app; cbn; (split; [lia|]); eauto.
Qed.

(** *** Update *)

(** An update that resolves to [true] is a successful save, made in a world
    that differs from the first one in the metadata entry of the key and
    in the clock. *)
Lemma updateCredential_true (k u p : string) (opts : CredentialOptions)
    (w w' : World) :
  updateCredential E k u p opts w = (Normal true, w') ->
  exists w1,
    saveCredential E k u p opts w1 = (Normal true, w')
    /\ keychain w1 = keychain w
    /\ (forall key, key <> "metadata_" +:+ k ->
          mmkv w1 !! key = mmkv w !! key).
Proof.
  run_update. intros H.
  repeat case_match; simplify_eq; eexists; (split; [eassumption|]);
    cbn [mmkv keychain]; (split; [done|]); intros; by lookups.
Qed.

Lemma updateCredential_resolves (k u p : string) (opts : CredentialOptions) :
  resolves (updateCredential E k u p opts).
Proof.
  apply try_catch_resolves. intros e. apply log_and_return_resolves.
Qed.

(** X7. Update is an upsert with the frame of a save: when it resolves to
    [true] the secret of the key is the new payload sealed under the new
    policy, the metadata and secret of every other key are as they were,
    and on an index of keys the key is appended exactly when it was not a
    member. *)
Theorem updateCredential_upsert (k u p : string) (opts : CredentialOptions)
    (w w' : World) :
  updateCredential E k u p opts w = (Normal true, w') ->
  keychain w' !! (SERVICE +:+ "." +:+ k)
  = Some {| item_username := u; item_password := p;
            item_accessControl :=
              accessControl (saveCredential_keychainOptions E k opts) |}
  /\ (forall k', k' <> k ->
        mmkv w' !! ("metadata_" +:+ k') = mmkv w !! ("metadata_" +:+ k')
        /\ keychain w' !! (SERVICE +:+ "." +:+ k')
           = keychain w !! (SERVICE +:+ "." +:+ k'))
  /\ (forall keys : list string,
        getItemsList w = (Normal (JArray (JString <$> keys)), w) ->
        getItemsList w'
        = (Normal (JArray (JString <$>
                             if bool_decide (k ∈ keys) then keys
                             else keys ++ [k])), w')).
Proof.
  intros (w1 & Hsave & Hk1 & Hm1)%updateCredential_true.
  pose proof Hsave as [Hfault [_ Hkc Hframe _ _]]%saveCredential_true.
  split_and!.
  - by rewrite Hkc, lookup_insert_eq.
  - intros k' Hne. split.
    + rewrite Hframe
        by first [discriminate | by intros ?%metadata_key_inj].
      apply Hm1. by intros ?%metadata_key_inj.
    + rewrite Hkc, lookup_insert_ne, Hk1; [done|]. by intros ?%service_inj.
  - intros keys Hidx.
    assert (getItemsList w1 = (Normal (JArray (JString <$> keys)), w1))
      as Hidx1.
    { rewrite getItemsList_read in Hidx. injection Hidx as Hidx.
      rewrite getItemsList_read, Hm1 by discriminate. by rewrite Hidx. }
    destruct (saveCredential_indexed E k u p opts w1 keys Hfault Hidx1)
      as (w'' & Hsave' & _ & Hidx').
    by replace w' with w'' by congruence.
Qed.

(** ** Authentication *)

(** The challenge of [authenticateWithLockscreen], from the clock reading
    on: what the call does once its access control is chosen. *)
Lemma authenticate_challenge_true (ac : ACCESS_CONTROL)
    (prompt : AuthenticationPrompt) (handler : Error -> M bool)
    (w w' : World) :
  (forall e w0 w1, handler e w0 <> (Normal true, w1)) ->
  try_catch
    (let* now := Date_now E in
     let tempKey := "auth_check_" +:+ pretty now in
     let o :=
       {| service := tempKey;
          accessControl := Some ac;
          securityLevel := if is_android E then Some SECURE_HARDWARE else None;
          accessible := Some WHEN_UNLOCKED;
          authenticationPrompt := Some prompt;
          authenticationType := Some DEVICE_PASSCODE_OR_BIOMETRICS |} in
     Keychain_setGenericPassword E "auth_user" "auth_check" o;;
     let* result := Keychain_getGenericPassword E o in
     Keychain_resetGenericPassword E tempKey;;
     ret (bool_decide (is_Some result)))
    handler w
  = (Normal true, w') ->
  challenge E (S (S (ticks w))) = Authenticated
  /\ challenge_count (trace w') = S (challenge_count (trace w))
  /\ keychain w'
     = delete ("auth_check_" +:+ pretty (Date_getTime E (ticks w)))
         (keychain w).
Proof.
  intros Hh. run_auth.
  destruct (native_fault E (S (ticks w))); [by intros ?%Hh|].
  cbv beta iota. cbn [mmkv keychain ticks trace service accessControl].
  rewrite lookup_insert_eq. cbn [item_accessControl].
  destruct (challenge E (S (S (ticks w)))); [| |by intros ?%Hh];
    cbn [ticks]; (destruct (native_fault E (S (S (S (ticks w)))));
                  [by intros ?%Hh|]);
    intros [= <-]; cbn [trace keychain].
  split_and!; [done| |by rewrite delete_insert_eq].
  rewrite !challenge_count_app. cbn. lia.
Qed.

Lemma try_catch_bind_normal {A B} (m : M A) (k : A -> M B)
    (handler : Error -> M B) (w w1 : World) (a : A) :
  m w = (Normal a, w1) ->
  try_catch (bind m k) handler w = try_catch (k a) handler w1.
Proof. intros Hm. unfold try_catch, bind. by rewrite Hm. Qed.

(** The biometric query never rejects and leaves the stores alone. *)
Lemma getBiometricInfo_resolves (w : World) :
  exists info w1,
    getBiometricInfo E w = (Normal info, w1)
    /\ mmkv w1 = mmkv w /\ keychain w1 = keychain w
    /\ ticks w1 = S (ticks w)
    /\ challenge_count (trace w1) = challenge_count (trace w)
    /\ Lockscreen.available info
       = match supportedBiometry E (ticks w) with
         | inr (Some _) => true
         | _ => false
         end.
Proof.
  unfold getBiometricInfo, Keychain_getSupportedBiometryType, try_catch, bind,
    ret, console_error.
  destruct (supportedBiometry E (ticks w)) as [e|[t|]]; do 2 eexists;
    (split; [reflexivity|]); cbn [mmkv keychain ticks trace tick emit];
    rewrite ?challenge_count_app; split_and!; try done;
    try (cbn; lia); by apply bool_decide_eq_true_2.
Qed.

(** An authentication that resolves to [true] has put one challenge to the
    user, which was passed, and has removed its throwaway entry. *)
Lemma authenticateWithLockscreen_challenged (opts : Lockscreen.AuthOptions)
    (w w' : World) :
  authenticateWithLockscreen E opts w = (Normal true, w') ->
  challenge_count (trace w') = S (challenge_count (trace w))
  /\ (exists n, ticks w < n /\ challenge E n = Authenticated)
  /\ (exists t, keychain w' = delete ("auth_check_" +:+ t) (keychain w)).
Proof.
  unfold authenticateWithLockscreen.
  set (fb := default true (Lockscreen.fallbackToPasscode opts)).
  match goal with
  | |- try_catch (bind ?m _) _ _ = _ -> _ =>
      assert (exists ac w1,
                 m w = (Normal ac, w1) /\ keychain w1 = keychain w
                 /\ challenge_count (trace w1) = challenge_count (trace w)
                 /\ ticks w <= ticks w1)
        as (ac & w1 & Hac & Hk1 & Hc1 & Ht1)
  end.
  { destruct (is_android E); [destruct fb|]; try by do 2 eexists.
    destruct (getBiometricInfo_resolves w)
      as (info & w1 & Hinfo & _ & Hk & Ht & Hc & _).
    unfold bind. rewrite Hinfo.
    destruct (Lockscreen.available info); do 2 eexists;
      (split; [reflexivity|]); split_and!; try done; lia. }
  rewrite (try_catch_bind_normal _ _ _ _ _ _ Hac).
  intros Hauth.
  apply authenticate_challenge_true in Hauth as (Hch & Hcount & Hkc).
  - split_and!; [lia | |].
    + exists (S (S (ticks w1))). split; [lia|done].
    + rewrite Hkc, Hk1. by eexists.
  - intros e w0 w2. unfold bind, console_error, ret. cbv beta iota.
    by destruct (truthy_string _ && _).
Qed.

Lemma authenticateWithLockscreen_resolves (opts : Lockscreen.AuthOptions) :
  resolves (authenticateWithLockscreen E opts).
Proof.
  apply try_catch_resolves. intros e w. unfold bind, console_error, ret.
  cbv beta iota. destruct (truthy_string _ && _); by do 2 eexists.
Qed.

(** X8. Authentication cannot succeed without the user: when
    [authenticateWithLockscreen] resolves to [true], exactly one challenge
    was put to the user during the call and it was passed, MMKV is as it
    was, and the keychain is as it was but for the throwaway service, which
    is gone. *)
Theorem authenticateWithLockscreen_sound (opts : Lockscreen.AuthOptions)
    (w w' : World) :
  authenticateWithLockscreen E opts w = (Normal true, w') ->
  challenge_count (trace w') = S (challenge_count (trace w))
  /\ (exists n, ticks w < n /\ challenge E n = Authenticated)
  /\ (exists t, keychain w' = delete ("auth_check_" +:+ t) (keychain w))
  /\ mmkv w' = mmkv w.
Proof.
  intros Hauth.
  pose proof (keeps_authenticateWithLockscreen E opts _ _ _ Hauth) as [Hm _].
  apply authenticateWithLockscreen_challenged in Hauth as (Hc & Hn & Hk).
  done.
Qed.

(** X9. [authenticateWithLockscreen] never rejects, whatever the device
    and the user do, and it is contained: it writes nothing to MMKV and
    touches no keychain service but those named [auth_check_...], so no
    credential is read, changed or removed by it. *)
Theorem authenticateWithLockscreen_contained (opts : Lockscreen.AuthOptions) :
  resolves (authenticateWithLockscreen E opts)
  /\ (forall w r w',
        authenticateWithLockscreen E opts w = (r, w') ->
        mmkv w' = mmkv w
        /\ forall k,
             keychain w' !! (SERVICE +:+ "." +:+ k)
             = keychain w !! (SERVICE +:+ "." +:+ k)).
Proof.
  split; [apply authenticateWithLockscreen_resolves|].
  intros w r w' [Hm Hk]%keeps_authenticateWithLockscreen.
  split; [done|]. intros k. apply Hk. intros [t Ht].
  by eapply tempKey_not_service.
Qed.

(** X21. Authentication succeeds with the user: on a device whose keychain
    accepts every call, with a user who passes every challenge,
    [authenticateWithLockscreen] resolves to [true], on both platforms and
    for every choice of options. *)
Theorem authenticateWithLockscreen_complete (opts : Lockscreen.AuthOptions)
    (w : World) :
  (forall n, native_fault E n = None) ->
  (forall n, challenge E n = Authenticated) ->
  exists w', authenticateWithLockscreen E opts w = (Normal true, w').
Proof.
  intros Hok Hpass. unfold authenticateWithLockscreen.
  set (fb := default true (Lockscreen.fallbackToPasscode opts)).
  match goal with
  | |- exists _, try_catch (bind ?m _) _ _ = _ =>
      assert (exists ac w1, m w = (Normal ac, w1)) as (ac & w1 & Hac)
  end.
  { destruct (is_android E); [destruct fb|]; try by do 2 eexists.
    destruct (getBiometricInfo_resolves w) as (info & w1 & Hinfo & _).
    unfold bind. rewrite Hinfo.
    destruct (Lockscreen.available info); by do 2 eexists. }
  rewrite (try_catch_bind_normal _ _ _ _ _ _ Hac).
  run_auth. rewrite !Hok. cbv beta iota.
  cbn [mmkv keychain ticks trace service accessControl].
  rewrite lookup_insert_eq. cbn [item_accessControl].
  rewrite Hpass. cbn [ticks]. rewrite Hok.
  by eexists.
Qed.

(** ** Clear all *)

Lemma deleteCredential_resolves (item : json) :
  resolves (deleteCredential E item).
Proof.
  apply try_catch_resolves. intros e. apply log_and_return_resolves.
Qed.

(** The loop of clear-all runs to its end whatever the deletes answer. *)
Lemma delete_each_resolves (items : list json) :
  resolves (for_each items (fun item => deleteCredential E item;; ret tt)).
Proof.
  induction items as [|item items IH]; intros w; [by do 2 eexists|].
  cbn [for_each]. unfold bind at 1 2.
  destruct (deleteCredential_resolves item w) as (b & w1 & ->).
  cbn. apply IH.
Qed.

(** On a device whose keychain accepts every call, the loop removes the
    record of every key it is given and no other. *)
Lemma delete_each_removes (keys : list string) :
  (forall n, native_fault E n = None) ->
  forall (idx : list string) (w : World),
    getItemsList w = (Normal (JArray (JString <$> idx)), w) ->
    exists w',
      for_each (JString <$> keys)
        (fun item => deleteCredential E item;; ret tt) w
      = (Normal tt, w')
      /\ (forall k,
            (k ∈ keys ->
             mmkv w' !! ("metadata_" +:+ k) = None
             /\ keychain w' !! (SERVICE +:+ "." +:+ k) = None)
            /\ (k ∉ keys ->
                mmkv w' !! ("metadata_" +:+ k) = mmkv w !! ("metadata_" +:+ k)
                /\ keychain w' !! (SERVICE +:+ "." +:+ k)
                   = keychain w !! (SERVICE +:+ "." +:+ k))).
Proof.
  intros Hok. induction keys as [|a keys IH]; intros idx w Hidx.
  { exists w. split; [done|]. intros k. split; [by intros ?%elem_of_nil|done]. }
  destruct (deleteCredential_indexed a w idx (Hok _) Hidx)
    as (w1 & Hdel & Hm1 & Hk1 & _ & _).
  assert (getItemsList w1
          = (Normal (JArray (JString <$> filter (fun x => x <> a) idx)), w1))
    as Hidx1.
  { apply getItemsList_stored. rewrite Hm1. apply lookup_insert_eq. }
  destruct (IH _ _ Hidx1) as (w' & Hloop & Heff).
  exists w'. split.
  { rewrite fmap_cons. cbn [for_each]. unfold bind at 1 2.
    rewrite Hdel. cbn. exact Hloop. }
  assert (mmkv w1 !! ("metadata_" +:+ a) = None
          /\ keychain w1 !! (SERVICE +:+ "." +:+ a) = None) as [Hma Hka].
  { rewrite Hm1, Hk1, lookup_insert_ne by discriminate.
    by rewrite !lookup_delete_eq. }
  assert (forall k, k <> a ->
            mmkv w1 !! ("metadata_" +:+ k) = mmkv w !! ("metadata_" +:+ k)
            /\ keychain w1 !! (SERVICE +:+ "." +:+ k)
               = keychain w !! (SERVICE +:+ "." +:+ k)) as Hother.
  { intros k Hne. rewrite Hm1, Hk1, lookup_insert_ne by discriminate.
    rewrite !lookup_delete_ne; [done| |]; intros Heq; apply Hne; symmetry;
      [by apply service_inj | by apply metadata_key_inj]. }
  intros k. destruct (Heff k) as [Hin Hout]. split.
  - intros [->|Hk]%elem_of_cons; [|by apply Hin].
    destruct (decide (a ∈ keys)) as [Ha|Ha]; [by apply Hin|].
    destruct (Hout Ha) as [-> ->]. done.
  - intros [Hne Hk]%not_elem_of_cons.
    destruct (Hout Hk) as [-> ->]. by apply Hother.
Qed.

(** X15. Clear-all after a passed authentication, on an index of keys: the
    handler resolves and the index is empty afterwards, whatever the
    keychain answered to the single deletes; and on a device whose keychain
    accepts every call the metadata entry and the secret of every indexed
    key are gone, while a record that was not in the index is left as it
    was. *)
Theorem clearAllData_clears (w w1 : World) (keys : list string) :
  authenticateWithLockscreen E clearAllData_auth (emit (SetLoading true) w)
  = (Normal true, w1) ->
  getItemsList w = (Normal (JArray (JString <$> keys)), w) ->
  exists w',
    clearAllData_onPress E w = (Normal tt, w')
    /\ getItemsList w' = (Normal (JArray []), w')
    /\ ((forall n, native_fault E n = None) ->
        forall k,
          (k ∈ keys ->
           mmkv w' !! ("metadata_" +:+ k) = None
           /\ keychain w' !! (SERVICE +:+ "." +:+ k) = None)
          /\ (k ∉ keys ->
              mmkv w' !! ("metadata_" +:+ k) = mmkv w !! ("metadata_" +:+ k)
              /\ keychain w' !! (SERVICE +:+ "." +:+ k)
                 = keychain w !! (SERVICE +:+ "." +:+ k))).
Proof.
  intros Hauth Hidx.
  pose proof (keeps_authenticateWithLockscreen E _ _ _ _ Hauth) as [Hm Hk].
  cbn [emit mmkv keychain] in Hm, Hk.
  assert (getItemsList w1 = (Normal (JArray (JString <$> keys)), w1)) as Hidx1.
  { rewrite getItemsList_read in Hidx. injection Hidx as Hidx.
    by rewrite getItemsList_read, Hm, Hidx. }
  destruct (delete_each_resolves (JString <$> keys) w1) as ([] & w2 & Hloop).
  eexists. split_and!.
  - unfold clearAllData_onPress.
    rewrite (try_catch_bind_normal _ _ _ w (emit (SetLoading true) w) tt)
      by reflexivity.
    rewrite (try_catch_bind_normal _ _ _ _ _ _ Hauth). cbn [negb].
    rewrite (try_catch_bind_normal _ _ _ _ _ _ Hidx1). cbn [for_of].
    rewrite (try_catch_bind_normal _ _ _ _ _ _ Hloop). reflexivity.
  - apply getItemsList_stored. cbn. apply lookup_insert_eq.
  - intros Hok k. cbn [mmkv keychain emit set_mmkv].
    destruct (delete_each_removes keys Hok keys w1 Hidx1)
      as (w2' & Hloop' & Heff).
    assert (w2' = w2) as -> by congruence.
    destruct (Heff k) as [Hin Hout].
    rewrite lookup_insert_ne by discriminate. split; [done|].
    intros Hnot. destruct (Hout Hnot) as [-> ->]. rewrite Hm. split; [done|].
    apply Hk. intros [t Ht]. by eapply tempKey_not_service.
Qed.

End MoreProperties.

Ltac run_probe :=
  cbv [checkBiometricAvailability checkDevicePasscodeAvailability
       isLockscreenEnabled _hasDeviceCredentialStore getBiometricInfo
       Keychain_canImplyAuthentication console_log
       try_catch bind ret throw lift Date_now
       Keychain_setGenericPassword Keychain_getGenericPassword
       Keychain_resetGenericPassword Keychain_getSupportedBiometryType
       console_error set_mmkv set_keychain tick emit];
  cbn [mmkv keychain ticks trace service accessControl].

(** ** The capability probes *)

Section ProbeProperties.

Context (D : Device).

(** X10. The two biometric queries are the same query: in every world
    [StorageService.checkBiometricAvailability] and
    [LockscreenUtils.getBiometricInfo] resolve, to the same availability,
    type and display name and without touching the stores; biometrics are
    reported available exactly when the platform names a type, and the
    display name is [Not Available] exactly when they are not. *)
Theorem biometric_queries_agree (w : World) :
  exists a b w1 w2,
    checkBiometricAvailability D w = (Normal a, w1)
    /\ getBiometricInfo D w = (Normal b, w2)
    /\ Storage.available a = Lockscreen.available b
    /\ Storage.biometryType a = Lockscreen.type b
    /\ Storage.displayName a = Lockscreen.displayName b
    /\ (Storage.available a = true
        <-> exists t, supportedBiometry D (ticks w) = inr (Some t))
    /\ (Storage.available a = false
        <-> Storage.displayName a = "Not Available")
    /\ mmkv w1 = mmkv w /\ keychain w1 = keychain w.
Proof.
  run_probe.
  destruct (supportedBiometry D (ticks w)) as [e|[t|]];
    do 4 eexists; (split; [reflexivity|]); (split; [reflexivity|]);
    cbn; split_and!; try done;
    try (split; [done | by intros [? [=]]]);
    try (split; [by intros _; eexists | done]);
    unfold StorageService_getBiometryDisplayName;
    split; try done; by destruct (Platform_OS D), t.
Qed.


Lemma includes_truthy (msg needle : string) :
  truthy_string needle = true -> includes msg needle = true ->
  truthy_string msg = true.
Proof. destruct msg; [|done]. by destruct needle. Qed.

(** X11. The two lock-screen probes,
    [LockscreenUtils.isLockscreenEnabled] and
    [StorageService.checkDevicePasscodeAvailability], give the same answer
    on every device whose keychain never rejects with a message that
    contains [No fingerprint enrolled]. *)
Theorem lockscreen_probes_agree (w : World) :
  (forall n msg, native_fault D n = Some msg ->
                 includes msg "No fingerprint enrolled" = false) ->
  fst (isLockscreenEnabled D w) = fst (checkDevicePasscodeAvailability D w).
Proof.
  intros Hmsg. run_probe.
  destruct (Platform_OS D).
  { by destruct (canImplyAuthentication D (ticks w)). }
  destruct (supportedBiometry D (ticks w)) as [e|[t|]]; [done..|].
  cbn [bool_decide decide_rel]. cbv beta iota.
  rewrite bool_decide_eq_false_2 by (by intros [? [=]]). cbn [ticks].
  destruct (native_fault D (S (S (ticks w)))) as [msg|] eqn:Hset.
  { cbn [message]. by rewrite (Hmsg _ _ Hset), andb_false_r. }
  cbv beta iota. cbn [ticks].
  destruct (native_fault D (S (S (S (ticks w))))) as [msg|] eqn:Hreset;
    [|done].
  cbn [message]. by rewrite (Hmsg _ _ Hreset), andb_false_r.
Qed.

(** X12. The two lock-screen probes disagree when, on Android without
    biometrics, the throwaway write is rejected with a message that
    contains [No fingerprint enrolled]: [isLockscreenEnabled] then reports
    a lock screen and [checkDevicePasscodeAvailability] reports none. *)
Theorem lockscreen_probes_differ (w : World) (msg : string) :
  Platform_OS D = android ->
  supportedBiometry D (ticks w) = inr None ->
  native_fault D (S (S (ticks w))) = Some msg ->
  includes msg "No fingerprint enrolled" = true ->
  fst (isLockscreenEnabled D w) = Normal true
  /\ fst (checkDevicePasscodeAvailability D w) = Normal false.
Proof.
  intros Hos Hbio Hset Hinc. run_probe.
  rewrite Hos, Hbio. cbv beta iota.
  rewrite bool_decide_eq_false_2 by (by intros [? [=]]). cbn [ticks].
  rewrite Hset. cbn [message].
  by rewrite Hinc,
       (includes_truthy msg "No fingerprint enrolled" eq_refl Hinc).
Qed.

Lemma keeps_canImplyAuthentication (P : string -> Prop) :
  keeps P (Keychain_canImplyAuthentication D).
Proof.
  intros w r w'. unfold Keychain_canImplyAuthentication.
  by case_match; intros [= <- <-].
Qed.

Ltac keeps_probe :=
  repeat first
    [ apply keeps_try_catch; [|intros ?]
    | apply keeps_bind; [|intros ?]
    | apply keeps_ret
    | apply keeps_console_error
    | apply keeps_Date_now
    | apply keeps_getSupportedBiometryType
    | apply keeps_canImplyAuthentication
    | apply keeps_setGenericPassword; cbn [service]; eexists; by eauto
    | apply keeps_resetGenericPassword; eexists; by eauto
    | case_match ].

Lemma keeps_isLockscreenEnabled : keeps is_probeKey (isLockscreenEnabled D).
Proof.
  unfold isLockscreenEnabled, _hasDeviceCredentialStore. keeps_probe.
Qed.

Lemma keeps_checkDevicePasscodeAvailability :
  keeps is_probeKey (checkDevicePasscodeAvailability D).
Proof.
  unfold checkDevicePasscodeAvailability, console_log. keeps_probe.
Qed.

Lemma probeKey_not_service (svc k : string) :
  is_probeKey svc -> svc <> SERVICE +:+ "." +:+ k.
Proof. by intros [t [-> | ->]]. Qed.

(** X13. The lock-screen probes are contained: both always resolve, write
    nothing to MMKV and leave the secret of every credential as it was,
    whatever the device answers. *)
Theorem lockscreen_probes_contained :
  resolves (isLockscreenEnabled D)
  /\ resolves (checkDevicePasscodeAvailability D)
  /\ (forall w r w',
        isLockscreenEnabled D w = (r, w')
        \/ checkDevicePasscodeAvailability D w = (r, w') ->
        mmkv w' = mmkv w
        /\ forall k,
             keychain w' !! (SERVICE +:+ "." +:+ k)
             = keychain w !! (SERVICE +:+ "." +:+ k)).
Proof.
  split_and!.
  - apply try_catch_resolves. intros e. apply log_and_return_resolves.
  - apply try_catch_resolves. intros e. apply log_and_return_resolves.
  - intros w r w' [[Hm Hk]%keeps_isLockscreenEnabled
                  |[Hm Hk]%keeps_checkDevicePasscodeAvailability];
      (split; [done|]); intros k; apply Hk; intros Hp;
      by eapply probeKey_not_service.
Qed.

(** X14. A probe whose cleanup is rejected leaves its throwaway entry: on
    Android without biometrics, when the write of the test entry is accepted
    and its reset is rejected, [checkDevicePasscodeAvailability] resolves to
    [false] although the entry was sealed under the device passcode, and
    the entry stays in the keychain; when the reset is accepted too it
    resolves to [true] and the entry is gone. *)
Theorem checkDevicePasscodeAvailability_probe (w : World) :
  Platform_OS D = android ->
  supportedBiometry D (ticks w) = inr None ->
  native_fault D (S (S (ticks w))) = None ->
  let testKey := "test_passcode_" +:+ pretty (Date_getTime D (S (ticks w))) in
  exists r w',
    checkDevicePasscodeAvailability D w = (Normal r, w')
    /\ match native_fault D (S (S (S (ticks w)))) with
       | Some _ =>
           r = false
           /\ keychain w' !! testKey
              = Some {| item_username := "test"; item_password := "test";
                        item_accessControl := Some DEVICE_PASSCODE |}
       | None => r = true /\ keychain w' !! testKey = None
       end.
Proof.
  intros Hos Hbio Hset testKey. run_probe. rewrite Hos, Hbio.
  cbv beta iota. rewrite bool_decide_eq_false_2 by (by intros [? [=]]).
  cbn [ticks]. rewrite Hset. cbv beta iota. cbn [ticks].
  destruct (native_fault D (S (S (S (ticks w))))); do 2 eexists;
    (split; [reflexivity|]); cbn [keychain]; (split; [done|]).
  - apply lookup_insert_eq.
  - apply lookup_delete_eq.
Qed.

End ProbeProperties.

Ltac run_ui :=
  cbv [toggleAppSecurity authenticateAndToggle saveSecuritySetting
       setAuthenticating handleSave validateInput loadItems clearForm
       setItems setRefreshing Home_setLoading
       ui_bind ui_ret ui_try_catch ui_finally call set_state get_state
       Alert_alert console_error ret throw emit];
  cbn [mmkv keychain ticks trace
       Settings.securityStorage Settings.appSecurityEnabled
       Settings.authenticating Settings.lockscreenEnabled
       Home.items Home.loading Home.refreshing Home.itemKey Home.username
       Home.password Home.useBiometrics Home.useDevicePasscode
       Home.expandSecurityOptions].

Ltac run_detail :=
  cbv [toggleSecurityOption setUseBiometrics setUseDevicePasscode
       ui_bind ui_ret call set_state get_state
       storage_getString storage_set JSON_parse lift set_prop
       Alert_alert ret throw emit set_mmkv];
  cbn [mmkv keychain ticks trace
       Detail.loading Detail.credential Detail.showPassword
       Detail.biometricsAvailable Detail.passcodeAvailable
       Detail.useBiometrics Detail.useDevicePasscode Detail.biometryType].

(** ** Screens *)

Section ScreenProperties.

Context {J : JSON} {L : JSONLaws J} {T : StringTrim} (E : Env).

(** X16. The app security switch is guarded by authentication: when the
    switch is turned off, or turned on on a device with a lock screen, the
    handler resolves with [authenticating] reset, and the persisted flag
    and the state of the switch change, to the new value, only if exactly
    one challenge was put to the user and passed; otherwise both are as
    they were.  The next launch then starts at [Auth] when the flag was
    turned on and at [Home] when it was turned off. *)
Theorem toggleAppSecurity_authenticated (value : bool)
    (choice : Settings.WarningChoice) (s : Settings.State) (w : World) :
  value = false \/ Settings.lockscreenEnabled s = true ->
  exists s' w',
    toggleAppSecurity E value choice s w = (Normal tt, s', w')
    /\ Settings.authenticating s' = false
    /\ ((Settings.securityStorage s'
         = <["appSecurityEnabled" := value]> (Settings.securityStorage s)
         /\ Settings.appSecurityEnabled s' = value
         /\ initialRouteName (Settings.securityStorage s')
            = (if value then "Auth" else "Home")
         /\ challenge_count (trace w') = S (challenge_count (trace w))
         /\ exists n, ticks w < n /\ challenge E n = Authenticated)
        \/ (Settings.securityStorage s' = Settings.securityStorage s
            /\ Settings.appSecurityEnabled s' = Settings.appSecurityEnabled s)).
Proof.
  intros Hguard.
  assert (value && negb (Settings.lockscreenEnabled s) = false) as Hcond.
  { destruct Hguard as [->| ->]; [done|]. by rewrite andb_false_r. }
  set (opts :=
         {| Lockscreen.promptMessage :=
              Some (if value then "Authenticate to enable app security"
                    else "Authenticate to disable app security");
            Lockscreen.cancelButtonText := None;
            Lockscreen.fallbackToPasscode := Some true |}).
  destruct (authenticateWithLockscreen_resolves E opts w) as (b & w1 & Hauth).
  assert (toggleAppSecurity E value choice s w
          = authenticateAndToggle E value s w) as ->.
  { unfold toggleAppSecurity, ui_bind, get_state. rewrite Hcond.
    by destruct value. }
  run_ui. fold opts. rewrite Hauth.
  destruct b.
  - apply authenticateWithLockscreen_challenged in Hauth as (Hc & Hn & _).
    destruct value; do 2 eexists; (split; [reflexivity|]);
      cbn -[challenge_count];
      (split; [done|]); left; unfold initialRouteName;
      rewrite lookup_insert_eq; split_and!; try done;
      rewrite challenge_count_app, Hc; cbn; lia.
  - do 2 eexists. split; [reflexivity|]. cbn. split; [done|]. by right.
Qed.

(** X17. The one way around the guard: when the switch is turned on on a
    device that reported no lock screen, no authentication is made at all;
    the flag is persisted as soon as the user presses [Enable Anyway], and
    nothing changes if the warning is dismissed. *)
Theorem toggleAppSecurity_unguarded (choice : Settings.WarningChoice)
    (s : Settings.State) (w : World) :
  Settings.lockscreenEnabled s = false ->
  exists s' w',
    toggleAppSecurity E true choice s w = (Normal tt, s', w')
    /\ challenge_count (trace w') = challenge_count (trace w)
    /\ mmkv w' = mmkv w /\ keychain w' = keychain w
    /\ match choice with
       | Settings.EnableAnyway =>
           Settings.securityStorage s' !! "appSecurityEnabled" = Some true
           /\ Settings.appSecurityEnabled s' = true
           /\ initialRouteName (Settings.securityStorage s') = "Auth"
       | Settings.Dismiss => s' = s
       end.
Proof.
  intros Hno. run_ui. rewrite Hno. cbn.
  destruct choice; do 2 eexists; (split; [reflexivity|]);
    cbn -[challenge_count]; rewrite ?challenge_count_app; cbn;
    split_and!; try done; try lia.
  - apply lookup_insert_eq.
  - unfold initialRouteName. by rewrite lookup_insert_eq.
Qed.

(** X18. A blank form is turned away at the door, whatever the engine's
    [trim] takes for white space: when [String.prototype.trim] leaves
    nothing of the name, the username or the password, the Save handler
    shows one error dialog and returns, with the form, MMKV and the
    keychain as they were and no native call made. *)
Theorem handleSave_blank (choice : Home.ExistsChoice) (s : Home.State)
    (w : World) :
  ~ form_valid s ->
  exists text, handleSave E choice s w = (Normal tt, s, emit (Alert "Error" text) w).
Proof.
  intros Hbad. unfold form_valid in Hbad. run_ui.
  destruct (truthy_string (trim (Home.itemKey s))); [|by eexists].
  destruct (truthy_string (trim (Home.username s))); [|by eexists].
  destruct (truthy_string (trim (Home.password s))); [|by eexists].
  by destruct Hbad.
Qed.

(** X19. The Save handler does not overwrite a record behind the user's
    back: for a valid form whose name is already in the index it only
    shows the dialog; with [Cancel] it returns with MMKV and the keychain
    as they were, the form kept and no native call made, and with [Update]
    the stores end as [updateCredential], called with the fields and the
    two flags of the form, leaves them. *)
Theorem handleSave_existing_key (s : Home.State) (w : World)
    (keys : list string) :
  form_valid s ->
  getItemsList w = (Normal (JArray (JString <$> keys)), w) ->
  Home.itemKey s ∈ keys ->
  (exists s',
      handleSave E Home.Cancel s w = (Normal tt, s', emit exists_dialog w)
      /\ Home.loading s' = false
      /\ Home.itemKey s' = Home.itemKey s
      /\ Home.username s' = Home.username s
      /\ Home.password s' = Home.password s)
  /\ (exists b w1 s' w',
        updateCredential E (Home.itemKey s) (Home.username s)
          (Home.password s) (form_options s) (emit exists_dialog w)
        = (Normal b, w1)
        /\ handleSave E Home.Update s w = (Normal tt, s', w')
        /\ mmkv w' = mmkv w1 /\ keychain w' = keychain w1).
Proof.
  intros (Hk & Hu & Hp) Hidx Hin.
  assert (getItemsList w = (Normal (JArray (JString <$> keys)), w)) as Hidx'
    by done.
  split.
  - run_ui. rewrite Hk, Hu, Hp. cbn [negb]. rewrite Hidx.
    rewrite existsb_strict_eq_keys, bool_decide_eq_true_2 by done.
    eexists. split; [reflexivity|]. done.
  - destruct (updateCredential_resolves E (Home.itemKey s) (Home.username s)
                (Home.password s) (form_options s) (emit exists_dialog w))
      as (b & w1 & Hupd).
    exists b, w1. run_ui. rewrite Hk, Hu, Hp. cbn [negb]. rewrite Hidx.
    rewrite existsb_strict_eq_keys, bool_decide_eq_true_2 by done.
    unfold form_options, exists_dialog, emit in Hupd. rewrite Hupd.
    destruct b.
    + rewrite getItemsList_read. cbn [mmkv].
      destruct (read_index _); do 2 eexists; (split; [done|]);
        (split; [reflexivity|]); done.
    + do 2 eexists. split; [done|]. split; [reflexivity|]. done.
Qed.


(** X20. Saving a new name from the form: for a valid form whose name is
    not in the index, on a device whose keychain accepts the write, the
    Save handler seals the username and password of the form under the
    policy of its two switches, whichever button [choice] stands for, and
    returns with the form cleared and the list it shows reloaded, the new
    name at its end. *)
Theorem handleSave_new_key (choice : Home.ExistsChoice) (s : Home.State)
    (w : World) (keys : list string) :
  form_valid s ->
  getItemsList w = (Normal (JArray (JString <$> keys)), w) ->
  Home.itemKey s ∉ keys ->
  native_fault E (S (S (ticks w))) = None ->
  exists s' w',
    handleSave E choice s w = (Normal tt, s', w')
    /\ keychain w' !! (SERVICE +:+ "." +:+ Home.itemKey s)
       = Some {| item_username := Home.username s;
                 item_password := Home.password s;
                 item_accessControl :=
                   accessControl
                     (saveCredential_keychainOptions E (Home.itemKey s)
                        (form_options s)) |}
    /\ Home.items s' = JArray (JString <$> keys ++ [Home.itemKey s])
    /\ Home.itemKey s' = EmptyString
    /\ Home.username s' = EmptyString
    /\ Home.password s' = EmptyString
    /\ Home.useBiometrics s' = false
    /\ Home.useDevicePasscode s' = false
    /\ Home.loading s' = false.
Proof.
  intros (Hk & Hu & Hp) Hidx Hnew Hfault.
  destruct (saveCredential_indexed E (Home.itemKey s) (Home.username s)
              (Home.password s) (form_options s) w keys Hfault Hidx)
    as (w1 & Hsave & [_ Hkc _ _ _] & Hidx1).
  rewrite bool_decide_eq_false_2 in Hidx1 by done.
  rewrite getItemsList_read in Hidx1. injection Hidx1 as Hidx1.
  run_ui. rewrite Hk, Hu, Hp. cbn [negb]. rewrite Hidx.
  rewrite existsb_strict_eq_keys, bool_decide_eq_false_2 by done.
  unfold form_options in Hsave. rewrite Hsave.
  rewrite getItemsList_read. cbn [mmkv]. rewrite Hidx1.
  do 2 eexists. split; [reflexivity|]. cbn.
  split_and!; try done. by rewrite Hkc, lookup_insert_eq.
Qed.

(** X22. The form of HomeScreen cannot select both protections: whatever
    it showed before, after either of its two switches is flipped at most
    one of the two flags is set, and a save under the options of the form
    does not seal under [BIOMETRY_ANY_OR_DEVICE_PASSCODE], on either
    platform. *)
Theorem form_switches_exclusive (value : bool) (s : Home.State) (k : string) :
  let s1 := onUseBiometricsChange value s in
  let s2 := onUseDevicePasscodeChange value s in
  Home.useBiometrics s1 && Home.useDevicePasscode s1 = false
  /\ Home.useBiometrics s2 && Home.useDevicePasscode s2 = false
  /\ accessControl (saveCredential_keychainOptions E k (form_options s1))
     <> Some BIOMETRY_ANY_OR_DEVICE_PASSCODE
  /\ accessControl (saveCredential_keychainOptions E k (form_options s2))
     <> Some BIOMETRY_ANY_OR_DEVICE_PASSCODE.
Proof.
  unfold saveCredential_keychainOptions. cbn.
  destruct value, (Home.useBiometrics s), (Home.useDevicePasscode s),
    (is_android E); cbn; done.
Qed.

(** X23. Loading the list always settles: [loadItems] resolves with
    [loading] and [refreshing] cleared and the form and both stores as they
    were; the list shown is the index when the index can be read, and when
    it cannot the list shown stays and one error dialog follows the log
    entry. *)
Theorem loadItems_settles (s : Home.State) (w : World) :
  exists s' w',
    loadItems s w = (Normal tt, s', w')
    /\ Home.loading s' = false /\ Home.refreshing s' = false
    /\ mmkv w' = mmkv w /\ keychain w' = keychain w
    /\ Home.itemKey s' = Home.itemKey s
    /\ Home.username s' = Home.username s
    /\ Home.password s' = Home.password s
    /\ match read_index (mmkv w !! "itemsList") with
       | Normal itemsList => Home.items s' = itemsList /\ w' = w
       | Throw e =>
           Home.items s' = Home.items s
           /\ trace w'
              = trace w
                ++ [ConsoleError "Error loading items:" e;
                    Alert "Error" "Failed to load saved credentials"]
       end.
Proof.
  run_ui. rewrite getItemsList_read. cbn [mmkv].
  destruct (read_index _); do 2 eexists; (split; [reflexivity|]); cbn;
    split_and!; try done.
  by rewrite <- app_assoc.
Qed.

(** X24. On CredentialDetailScreen both protections can be selected, one
    after the other: when a switch is turned on while the other one is on,
    for a loaded credential whose update succeeds, the screen shows the
    other switch turned off, but the secret is resealed under
    [BIOMETRY_ANY_OR_DEVICE_PASSCODE] and the metadata mirror holds both
    flags. *)
Theorem toggleSecurityOption_both (k : string)
    (option : Detail.SecurityOption) (s : Detail.State) (c : Credential)
    (w w1 : World) :
  Detail.credential s = Some c ->
  match option with
  | Detail.biometrics => Detail.useDevicePasscode s
  | Detail.passcode => Detail.useBiometrics s
  end = true ->
  updateCredential E k (username_of c) (password_of c)
    (switch_options option true s) w
  = (Normal true, w1) ->
  exists s' w',
    toggleSecurityOption E k option true s w = (Normal tt, s', w')
    /\ Detail.useBiometrics s'
       = match option with
         | Detail.biometrics => true
         | Detail.passcode => false
         end
    /\ Detail.useDevicePasscode s' = negb (Detail.useBiometrics s')
    /\ keychain w' !! (SERVICE +:+ "." +:+ k)
       = Some {| item_username := username_of c;
                 item_password := password_of c;
                 item_accessControl := Some BIOMETRY_ANY_OR_DEVICE_PASSCODE |}
    /\ exists props,
         mmkv w' !! ("metadata_" +:+ k) = Some (stringify (JObject props))
         /\ assoc "useBiometrics" props = Some (JBool true)
         /\ assoc "useDevicePasscode" props = Some (JBool true).
Proof.
  intros Hcred Hother Hupd.
  pose proof Hupd as (w0 & Hsave & _ & _)%updateCredential_true.
  apply saveCredential_true in Hsave as [_ [Hmeta Hkc _ _ _]].
  run_detail. rewrite Hcred.
  unfold switch_options in Hupd, Hmeta, Hkc.
  destruct option; cbn [andb]; rewrite Hother in *; rewrite Hupd;
    cbn [negb mmkv]; rewrite Hmeta, stringify_truthy, parse_stringify;
    cbn; do 2 eexists; (split; [reflexivity|]); cbn;
    (split_and!; try done);
    try (rewrite Hkc, lookup_insert_eq; do 2 f_equal;
         unfold saveCredential_keychainOptions; cbn;
         by destruct (is_android E));
    eexists; (split; [apply lookup_insert_eq|]); done.
Qed.

End ScreenProperties.

Ltac run_load :=
  cbv [loadCredential loadWithAuthentication
       Detail_setLoading setCredential setShowPassword
       setUseBiometrics setUseDevicePasscode
       ui_bind ui_ret ui_try_catch ui_finally call set_state get_state
       storage_getString JSON_parse lift get_prop
       Alert_alert console_error ret throw emit];
  cbn [mmkv keychain ticks trace
       Detail.loading Detail.credential Detail.showPassword
       Detail.biometricsAvailable Detail.passcodeAvailable
       Detail.useBiometrics Detail.useDevicePasscode Detail.biometryType].

(** Replaces a [getCredential] made in [w0] by the answer [Hget] gives. *)
Ltac get_at Hget w0 Hm Hk :=
  match goal with
  | |- context [getCredential _ _ ?o w0] =>
      let r := fresh "r" in
      let w' := fresh "w'" in
      let Hm' := fresh "Hm" in
      let Hk' := fresh "Hk" in
      let Ht := fresh "Ht" in
      let Hc := fresh "Hc" in
      destruct (Hget o w0 Hm Hk) as (r & w' & -> & Hm' & Hk' & -> & Ht & Hc)
  end.

(** Replaces a run of [loadWithAuthentication] made in [w0] by what
    [Hload] says of it. *)
Ltac load_at Hload w0 Hm Hk :=
  match goal with
  | |- context [loadWithAuthentication _ _ ?s0 w0] =>
      let s' := fresh "s'" in
      let w' := fresh "w'" in
      let Hl := fresh "Hl" in
      let Hm' := fresh "Hm" in
      let Hk' := fresh "Hk" in
      let Hb := fresh "Hb" in
      let Hd := fresh "Hd" in
      let Hc := fresh "Hc" in
      let Hres := fresh "Hres" in
      destruct (Hload s0 w0 Hm Hk)
        as (s' & w' & -> & Hl & Hm' & Hk' & Hb & Hd & Hc & Hres)
  end.

Ltac run_loadCredential :=
  cbv [loadCredential Detail_setLoading setCredential
       setUseBiometrics setUseDevicePasscode
       ui_bind ui_ret ui_try_catch ui_finally call set_state get_state
       storage_getString JSON_parse lift get_prop
       Alert_alert console_error ret throw emit];
  cbn [mmkv keychain ticks trace
       Detail.loading Detail.credential Detail.showPassword
       Detail.biometricsAvailable Detail.passcodeAvailable
       Detail.useBiometrics Detail.useDevicePasscode Detail.biometryType].

(** ** CredentialDetailScreen: loading the record *)

Section DetailProperties.

Context {J : JSON} {L : JSONLaws J} (E : Env).

(** A get of a record whose mirror and secret are known. *)
Lemma getCredential_sealed (k u p : string) (props : list (string * json))
    (ac : option ACCESS_CONTROL) (gopts : CredentialOptions) (w : World) :
  mmkv w !! ("metadata_" +:+ k) = Some (stringify (JObject props)) ->
  keychain w !! (SERVICE +:+ "." +:+ k)
  = Some {| item_username := u; item_password := p;
            item_accessControl := ac |} ->
  let c := {| service_of := SERVICE +:+ "." +:+ k; username_of := u;
              password_of := p; metadata_of := JObject props |} in
  exists r w',
    getCredential E k gopts w = (Normal r, w')
    /\ mmkv w' = mmkv w /\ keychain w' = keychain w
    /\ match ac with
       | None =>
           r = Some c /\ ticks w' = ticks w
           /\ challenge_count (trace w') = challenge_count (trace w)
       | Some _ =>
           r = match challenge E (ticks w) with
               | Authenticated => Some c
               | _ => None
               end
           /\ ticks w' = S (ticks w)
           /\ challenge_count (trace w') = S (challenge_count (trace w))
       end.
Proof.
  intros Hmeta Hit c. run. rewrite Hmeta, stringify_truthy, parse_stringify.
  cbn [get_prop]. rewrite service_getCredential_keychainOptions, Hit.
  cbn [item_accessControl item_username item_password].
  destruct ac as [ac|].
  - destruct (challenge E (ticks w)); cbn [trace]; repeat case_match;
      do 2 eexists; (split; [reflexivity|]); cbn [trace mmkv keychain ticks];
      rewrite !challenge_count_app; cbn; split_and!; try done; try lia.
  - do 2 eexists. split; [reflexivity|]. cbn [trace mmkv keychain ticks].
    rewrite !challenge_count_app. cbn. split_and!; try done; try lia.
Qed.


(** One run of [loadWithAuthentication] on a record whose mirror and
    secret are known. *)
Lemma loadWithAuthentication_sealed (k u p : string)
    (props : list (string * json)) (ac : option ACCESS_CONTROL)
    (s : Detail.State) (w : World) :
  mmkv w !! ("metadata_" +:+ k) = Some (stringify (JObject props)) ->
  keychain w !! (SERVICE +:+ "." +:+ k)
  = Some {| item_username := u; item_password := p;
            item_accessControl := ac |} ->
  exists s' w',
    loadWithAuthentication E k s w = (Normal tt, s', w')
    /\ Detail.loading s' = false
    /\ mmkv w' = mmkv w /\ keychain w' = keychain w
    /\ Detail.useBiometrics s' = Detail.useBiometrics s
    /\ Detail.useDevicePasscode s' = Detail.useDevicePasscode s
    /\ challenge_count (trace w')
       = match ac with
         | Some _ => S (challenge_count (trace w))
         | None => challenge_count (trace w)
         end
    /\ match ac, challenge E (ticks w) with
       | Some _, Dismissed | Some _, Rejected _ =>
           Detail.credential s' = Detail.credential s
           /\ Detail.showPassword s' = Detail.showPassword s
       | _, _ => shows s' u p /\ Detail.showPassword s' = true
       end.
Proof.
  intros Hmeta Hit.
  pose proof (fun gopts => getCredential_sealed k u p props ac gopts w
                             Hmeta Hit) as Hget.
  cbv zeta in Hget. unfold shows.
  run_load. rewrite Hmeta, stringify_truthy, parse_stringify.
  cbv beta iota.
  match goal with
  | |- context [getCredential _ _ ?o w] =>
      destruct (Hget o) as (r & w' & -> & Hm & Hk & Hres)
  end.
  destruct ac as [ac|].
  - destruct Hres as (-> & _ & Hc).
    destruct (challenge E (ticks w)), (is_android E);
      do 2 eexists; (split; [reflexivity|]);
      cbn -[challenge_count]; rewrite ?challenge_count_app;
      split_and!; try done; try (cbn; lia); by eauto.
  - destruct Hres as (-> & _ & Hc).
    do 2 eexists; (split; [reflexivity|]); cbn -[challenge_count].
    split_and!; try done.
    destruct (challenge E (ticks w)); by eauto.
Qed.

(** X25. Opening the detail screen of a saved record, on a screen that
    holds no credential yet: [loadCredential] resolves with [loading]
    cleared, the two switches set from the metadata mirror and both stores
    as they were.  A record of the policy None is shown without a
    challenge.  A protected record is shown only after a passed challenge:
    on Android one challenge is put to the user, and on iOS a first
    challenge that is not passed is followed at once by a second one; the
    password is revealed at once when the credential came from
    [loadWithAuthentication]. *)
Theorem loadCredential_gated (k u p : string) (opts : CredentialOptions)
    (s : Detail.State) (w w1 : World) :
  saveCredential E k u p opts w = (Normal true, w1) ->
  Detail.credential s = None ->
  exists s' w2,
    loadCredential E k s w1 = (Normal tt, s', w2)
    /\ Detail.loading s' = false
    /\ mmkv w2 = mmkv w1 /\ keychain w2 = keychain w1
    /\ Detail.useBiometrics s' = default false (useBiometrics opts)
    /\ Detail.useDevicePasscode s' = default false (useDevicePasscode opts)
    /\ (policy_None opts ->
        challenge_count (trace w2) = challenge_count (trace w1)
        /\ shows s' u p)
    /\ (~ policy_None opts -> is_android E = true ->
        challenge_count (trace w2) = S (challenge_count (trace w1))
        /\ match challenge E (ticks w1) with
           | Authenticated => shows s' u p /\ Detail.showPassword s' = true
           | _ => Detail.credential s' = None
           end)
    /\ (~ policy_None opts -> is_android E = false ->
        match challenge E (ticks w1) with
        | Authenticated =>
            challenge_count (trace w2) = S (challenge_count (trace w1))
            /\ shows s' u p
            /\ Detail.showPassword s' = Detail.showPassword s
        | _ =>
            challenge_count (trace w2) = S (S (challenge_count (trace w1)))
            /\ match challenge E (S (ticks w1)) with
               | Authenticated =>
                   shows s' u p /\ Detail.showPassword s' = true
               | _ => Detail.credential s' = None
               end
        end).
Proof.
  intros [_ [Hmeta Hkc _ _ _]]%saveCredential_true Hnone.
  assert (keychain w1 !! (SERVICE +:+ "." +:+ k)
          = Some {| item_username := u; item_password := p;
                    item_accessControl :=
                      accessControl (saveCredential_keychainOptions E k opts) |})
    as Hit by (by rewrite Hkc, lookup_insert_eq).
  clear Hkc. unfold saveCredential_metadata in Hmeta.
  pose proof (fun gopts w0 Hm Hk =>
                getCredential_sealed k u p _ _ gopts w0
                  (eq_trans (f_equal (fun m => m !! _) Hm) Hmeta)
                  (eq_trans (f_equal (fun m => m !! _) Hk) Hit)) as Hget.
  pose proof (fun s0 w0 Hm Hk =>
                loadWithAuthentication_sealed k u p _ _ s0 w0
                  (eq_trans (f_equal (fun m => m !! _) Hm) Hmeta)
                  (eq_trans (f_equal (fun m => m !! _) Hk) Hit)) as Hload.
  cbv zeta in Hget. unfold saveCredential_keychainOptions in Hget, Hload.
  run_loadCredential. rewrite Hmeta, stringify_truthy, parse_stringify.
  cbn [assoc String.eqb Ascii.eqb Bool.eqb truthy_opt truthy].
  unfold policy_None.
  destruct (default false (useBiometrics opts)) eqn:Hub,
    (default false (useDevicePasscode opts)) eqn:Hud,
    (is_android E) eqn:Hos;
    cbn [andb orb negb] in *; cbv beta iota.
  all: first
         [ load_at Hload w1 (@eq_refl _ (mmkv w1)) (@eq_refl _ (keychain w1))
         | get_at Hget w1 (@eq_refl _ (mmkv w1)) (@eq_refl _ (keychain w1)) ].
  all: destruct (challenge E (ticks w1)) eqn:Hfirst;
    try change (bool_decide (is_Some (@None Credential))) with false;
    cbn [andb negb]; cbv beta iota.
  all: try (load_at Hload w' Hm Hk; rewrite Ht in Hres;
            destruct (challenge E (S (ticks w1))) eqn:Hsecond).
  all: do 2 eexists; (split; [reflexivity|]); cbn -[challenge_count] in *.
  all: split_and!; try done; try congruence.
  all: try by intros [[=] _].
  all: try by intros [_ [=]].
  all: try by (intros Hn; destruct Hn).
  all: intros; try rewrite Hfirst; try rewrite Hsecond.
  all: repeat match goal with H : _ /\ _ |- _ => destruct H end.
  all: split_and?; try done; try lia; try congruence; eauto.
  all: by eexists.
Qed.
End DetailProperties.

Ltac run_auth_screen :=
  cbv [checkAppSecurity authenticateUser proceedToApp
       Auth_setLoading setBiometricInfo Auth_setLockscreenEnabled
       setAppLocked Auth_setAuthenticating setAuthAttempts navigation_replace
       ui_bind ui_ret ui_try_catch ui_finally call set_state get_state
       Alert_alert console_error ret throw emit];
  cbn [mmkv keychain ticks trace
       Auth.loading Auth.biometricInfo Auth.lockscreenEnabled Auth.appLocked
       Auth.authenticating Auth.authAttempts Auth.securityStorage Auth.route].

(** ** LockscreenAuthScreen: the lock of the application *)

Section AuthScreenProperties.

Context (D : Device).

(** The lock-screen probe resolves without a challenge. *)
Lemma isLockscreenEnabled_quiet (w : World) :
  exists b w',
    isLockscreenEnabled D w = (Normal b, w')
    /\ challenge_count (trace w') = challenge_count (trace w)
    /\ ticks w <= ticks w'.
Proof.
  run_probe.
  destruct (Platform_OS D).
  { destruct (canImplyAuthentication D (ticks w)); do 2 eexists;
      (split; [reflexivity|]); cbn -[challenge_count];
      rewrite ?challenge_count_app; cbn; lia. }
  destruct (supportedBiometry D (ticks w)) as [e|[t|]].
  1,2: do 2 eexists; (split; [reflexivity|]); cbn -[challenge_count];
      rewrite ?challenge_count_app; cbn; lia.
  cbv beta iota. rewrite bool_decide_eq_false_2 by (by intros [? [=]]).
  cbn [ticks].
  destruct (native_fault D (S (S (ticks w)))) as [msg|].
  { cbn [message]. destruct (truthy_string msg && _); do 2 eexists;
      (split; [reflexivity|]); cbn -[challenge_count];
      rewrite ?challenge_count_app; cbn; lia. }
  cbv beta iota. cbn [ticks].
  destruct (native_fault D (S (S (S (ticks w))))) as [msg|].
  { cbn [message]. destruct (truthy_string msg && _); do 2 eexists;
      (split; [reflexivity|]); cbn -[challenge_count];
      rewrite ?challenge_count_app; cbn; lia. }
  do 2 eexists; (split; [reflexivity|]); cbn -[challenge_count];
      rewrite ?challenge_count_app; cbn; lia.
Qed.

(** The lock-screen probe leaves MMKV and the credentials alone. *)
Lemma isLockscreenEnabled_contained (w w' : World) (r : Completion bool) :
  isLockscreenEnabled D w = (r, w') ->
  mmkv w' = mmkv w
  /\ forall k,
       keychain w' !! (SERVICE +:+ "." +:+ k)
       = keychain w !! (SERVICE +:+ "." +:+ k).
Proof.
  intros [Hm Hk]%keeps_isLockscreenEnabled. split; [done|].
  intros k. apply Hk. intros Hp. by eapply probeKey_not_service.
Qed.

(** What one run of [authenticateUser] leaves, when none is under way. *)
Lemma authenticateUser_outcome (s : Auth.State) (w : World) :
  Auth.authenticating s = false ->
  exists b w' s',
    authenticateWithLockscreen D (unlock_options D) w = (Normal b, w')
    /\ authenticateUser D s w
       = (Normal tt, s',
          if b then w'
          else emit (if is_android D
                     then Alert "Authentication Required"
                            "You need to verify your identity to access your credentials."
                     else Alert "Authentication Failed"
                            "Please try again to access your credentials.") w')
    /\ Auth.loading s' = Auth.loading s
    /\ Auth.lockscreenEnabled s' = Auth.lockscreenEnabled s
    /\ Auth.authAttempts s' = Auth.authAttempts s + 1
    /\ if b then Auth.route s' = "Home" /\ Auth.appLocked s' = false
       else Auth.route s' = Auth.route s
            /\ Auth.appLocked s' = Auth.appLocked s
            /\ Auth.authenticating s' = false.
Proof.
  intros Hidle.
  destruct (authenticateWithLockscreen_resolves D (unlock_options D) w)
    as (b & w' & Hauth).
  exists b, w'. pose proof Hauth as Hrun. unfold unlock_options in Hrun.
  run_auth_screen. rewrite Hidle, Hrun.
  destruct b; [|destruct (is_android D)]; eexists;
    (split; [exact Hauth|]); (split; [reflexivity|]); done.
Qed.

(** X26. The lock of the application opens only for the user: one run of
    [authenticateUser], started when none is under way, resolves, counts
    one more attempt and leaves MMKV and the secret of every credential as
    they were; the screen is replaced by [Home], and [appLocked] cleared,
    only if exactly one challenge was put to the user and passed, and
    otherwise the lock stays as it was with [authenticating] reset. *)
Theorem authenticateUser_unlocks (s : Auth.State) (w : World) :
  Auth.authenticating s = false ->
  Auth.route s <> "Home" ->
  exists s' w',
    authenticateUser D s w = (Normal tt, s', w')
    /\ mmkv w' = mmkv w
    /\ (forall k,
          keychain w' !! (SERVICE +:+ "." +:+ k)
          = keychain w !! (SERVICE +:+ "." +:+ k))
    /\ Auth.authAttempts s' = Auth.authAttempts s + 1
    /\ (Auth.route s' = "Home" ->
        Auth.appLocked s' = false
        /\ challenge_count (trace w') = S (challenge_count (trace w))
        /\ exists n, ticks w < n /\ challenge D n = Authenticated)
    /\ (Auth.route s' <> "Home" ->
        Auth.appLocked s' = Auth.appLocked s
        /\ Auth.authenticating s' = false).
Proof.
  intros Hidle Hroute.
  destruct (authenticateUser_outcome s w Hidle)
    as (b & w1 & s' & Hauth & Hrun & _ & _ & Hn & Hres).
  pose proof (keeps_authenticateWithLockscreen D _ _ _ _ Hauth) as [Hm Hk].
  do 2 eexists. split; [exact Hrun|].
  assert (forall k,
             keychain w1 !! (SERVICE +:+ "." +:+ k)
             = keychain w !! (SERVICE +:+ "." +:+ k)) as Hcred.
  { intros k. apply Hk. intros [t Ht]. by eapply tempKey_not_service. }
  destruct b.
  - apply authenticateWithLockscreen_challenged in Hauth as (Hc & Hpass & _).
    destruct Hres as [Hhome Hlock]. split_and!; try done.
  - destruct Hres as (Hr & Hlock & Hidle').
    split_and!; try done; destruct (is_android D); try done.
    all: by rewrite Hr.
Qed.

(** X27. What the lock screen does when it is mounted: [checkAppSecurity]
    resolves with [loading] cleared and MMKV and the secret of every
    credential as they were.  With the flag of the app lock off or never
    stored it goes to [Home] at once, with no native call.  With the flag
    on it reaches [Home] only after one passed challenge, or, when the
    probe reported no lock screen, as soon as the user presses [Proceed
    Anyway], without any challenge; and that press always reaches
    [Home]. *)
Theorem checkAppSecurity_gate (proceed : bool) (s : Auth.State) (w : World) :
  Auth.authenticating s = false ->
  Auth.route s <> "Home" ->
  exists s' w',
    checkAppSecurity D proceed s w = (Normal tt, s', w')
    /\ Auth.loading s' = false
    /\ mmkv w' = mmkv w
    /\ (forall k,
          keychain w' !! (SERVICE +:+ "." +:+ k)
          = keychain w !! (SERVICE +:+ "." +:+ k))
    /\ (app_lock_on s = false ->
        Auth.route s' = "Home" /\ Auth.appLocked s' = false /\ w' = w)
    /\ (app_lock_on s = true ->
        Auth.route s' = "Home" ->
        (challenge_count (trace w') = S (challenge_count (trace w))
         /\ exists n, ticks w < n /\ challenge D n = Authenticated)
        \/ (Auth.lockscreenEnabled s' = false /\ proceed = true
            /\ challenge_count (trace w') = challenge_count (trace w)))
    /\ (app_lock_on s = true ->
        Auth.lockscreenEnabled s' = false -> proceed = true ->
        Auth.route s' = "Home").
Proof.
  intros Hidle Hroute. unfold app_lock_on.
  unfold checkAppSecurity, ui_bind at 1 2, Auth_setLoading at 1,
    set_state at 1, get_state at 1.
  cbn [Auth.securityStorage].
  destruct (default false (Auth.securityStorage s !! "appSecurityEnabled")).
  2: { run_auth_screen. do 2 eexists. split; [reflexivity|]. cbn.
       split_and!; done. }
  cbn [negb].
  destruct (getBiometricInfo_resolves D w)
    as (info & w1 & Hinfo & Hm1 & Hk1 & Ht1 & Hc1 & _).
  destruct (isLockscreenEnabled_quiet w1) as (lock & w2 & Hlock & Hc2 & Ht2).
  pose proof (isLockscreenEnabled_contained _ _ _ Hlock) as [Hm2 Hk2].
  unfold ui_bind at 1, call at 1. rewrite Hinfo.
  unfold ui_bind at 1, setBiometricInfo at 1, set_state at 1.
  unfold ui_bind at 1, call at 1. rewrite Hlock.
  unfold ui_bind at 1, Auth_setLockscreenEnabled at 1, set_state at 1.
  destruct lock; cbn [negb]; cbv beta iota.
  - unfold ui_bind at 1.
    match goal with
    | |- context [authenticateUser D ?s0 w2] =>
        destruct (authenticateUser_outcome s0 w2 Hidle)
          as (b & w3 & s' & Hauth & Hrun & Hl & Hle & _ & Hres)
    end.
    rewrite Hrun. run_auth_screen.
    pose proof (keeps_authenticateWithLockscreen D _ _ _ _ Hauth) as [Hm3 Hk3].
    assert (forall k,
               keychain w3 !! (SERVICE +:+ "." +:+ k)
               = keychain w !! (SERVICE +:+ "." +:+ k)) as Hcred.
    { intros k. rewrite Hk3, Hk2, Hk1; [done|].
      intros [t Ht]. by eapply tempKey_not_service. }
    do 2 eexists. split; [reflexivity|]. cbn -[challenge_count].
    cbn [Auth.lockscreenEnabled] in Hle.
    destruct b.
    + apply authenticateWithLockscreen_challenged in Hauth as (Hc & Hpass & _).
      destruct Hpass as (n & Hn & Hpass).
      split_and!; try done; try congruence.
      intros _ _. left. split; [lia|]. exists n. split; [lia|done].
    + destruct Hres as (Hr & _ & _). cbn [Auth.route] in Hr.
      destruct (is_android D); cbn -[challenge_count];
        split_and!; try done; try congruence.
      all: by rewrite Hle.
  - run_auth_screen. destruct proceed; do 2 eexists;
      (split; [reflexivity|]); cbn -[challenge_count];
      rewrite ?challenge_count_app; cbn -[challenge_count];
      split_and!; try done; try congruence.
    + intros _ _. right. split_and!; try done. cbn. lia.
Qed.
End AuthScreenProperties.

(** ** Writes put no challenge *)

Section QuietProperties.

Context {J : JSON} {L : JSONLaws J} (E : Env).

Lemma quiet_ret {A} (a : A) : quiet (ret a).
Proof. by intros w r w' [= <- <-]. Qed.

Lemma quiet_throw {A} (e : Error) : quiet (throw (A := A) e).
Proof. by intros w r w' [= <- <-]. Qed.

Lemma quiet_bind {A B} (m : M A) (k : A -> M B) :
  quiet m -> (forall a, quiet (k a)) -> quiet (bind m k).
Proof.
  intros Hm Hk w r w'. unfold bind.
  destruct (m w) as [[a|e] w1] eqn:Hmw; pose proof (Hm _ _ _ Hmw) as H1.
  - intros H2%Hk. congruence.
  - intros [= <- <-]. done.
Qed.

Lemma quiet_try_catch {A} (body : M A) (handler : Error -> M A) :
  quiet body -> (forall e, quiet (handler e)) -> quiet (try_catch body handler).
Proof.
  intros Hm Hk w r w'. unfold try_catch.
  destruct (body w) as [[a|e] w1] eqn:Hmw; pose proof (Hm _ _ _ Hmw) as H1.
  - intros [= <- <-]. done.
  - intros H2%Hk. congruence.
Qed.

Lemma quiet_lift {A} (r : Error + A) : quiet (lift r).
Proof. destruct r; [apply quiet_throw | apply quiet_ret]. Qed.

Lemma quiet_console_error (label : string) (e : Error) :
  quiet (console_error label e).
Proof.
  intros w r w' [= <- <-]. cbn [emit trace].
  rewrite challenge_count_app. cbn. lia.
Qed.

Lemma quiet_Date_now : quiet (Date_now E).
Proof. by intros w r w' [= <- <-]. Qed.

Lemma quiet_storage_getString (k : string) : quiet (storage_getString k).
Proof. by intros w r w' [= <- <-]. Qed.

Lemma quiet_storage_set (k v : string) : quiet (storage_set k v).
Proof. by intros w r w' [= <- <-]. Qed.

Lemma quiet_storage_delete (k : string) : quiet (storage_delete k).
Proof. by intros w r w' [= <- <-]. Qed.

Lemma quiet_JSON_parse (s : string) : quiet (JSON_parse s).
Proof.
  unfold JSON_parse. case_match; [apply quiet_ret | apply quiet_throw].
Qed.

Lemma quiet_setGenericPassword (u p : string) (o : Options) :
  quiet (Keychain_setGenericPassword E u p o).
Proof.
  intros w r w'. unfold Keychain_setGenericPassword.
  case_match; intros [= <- <-]; cbn [set_keychain tick emit trace];
    rewrite challenge_count_app; cbn; lia.
Qed.

Lemma quiet_resetGenericPassword (svc : string) :
  quiet (Keychain_resetGenericPassword E svc).
Proof.
  intros w r w'. unfold Keychain_resetGenericPassword.
  case_match; intros [= <- <-]; cbn [set_keychain tick emit trace];
    rewrite challenge_count_app; cbn; lia.
Qed.

Ltac quiet_step :=
  lazymatch goal with
  | |- quiet (try_catch _ _) => apply quiet_try_catch; [|intros ?]
  | |- quiet (bind _ _) => apply quiet_bind; [|intros ?]
  | |- quiet (ret _) => apply quiet_ret
  | |- quiet (throw _) => apply quiet_throw
  | |- quiet (lift _) => apply quiet_lift
  | |- quiet (console_error _ _) => apply quiet_console_error
  | |- quiet (Date_now _) => apply quiet_Date_now
  | |- quiet (storage_getString _) => apply quiet_storage_getString
  | |- quiet (storage_set _ _) => apply quiet_storage_set
  | |- quiet (storage_delete _) => apply quiet_storage_delete
  | |- quiet (JSON_parse _) => apply quiet_JSON_parse
  | |- quiet (Keychain_setGenericPassword _ _ _ _) =>
      apply quiet_setGenericPassword
  | |- quiet (Keychain_resetGenericPassword _ _) =>
      apply quiet_resetGenericPassword
  | |- quiet (match _ with _ => _ end) => case_match
  end.

Lemma quiet_getItemsList : quiet getItemsList.
Proof. unfold getItemsList, parse_or. repeat quiet_step. Qed.

Lemma quiet_parse_or (str : option string) (fallback : M json) :
  quiet fallback -> quiet (parse_or str fallback).
Proof. intros Hf. unfold parse_or. by repeat quiet_step. Qed.

(** One step through a call of the vault's own readers. *)
Ltac quiet_call :=
  lazymatch goal with
  | |- quiet getItemsList => apply quiet_getItemsList
  | |- quiet (parse_or _ _) => apply quiet_parse_or
  | |- _ => quiet_step
  end.

Lemma quiet_saveCredential (k u p : string) (opts : CredentialOptions) :
  quiet (saveCredential E k u p opts).
Proof.
  unfold saveCredential, saveItemsList. cbv zeta. repeat quiet_call.
Qed.

(** X28. Writing needs no authentication: save, update and delete put no
    challenge to the user, in any world and whatever they resolve to, also
    when the record they overwrite or remove sits behind a policy. *)
Theorem writes_never_challenge (k u p : string) (opts : CredentialOptions)
    (item : json) :
  quiet (saveCredential E k u p opts)
  /\ quiet (updateCredential E k u p opts)
  /\ quiet (deleteCredential E item).
Proof.
  split_and!; [apply quiet_saveCredential| |].
  - unfold updateCredential.
    repeat lazymatch goal with
           | |- quiet (saveCredential _ _ _ _ _) => apply quiet_saveCredential
           | |- _ => quiet_call
           end.
  - unfold deleteCredential, saveItemsList. repeat quiet_call.
Qed.

(** X29. Delete then get: after a delete that the keychain accepts, a get
    of the key resolves to null, whatever options it is called with, and
    puts no challenge to the user. *)
Theorem getCredential_after_delete (k : string) (gopts : CredentialOptions)
    (w : World) (keys : list string) :
  native_fault E (ticks w) = None ->
  getItemsList w = (Normal (JArray (JString <$> keys)), w) ->
  exists w1 w2,
    deleteCredential E (JString k) w = (Normal true, w1)
    /\ getCredential E k gopts w1 = (Normal None, w2)
    /\ challenge_count (trace w2) = challenge_count (trace w1).
Proof.
  intros Hfault Hidx.
  destruct (deleteCredential_indexed E k w keys Hfault Hidx)
    as (w1 & Hdel & Hm & Hk & _ & _).
  exists w1. eexists. split; [exact Hdel|].
  run. rewrite Hm, lookup_insert_ne, lookup_delete_eq by discriminate.
  cbn [get_prop assoc]. rewrite service_getCredential_keychainOptions.
  rewrite Hk, lookup_delete_eq. split; [reflexivity|].
  cbn [trace]. rewrite challenge_count_app. cbn. lia.
Qed.

End QuietProperties.

(** ** More of the code on concrete stores *)

Module MoreExamples.
Import Scenario Fixture.
#[local] Existing Instance MiniJSON.codec.
#[local] Existing Instance latin1_trim.

Ltac not_listed :=
  let Hin := fresh in
  intros Hin; apply list_elem_of_In in Hin; simpl in Hin;
  repeat (destruct Hin as [Hin|Hin]; [discriminate Hin|]); destruct Hin.

(** Deleting [a] next to [b]. *)
Lemma deleteCredential_removes_witness :
  exists w',
    deleteCredential cooperative (JString "a") with_ab = (Normal true, w')
    /\ mmkv w' !! "metadata_a" = None
    /\ keychain w' !! "com.lockscreencreds.example.a" = None
    /\ getItemsList w' = (Normal (JArray [JString "b"]), w')
    /\ keychain w' !! "com.lockscreencreds.example.b"
       = keychain with_ab !! "com.lockscreencreds.example.b".
Proof.
  destruct (deleteCredential_removes (L := MiniJSONFacts.codec_laws)
              cooperative "a" with_ab ["a"; "b"])
    as (w' & Hdel & Hm & Hk & Hidx & _ & Hother);
    [reflexivity | vm_compute; reflexivity |].
  exists w'. split_and!; [exact Hdel | exact Hm | exact Hk | exact Hidx |].
  apply (Hother "b"). discriminate.
Defined.

(** Deleting [a] on a device whose keychain rejects the reset. *)
Lemma deleteCredential_rejected_witness :
  exists w',
    deleteCredential locked (JString "a") with_a = (Normal false, w')
    /\ mmkv w' = mmkv with_a /\ keychain w' = keychain with_a.
Proof.
  apply (deleteCredential_rejected locked (JString "a") with_a
           "The keychain is locked").
  reflexivity.
Defined.

(** Saving [z] next to [a] and deleting it again. *)
Lemma save_then_delete_witness :
  exists w1 w2,
    saveCredential cooperative "z" "zed" "pw0" (policy true false) with_a
    = (Normal true, w1)
    /\ deleteCredential cooperative (JString "z") w1 = (Normal true, w2)
    /\ mmkv w2 !! "metadata_z" = None
    /\ keychain w2 !! "com.lockscreencreds.example.z" = None
    /\ getItemsList w2 = (Normal (JArray [JString "a"]), w2).
Proof.
  apply (save_then_delete (L := MiniJSONFacts.codec_laws) cooperative
           "z" "zed" "pw0" (policy true false) with_a ["a"]).
  - vm_compute. reflexivity.
  - not_listed.
  - reflexivity.
  - reflexivity.
Defined.

(** Saving [a] again on a device whose keychain rejects the write. *)
Lemma saveCredential_rejected_witness :
  exists w',
    saveCredential locked "a" "mallory" "pw9" (policy true false) with_a
    = (Normal false, w')
    /\ keychain w' = keychain with_a
    /\ mmkv w' !! "itemsList" = mmkv with_a !! "itemsList".
Proof.
  destruct (saveCredential_rejected locked "a" "mallory" "pw9"
              (policy true false) with_a "The keychain is locked")
    as (w' & Hsave & Hk & Hidx & _); [reflexivity|].
  exists w'. split_and!; [exact Hsave | exact Hk | exact Hidx].
Defined.

(** [b], saved behind biometrics. *)
Lemma saveCredential_policy_mirror_witness :
  exists it props,
    keychain with_ab !! "com.lockscreencreds.example.b" = Some it
    /\ item_accessControl it = Some BIOMETRY_ANY
    /\ mmkv with_ab !! "metadata_b" = Some (stringify (JObject props))
    /\ assoc "useBiometrics" props = Some (JBool true)
    /\ assoc "useDevicePasscode" props = Some (JBool false).
Proof.
  destruct (saveCredential_policy_mirror cooperative "b" "bob" "pw2"
              (policy true false) with_a with_ab)
    as (it & props & Hit & _ & _ & Hac & Hm & Hb & Hp & _);
    [vm_compute; reflexivity|].
  exists it, props.
  split_and!; [exact Hit | exact Hac | exact Hm | exact Hb | exact Hp].
Defined.

(** Reading [b] back on a cooperative device. *)
Lemma getCredential_gated_witness :
  exists r w2,
    getCredential cooperative "b" no_options with_ab = (Normal r, w2)
    /\ challenge_count (trace w2) = S (challenge_count (trace with_ab))
    /\ exists c, r = Some c /\ username_of c = "bob" /\ password_of c = "pw2".
Proof.
  apply (getCredential_gated (L := MiniJSONFacts.codec_laws) cooperative
           "b" "bob" "pw2" (policy true false) no_options with_a with_ab).
  - vm_compute. reflexivity.
  - intros [Hb _]. discriminate Hb.
Defined.

(** Updating [a], next to [b], to sit behind the device passcode. *)
Lemma updateCredential_upsert_witness :
  keychain with_a_resealed !! "com.lockscreencreds.example.a"
  = Some {| item_username := "alice"; item_password := "pw1b";
            item_accessControl := Some DEVICE_PASSCODE |}
  /\ keychain with_a_resealed !! "com.lockscreencreds.example.b"
     = keychain with_ab !! "com.lockscreencreds.example.b"
  /\ getItemsList with_a_resealed
     = (Normal (JArray (JString <$> ["a"; "b"])), with_a_resealed).
Proof.
  destruct (updateCredential_upsert (L := MiniJSONFacts.codec_laws)
              cooperative "a" "alice" "pw1b" (policy false true) with_ab
              with_a_resealed)
    as (Hsecret & Hother & Hindex); [vm_compute; reflexivity|].
  split_and!.
  - exact Hsecret.
  - apply (Hother "b"). discriminate.
  - apply (Hindex ["a"; "b"]). vm_compute. reflexivity.
Defined.

(** A passed authentication next to [a]. *)
Lemma authenticateWithLockscreen_sound_witness :
  challenge_count (trace authenticated) = S (challenge_count (trace with_a))
  /\ mmkv authenticated = mmkv with_a.
Proof.
  destruct (authenticateWithLockscreen_sound cooperative default_auth with_a
              authenticated)
    as (Hcount & _ & _ & Hm); [vm_compute; reflexivity|].
  split; [exact Hcount | exact Hm].
Defined.

(** A cooperative device and user, from the fresh store. *)
Lemma authenticateWithLockscreen_complete_witness :
  exists w',
    authenticateWithLockscreen cooperative default_auth fresh
    = (Normal true, w').
Proof.
  apply (authenticateWithLockscreen_complete cooperative default_auth fresh);
    intros n; reflexivity.
Defined.

(** The two probes on an Android phone whose keychain is locked. *)
Lemma lockscreen_probes_agree_witness :
  fst (isLockscreenEnabled
         (phone (rejecting android "The keychain is locked") false) fresh)
  = fst (checkDevicePasscodeAvailability
           (phone (rejecting android "The keychain is locked") false) fresh).
Proof.
  apply (lockscreen_probes_agree
           (phone (rejecting android "The keychain is locked") false) fresh).
  intros n msg Hfault. cbn in Hfault. injection Hfault as <-. reflexivity.
Defined.

(** The two probes on an Android phone without enrolled fingerprints. *)
Lemma lockscreen_probes_differ_witness :
  fst (isLockscreenEnabled
         (phone (rejecting android "No fingerprint enrolled") false) fresh)
  = Normal true
  /\ fst (checkDevicePasscodeAvailability
            (phone (rejecting android "No fingerprint enrolled") false) fresh)
     = Normal false.
Proof.
  apply (lockscreen_probes_differ
           (phone (rejecting android "No fingerprint enrolled") false) fresh
           "No fingerprint enrolled"); reflexivity.
Defined.

(** The passcode probe on an Android phone that rejects the cleanup. *)
Lemma checkDevicePasscodeAvailability_probe_witness :
  exists r w',
    checkDevicePasscodeAvailability (phone (failing_at 3) false) fresh
    = (Normal r, w')
    /\ r = false
    /\ keychain w' !! "test_passcode_1700000001000"
       = Some {| item_username := "test"; item_password := "test";
                 item_accessControl := Some DEVICE_PASSCODE |}.
Proof.
  apply (checkDevicePasscodeAvailability_probe (phone (failing_at 3) false)
           fresh); reflexivity.
Defined.

(** Clear-all over [a] and [b] on a cooperative device. *)
Lemma clearAllData_clears_witness :
  exists w',
    clearAllData_onPress cooperative with_ab = (Normal tt, w')
    /\ getItemsList w' = (Normal (JArray []), w')
    /\ keychain w' !! "com.lockscreencreds.example.a" = None
    /\ keychain w' !! "com.lockscreencreds.example.b" = None.
Proof.
  destruct (clearAllData_clears (L := MiniJSONFacts.codec_laws) cooperative
              with_ab cleared_for_deletion ["a"; "b"])
    as (w' & Hrun & Hidx & Hgone);
    [vm_compute; reflexivity | vm_compute; reflexivity |].
  exists w'. split_and!; [exact Hrun | exact Hidx | |].
  - apply (Hgone (fun n => eq_refl) "a"). left.
  - apply (Hgone (fun n => eq_refl) "b"). right. left.
Defined.

(** The switch is turned on, on a device with a lock screen. *)
Lemma toggleAppSecurity_authenticated_witness :
  exists s' w',
    toggleAppSecurity cooperative true Settings.Dismiss (settings true) fresh
    = (Normal tt, s', w')
    /\ Settings.authenticating s' = false.
Proof.
  destruct (toggleAppSecurity_authenticated cooperative true Settings.Dismiss
              (settings true) fresh)
    as (s' & w' & Hrun & Hdone & _); [right; reflexivity|].
  exists s', w'. split; [exact Hrun | exact Hdone].
Defined.

(** The switch is turned on, on a device that reported no lock screen, and
    the warning is answered with [Enable Anyway]. *)
Lemma toggleAppSecurity_unguarded_witness :
  exists s' w',
    toggleAppSecurity cooperative true Settings.EnableAnyway (settings false)
      fresh
    = (Normal tt, s', w')
    /\ challenge_count (trace w') = challenge_count (trace fresh)
    /\ Settings.securityStorage s' !! "appSecurityEnabled" = Some true
    /\ initialRouteName (Settings.securityStorage s') = "Auth".
Proof.
  destruct (toggleAppSecurity_unguarded cooperative Settings.EnableAnyway
              (settings false) fresh)
    as (s' & w' & Hrun & Hcount & _ & _ & Hflag & _ & Hroute);
    [reflexivity|].
  exists s', w'. split_and!; [exact Hrun | exact Hcount | exact Hflag |].
  exact Hroute.
Defined.

(** A form whose name is a no-break space and a space. *)
Lemma handleSave_blank_witness :
  exists text,
    handleSave cooperative Home.Update
      (form (String "160"%char " ") "alice" "pw1" false false) with_a
    = (Normal tt, form (String "160"%char " ") "alice" "pw1" false false,
       emit (Alert "Error" text) with_a).
Proof.
  apply (handleSave_blank cooperative Home.Update
           (form (String "160"%char " ") "alice" "pw1" false false) with_a).
  intros [Hname _]. discriminate Hname.
Defined.

(** The form holds [a], which is in the index, and the dialog is
    cancelled. *)
Lemma handleSave_existing_key_witness :
  exists s',
    handleSave cooperative Home.Cancel (form "a" "mallory" "pw9" true false)
      with_a
    = (Normal tt, s', emit exists_dialog with_a)
    /\ Home.itemKey s' = "a".
Proof.
  destruct (handleSave_existing_key cooperative
              (form "a" "mallory" "pw9" true false) with_a ["a"])
    as [(s' & Hrun & _ & Hname & _) _].
  - split_and!; reflexivity.
  - vm_compute. reflexivity.
  - left.
  - exists s'. split; [exact Hrun | exact Hname].
Defined.

(** The form holds [z], which is new, behind the device passcode. *)
Lemma handleSave_new_key_witness :
  exists s' w',
    handleSave cooperative Home.Cancel (form "z" "zed" "pw0" false true)
      with_a
    = (Normal tt, s', w')
    /\ keychain w' !! "com.lockscreencreds.example.z"
       = Some {| item_username := "zed"; item_password := "pw0";
                 item_accessControl := Some DEVICE_PASSCODE |}
    /\ Home.items s' = JArray (JString <$> ["a"; "z"])
    /\ Home.itemKey s' = EmptyString.
Proof.
  destruct (handleSave_new_key (L := MiniJSONFacts.codec_laws) cooperative
              Home.Cancel (form "z" "zed" "pw0" false true) with_a ["a"])
    as (s' & w' & Hrun & Hsecret & Hitems & Hname & _).
  - split_and!; reflexivity.
  - vm_compute. reflexivity.
  - not_listed.
  - reflexivity.
  - exists s', w'.
    split_and!; [exact Hrun | exact Hsecret | exact Hitems | exact Hname].
Defined.

(** The biometrics switch of [a] is turned on while its passcode switch is
    on. *)
Lemma toggleSecurityOption_both_witness :
  exists s' w',
    toggleSecurityOption cooperative "a" Detail.biometrics true detail_a
      with_a
    = (Normal tt, s', w')
    /\ Detail.useBiometrics s' = true
    /\ Detail.useDevicePasscode s' = false
    /\ keychain w' !! "com.lockscreencreds.example.a"
       = Some {| item_username := "alice"; item_password := "pw1";
                 item_accessControl := Some BIOMETRY_ANY_OR_DEVICE_PASSCODE |}.
Proof.
  destruct (toggleSecurityOption_both (L := MiniJSONFacts.codec_laws)
              cooperative "a" Detail.biometrics detail_a
              {| service_of := EmptyString; username_of := "alice";
                 password_of := "pw1"; metadata_of := JObject [] |}
              with_a with_a_both)
    as (s' & w' & Hrun & Hbio & Hpass & Hsecret & _);
    [reflexivity | reflexivity | vm_compute; reflexivity |].
  exists s', w'. split_and!; [exact Hrun | exact Hbio | | exact Hsecret].
  rewrite Hpass, Hbio. reflexivity.
Defined.

(** The detail screen of [b], which sits behind biometrics, is opened on a
    cooperative iPhone. *)
Lemma loadCredential_gated_witness :
  exists s' w2,
    loadCredential cooperative "b" mounted with_ab = (Normal tt, s', w2)
    /\ challenge_count (trace w2) = S (challenge_count (trace with_ab))
    /\ shows s' "bob" "pw2"
    /\ Detail.useBiometrics s' = true.
Proof.
  destruct (loadCredential_gated (L := MiniJSONFacts.codec_laws) cooperative
              "b" "bob" "pw2" (policy true false) mounted with_a with_ab)
    as (s' & w2 & Hrun & _ & _ & _ & Hbio & _ & _ & _ & Hios);
    [vm_compute; reflexivity | reflexivity |].
  assert (challenge_count (trace w2) = S (challenge_count (trace with_ab))
          /\ shows s' "bob" "pw2"
          /\ Detail.showPassword s' = Detail.showPassword mounted)
    as (Hcount & Hshown & _).
  { apply Hios; [|reflexivity]. intros [Hb _]. discriminate Hb. }
  exists s', w2.
  split_and!; [exact Hrun | exact Hcount | exact Hshown | exact Hbio].
Defined.

(** One run of [authenticateUser] on a cooperative iPhone. *)
Lemma authenticateUser_unlocks_witness :
  exists s' w',
    authenticateUser (phone cooperative true)
      (lock_screen {["appSecurityEnabled" := true]}) with_a
    = (Normal tt, s', w')
    /\ mmkv w' = mmkv with_a
    /\ Auth.authAttempts s' = 1.
Proof.
  destruct (authenticateUser_unlocks (phone cooperative true)
              (lock_screen {["appSecurityEnabled" := true]}) with_a)
    as (s' & w' & Hrun & Hm & _ & Hn & _); [reflexivity | discriminate |].
  exists s', w'. split_and!; [exact Hrun | exact Hm | exact Hn].
Defined.

(** The lock screen is mounted although no flag was ever stored. *)
Lemma checkAppSecurity_gate_witness :
  exists s' w',
    checkAppSecurity (phone cooperative true) false (lock_screen ∅) with_a
    = (Normal tt, s', w')
    /\ Auth.loading s' = false
    /\ Auth.route s' = "Home"
    /\ w' = with_a.
Proof.
  destruct (checkAppSecurity_gate (phone cooperative true) false
              (lock_screen ∅) with_a)
    as (s' & w' & Hrun & Hl & _ & _ & Hoff & _); [reflexivity | discriminate |].
  destruct (Hoff eq_refl) as (Hroute & _ & Hw).
  exists s', w'. split_and!; [exact Hrun | exact Hl | exact Hroute | exact Hw].
Defined.

(** Deleting [a] next to [b] and asking for it again. *)
Lemma getCredential_after_delete_witness :
  exists w1 w2,
    deleteCredential cooperative (JString "a") with_ab = (Normal true, w1)
    /\ getCredential cooperative "a" ask_biometrics w1 = (Normal None, w2)
    /\ challenge_count (trace w2) = challenge_count (trace w1).
Proof.
  apply (getCredential_after_delete cooperative "a" ask_biometrics with_ab
           ["a"; "b"]).
  - reflexivity.
  - vm_compute. reflexivity.
Defined.

End MoreExamples.
